(** * ing-switch: the annotation classifier, the Gateway API and Traefik
    synthesizers and the validation phase, embedded from the Go sources.

    Go's [map[string]string] is a [gmap string string]; indexing a missing
    key gives the empty string, as in Go.  A [range] over a map visits the
    entries in an order the language leaves open: every function that ranges
    over a map takes the visited sequence as an argument, and [MapRange] says
    which sequences a map allows. *)

From stdpp Require Import gmap strings list fin_maps pretty sorting.
From Stdlib Require Import ZArith String Ascii.

Open Scope string_scope.
Open Scope Z_scope.

(** ** The parts of Go, [fmt] and [strings] the code relies on *)

Module Go.

(** A line feed and a double quote, as one-character strings. *)
Definition nl : string := String (ascii_of_nat 10) EmptyString.
Definition dq : string := String (ascii_of_nat 34) EmptyString.

(** [fmt.Sprintf] with [%s] verbs: the literal pieces and the arguments,
    in the order of the template. *)
Fixpoint cat (pieces : list string) : string :=
  match pieces with
  | [] => EmptyString
  | p :: ps => p +:+ cat ps
  end.

(** [m[k]]: the value, or the zero value of [string]. *)
Definition index (m : gmap string string) (k : string) : string :=
  default EmptyString (m !! k).

(** The [ok] of [v, ok := m[k]]. *)
Definition has (m : gmap string string) (k : string) : bool :=
  bool_decide (is_Some (m !! k)).

(** [strings.Join(elems, sep)]. *)
Definition Join (elems : list string) (sep : string) : string :=
  String.concat sep elems.

(** [strings.Contains(s, substr)]. *)
Fixpoint Contains (s substr : string) : bool :=
  String.prefix substr s ||
  match s with
  | EmptyString => false
  | String _ s' => Contains s' substr
  end.

(** The [%d] verb on an integer. *)
Definition fmt_d (z : Z) : string := pretty z.

(** The sequences a [range] over [m] may visit: every entry once, in any
    order. *)
Definition MapRange {V} (m : gmap string V) (kvs : list (string * V)) : Prop :=
  kvs ≡ₚ map_to_list m.

(** A quoting function good for [%q] on printable ASCII text: Go writes the
    text between double quotes, with a backslash before a double quote and
    before a backslash. *)
Fixpoint escapeASCII (s : string) : string :=
  match s with
  | EmptyString => EmptyString
  | String c s' =>
      if (nat_of_ascii c =? 34)%nat then String (ascii_of_nat 92) (String c (escapeASCII s'))
      else if (nat_of_ascii c =? 92)%nat then String c (String c (escapeASCII s'))
      else String c (escapeASCII s')
  end.
Definition quoteASCII (s : string) : string := cat [dq; escapeASCII s; dq].


(** [strings.HasPrefix(s, prefix)] and [strings.TrimPrefix(s, prefix)]. *)
Definition HasPrefix (s prefix : string) : bool := String.prefix prefix s.

Fixpoint dropBytes (n : nat) (s : string) : string :=
  match n, s with
  | O, _ => s
  | S n', String _ s' => dropBytes n' s'
  | S _, EmptyString => EmptyString
  end.

Definition TrimPrefix (s prefix : string) : string :=
  if HasPrefix s prefix then dropBytes (String.length prefix) s else s.

(** [s[:n]] for [n] within the length of [s]. *)
Definition sliceTo (s : string) (n : nat) : string := String.substring 0 n s.

(** [strings.Split(s, sep)] for a separator that is not empty: [skip]
    counts the bytes of a separator still to pass over, [cur] holds the
    bytes of the current piece, last first. *)
Fixpoint splitFrom (s sep : string) (skip : nat) (cur : string) : list string :=
  match s with
  | EmptyString => [String.rev cur]
  | String c s' =>
      match skip with
      | S k => splitFrom s' sep k cur
      | O =>
          if String.prefix sep s
          then String.rev cur :: splitFrom s' sep (String.length sep - 1) EmptyString
          else splitFrom s' sep O (String c cur)
      end
  end.

Definition Split (s sep : string) : list string := splitFrom s sep O EmptyString.

(** The white space of [unicode.IsSpace], as UTF-8: tab, line feed,
    vertical tab, form feed, carriage return, space, U+0085, U+00A0, U+1680,
    U+2000 to U+200A, U+2028, U+2029, U+202F, U+205F and U+3000. *)
Definition bytesOf (codes : list nat) : string :=
  string_of_list_ascii (map ascii_of_nat codes).

Definition spaces : list string :=
  map bytesOf
    ([[9]; [10]; [11]; [12]; [13]; [32]; [194; 133]; [194; 160]; [225; 154; 128]]
     ++ map (λ b, [226; 128; b]) [128; 129; 130; 131; 132; 133; 134; 135; 136; 137; 138]
     ++ [[226; 128; 168]; [226; 128; 169]; [226; 128; 175]; [226; 129; 159];
         [227; 128; 128]])%nat%list.

(** The white space [s] starts with, if any. *)
Definition leadingSpace (s : string) : option string :=
  list_find (λ sp, String.prefix sp s = true) spaces ≫= λ found, Some found.2.

(** [strings.TrimLeftFunc(s, unicode.IsSpace)]; [fuel] bounds the number
    of runes dropped. *)
Fixpoint trimLeftSpace (fuel : nat) (s : string) : string :=
  match fuel with
  | O => s
  | S fuel' =>
      match leadingSpace s with
      | Some sp => trimLeftSpace fuel' (dropBytes (String.length sp) s)
      | None => s
      end
  end.

(** The same from the end: a white space rune ends [s] when its bytes,
    reversed, start the reversed [s]. *)
Definition trailingSpace (reversed : string) : option string :=
  list_find (λ sp, String.prefix (String.rev sp) reversed = true) spaces
    ≫= λ found, Some found.2.

Fixpoint trimLeftReversed (fuel : nat) (reversed : string) : string :=
  match fuel with
  | O => reversed
  | S fuel' =>
      match trailingSpace reversed with
      | Some sp => trimLeftReversed fuel' (dropBytes (String.length sp) reversed)
      | None => reversed
      end
  end.

(** [strings.TrimSpace(s)]. *)
Definition TrimSpace (s : string) : string :=
  let left := trimLeftSpace (String.length s) s in
  String.rev (trimLeftReversed (String.length left) (String.rev left)).

(** [sort.Strings]: the strings in increasing byte order. *)
Definition sortStrings (l : list string) : list string := merge_sort String.le l.

(** Go's [int] is 64 bits wide: the value of an arithmetic result after
    wrap-around.  [a / b] on [int] is [Z.quot]. *)
Definition wrap64 (z : Z) : Z := (z + 2 ^ 63) mod 2 ^ 64 - 2 ^ 63.

End Go.

Import Go.

(** ** The fields of [k8s.io/api/networking/v1] that [parseIngress] reads

    A nil pointer is [None]. *)

Module networkingv1.

Record IngressTLS := {
  SecretName : string
}.

Record ServiceBackendPort := {
  Number : Z
}.

Record IngressServiceBackend := {
  ServiceName : string;
  Port : ServiceBackendPort
}.

Record IngressBackend := {
  Service : option IngressServiceBackend
}.

Record HTTPIngressPath := {
  Path : string;
  PathType : option string;
  Backend : IngressBackend
}.

Record IngressRule := {
  Host : string;
  HTTP : option (list HTTPIngressPath)
}.

Record IngressSpec := {
  IngressClassName : option string;
  TLS : list IngressTLS;
  Rules : list IngressRule
}.

Record Ingress := {
  Namespace : string;
  Name : string;
  Annotations : gmap string string;
  Spec : IngressSpec
}.

End networkingv1.

(** ** pkg/scanner/types.go *)

Module scanner.

Record ControllerInfo := {
  Detected : bool;
  Type_ : string;
  Version : string;
  ControllerNamespace : string;
  PodName : string
}.

Record PathInfo := {
  Host : string;
  Path : string;
  PathType : string;
  ServiceName : string;
  ServicePort : Z
}.

Record ServiceRef := {
  RefNamespace : string;
  RefName : string;
  RefPort : Z
}.

Record IngressInfo := {
  Namespace : string;
  Name : string;
  IngressClass : string;
  Hosts : list string;
  Paths : list PathInfo;
  TLSEnabled : bool;
  TLSSecrets : list string;
  Annotations : gmap string string;
  NginxAnnotations : gmap string string;
  Services : list ServiceRef;
  Complexity : string
}.

Record ScanResult := {
  ClusterName : string;
  Controller : ControllerInfo;
  Ingresses : list IngressInfo;
  Namespaces : list string
}.

(** *** pkg/scanner/ingress.go *)

Definition nginxAnnotationPrefix : string := "nginx.ingress.kubernetes.io/".

(** [m[k]] for a [map[string]bool]. *)
Definition flag (m : gmap string bool) (k : string) : bool := default false (m !! k).

Definition unsupportedInTraefik : gmap string bool := list_to_map [
  ("proxy-body-size", true);
  ("client-body-buffer-size", true);
  ("snippets", true);
  ("lua-resty-waf", true);
  ("modsecurity-snippet", true)
].

Definition complexAnnotations : gmap string bool := list_to_map [
  ("auth-url", true);
  ("auth-response-headers", true);
  ("canary", true);
  ("canary-weight", true);
  ("limit-rps", true);
  ("limit-connections", true);
  ("rewrite-target", true);
  ("use-regex", true);
  ("affinity", true);
  ("whitelist-source-range", true);
  ("denylist-source-range", true);
  ("proxy-read-timeout", true);
  ("proxy-connect-timeout", true)
].

(** [for k := range nginx { if set[k] { return ... } }]: whether the loop
    returns, when it visits [order]. *)
Fixpoint rangeFinds (set : gmap string bool) (order : list (string * string)) : bool :=
  match order with
  | [] => false
  | kv :: rest => if flag set kv.1 then true else rangeFinds set rest
  end.

(** [classifyComplexity] when its two loops visit [first] and [second]. *)
Definition classifyComplexityOver (nginx : gmap string string)
    (first second : list (string * string)) : string :=
  if (size nginx =? 0)%nat then "simple"
  else if rangeFinds unsupportedInTraefik first then "unsupported"
  else if rangeFinds complexAnnotations second then "complex"
  else "simple".

Inductive classifyComplexity (nginx : gmap string string) : string → Prop :=
| classifyComplexity_range first second :
    MapRange nginx first → MapRange nginx second →
    classifyComplexity nginx (classifyComplexityOver nginx first second).

(** The state of the loop of [parseIngress] over the rules. *)
Record rulesLoop := {
  serviceSet : gmap string ServiceRef;
  hostSet : gmap string bool;
  loopPaths : list PathInfo
}.

(** One turn of [for _, path := range rule.HTTP.Paths]. *)
Definition parsePath (ing : networkingv1.Ingress) (rule : networkingv1.IngressRule)
    (st : rulesLoop) (path : networkingv1.HTTPIngressPath) : rulesLoop :=
  let pathType := default EmptyString (networkingv1.PathType path) in
  match networkingv1.Service (networkingv1.Backend path) with
  | Some service =>
      let number := networkingv1.Number (networkingv1.Port service) in
      let pi := {| Host := networkingv1.Host rule; Path := networkingv1.Path path;
                   PathType := pathType;
                   ServiceName := networkingv1.ServiceName service;
                   ServicePort := if number =? 0 then 0 else number |} in
      let key := networkingv1.Namespace ing +:+ "/" +:+ networkingv1.ServiceName service in
      {| serviceSet :=
           <[key := {| RefNamespace := networkingv1.Namespace ing;
                       RefName := networkingv1.ServiceName service;
                       RefPort := number |}]> (serviceSet st);
         hostSet := hostSet st;
         loopPaths := loopPaths st ++ [pi] |}
  | None =>
      let pi := {| Host := networkingv1.Host rule; Path := networkingv1.Path path;
                   PathType := pathType; ServiceName := EmptyString; ServicePort := 0 |} in
      {| serviceSet := serviceSet st; hostSet := hostSet st;
         loopPaths := loopPaths st ++ [pi] |}
  end.

(** One turn of [for _, rule := range ing.Spec.Rules]. *)
Definition parseRule (ing : networkingv1.Ingress) (st : rulesLoop)
    (rule : networkingv1.IngressRule) : rulesLoop :=
  let st :=
    if negb (String.eqb (networkingv1.Host rule) EmptyString)
    then {| serviceSet := serviceSet st;
            hostSet := <[networkingv1.Host rule := true]> (hostSet st);
            loopPaths := loopPaths st |}
    else st in
  match networkingv1.HTTP rule with
  | None => st
  | Some paths => foldl (parsePath ing rule) st paths
  end.

Definition parseRules (ing : networkingv1.Ingress) : rulesLoop :=
  foldl (parseRule ing)
    {| serviceSet := ∅; hostSet := ∅; loopPaths := [] |}
    (networkingv1.Rules (networkingv1.Spec ing)).

(** The loop that fills [info.NginxAnnotations], visiting [order]. *)
Definition extractNginxOver (order : list (string * string)) : gmap string string :=
  foldl (λ nginx kv,
           if HasPrefix kv.1 nginxAnnotationPrefix
           then <[TrimPrefix kv.1 nginxAnnotationPrefix := kv.2]> nginx
           else nginx)
        ∅ order.

(** [parseIngress] when the ranges over [hostSet], [serviceSet] and
    [ing.Annotations] visit [hostOrder], [serviceOrder] and [annOrder], and
    [classifyComplexity] returns [complexity]. *)
Definition parseIngressOver (ing : networkingv1.Ingress)
    (hostOrder : list (string * bool)) (serviceOrder : list (string * ServiceRef))
    (annOrder : list (string * string)) (complexity : string) : IngressInfo :=
  let spec := networkingv1.Spec ing in
  {| Namespace := networkingv1.Namespace ing;
     Name := networkingv1.Name ing;
     IngressClass :=
       match networkingv1.IngressClassName spec with
       | Some cls => cls
       | None =>
           match networkingv1.Annotations ing !! "kubernetes.io/ingress.class" with
           | Some cls => cls
           | None => EmptyString
           end
       end;
     Hosts := sortStrings (map fst hostOrder);
     Paths := loopPaths (parseRules ing);
     TLSEnabled := (0 <? List.length (networkingv1.TLS spec))%nat;
     TLSSecrets :=
       if (0 <? List.length (networkingv1.TLS spec))%nat
       then filter (λ name, name ≠ EmptyString)
              (map networkingv1.SecretName (networkingv1.TLS spec))
       else [];
     Annotations := networkingv1.Annotations ing;
     NginxAnnotations := extractNginxOver annOrder;
     Services := map snd serviceOrder;
     Complexity := complexity |}.

Inductive parseIngress (ing : networkingv1.Ingress) : IngressInfo → Prop :=
| parseIngress_range hostOrder serviceOrder annOrder complexity :
    MapRange (hostSet (parseRules ing)) hostOrder →
    MapRange (serviceSet (parseRules ing)) serviceOrder →
    MapRange (networkingv1.Annotations ing) annOrder →
    classifyComplexity (extractNginxOver annOrder) complexity →
    parseIngress ing (parseIngressOver ing hostOrder serviceOrder annOrder complexity).

(** [extractNamespaces] when the range over [nsSet] visits [order]. *)
Definition namespaceSet (ingresses : list IngressInfo) : gmap string bool :=
  foldl (λ nsSet ing, <[Namespace ing := true]> nsSet) ∅ ingresses.

Definition extractNamespacesOver (order : list (string * bool)) : list string :=
  sortStrings (map fst order).

Inductive extractNamespaces (ingresses : list IngressInfo) : list string → Prop :=
| extractNamespaces_range order :
    MapRange (namespaceSet ingresses) order →
    extractNamespaces ingresses (extractNamespacesOver order).

(** *** pkg/scanner/config.go *)

Definition builtinIgnorePrefixes : list string := [
  "kubectl.kubernetes.io/";
  "argocd.argoproj.io/";
  "deployment.kubernetes.io/";
  "meta.helm.sh/";
  "helm.sh/";
  "kopf.dev/"
].

(** [len(key) >= len(prefix) && key[:len(prefix)] == prefix]. *)
Definition startsWith (key prefix : string) : bool :=
  (String.length prefix <=? String.length key)%nat
  && String.eqb (sliceTo key (String.length prefix)) prefix.

Definition shouldIgnoreAnnotation (key : string) (userPrefixes : list string) : bool :=
  if existsb (startsWith key) builtinIgnorePrefixes then true
  else existsb (λ prefix, if String.eqb prefix EmptyString then false
                          else startsWith key prefix) userPrefixes.

(** *** pkg/scanner/controller.go *)

Definition extractVersionFromImage (image : string) : string :=
  let parts := Split image ":" in
  if (List.length parts <? 2)%nat then "unknown"
  else default EmptyString (last parts).


End scanner.

Import scanner.

(** ** pkg/analyzer: the mapping tables, [MapAnnotation], [analyzeIngress]
    and [Analyze] *)

Module analyzer.

(** [type MappingStatus string] and its three constants. *)
Definition MappingStatus := string.
Definition StatusSupported : MappingStatus := "supported".
Definition StatusPartial : MappingStatus := "partial".
Definition StatusUnsupported : MappingStatus := "unsupported".

Record AnnotationMapping := {
  OriginalKey : string;
  OriginalValue : string;
  Status : MappingStatus;
  TargetResource : string;
  GeneratedYAML : string;
  Note : string
}.

(** One row of a mapping table. *)
Record MappingEntry := Entry {
  EntryStatus : MappingStatus;
  EntryTargetResource : string;
  EntryNote : string
}.

(** The rows of [traefikMappings], as the map literal lists them. *)
Definition traefikTable : list (string * MappingEntry) := [
  ("ssl-redirect", Entry StatusSupported "Middleware (RedirectScheme)" "Generates RedirectScheme middleware");
  ("force-ssl-redirect", Entry StatusSupported "Middleware (RedirectScheme)" "Permanent redirect to HTTPS");
  ("enable-cors", Entry StatusSupported "Middleware (Headers)" "Generates CORS Headers middleware");
  ("cors-allow-origin", Entry StatusSupported "Middleware (Headers)" "Part of Headers CORS middleware");
  ("cors-allow-methods", Entry StatusSupported "Middleware (Headers)" "Part of Headers CORS middleware");
  ("cors-allow-headers", Entry StatusSupported "Middleware (Headers)" "Part of Headers CORS middleware");
  ("cors-expose-headers", Entry StatusSupported "Middleware (Headers)" "Part of Headers CORS middleware");
  ("cors-allow-credentials", Entry StatusSupported "Middleware (Headers)" "Part of Headers CORS middleware");
  ("cors-max-age", Entry StatusSupported "Middleware (Headers)" "Part of Headers CORS middleware");
  ("affinity", Entry StatusSupported "Service sticky annotation" "Traefik sticky cookie on Service");
  ("session-cookie-name", Entry StatusSupported "Service sticky annotation" "Cookie name for session affinity");
  ("session-cookie-path", Entry StatusPartial "Service sticky annotation" "Limited path support");
  ("session-cookie-samesite", Entry StatusSupported "Service sticky annotation" "SameSite attribute");
  ("session-cookie-secure", Entry StatusSupported "Service sticky annotation" "Secure flag");
  ("limit-rps", Entry StatusSupported "Middleware (RateLimit)" "Generates RateLimit middleware");
  ("limit-rpm", Entry StatusSupported "Middleware (RateLimit)" "Converted to average rate");
  ("limit-connections", Entry StatusSupported "Middleware (InFlightReq)" "Max concurrent requests");
  ("limit-burst-multiplier", Entry StatusSupported "Middleware (RateLimit)" "Burst size multiplier");
  ("limit-whitelist", Entry StatusSupported "Middleware (RateLimit)" "Exempt IPs from rate limiting");
  ("auth-url", Entry StatusSupported "Middleware (ForwardAuth)" "Generates ForwardAuth middleware");
  ("auth-method", Entry StatusPartial "Middleware (ForwardAuth)" "Only GET/POST supported");
  ("auth-response-headers", Entry StatusSupported "Middleware (ForwardAuth)" "Headers passed after auth");
  ("auth-request-redirect", Entry StatusPartial "Middleware (ForwardAuth)" "Redirect URL for auth failure");
  ("auth-type", Entry StatusPartial "Middleware (BasicAuth)" "Basic auth only; digest not supported");
  ("auth-secret", Entry StatusPartial "Middleware (BasicAuth)" "Secret format differs from NGINX");
  ("auth-realm", Entry StatusSupported "Middleware (BasicAuth)" "Auth realm");
  ("whitelist-source-range", Entry StatusSupported "Middleware (IPAllowList)" "Generates IPAllowList middleware");
  ("denylist-source-range", Entry StatusSupported "Middleware (IPDenyList)" "Generates IPDenyList middleware");
  ("custom-headers", Entry StatusPartial "Middleware (Headers)" "ConfigMap ref not supported; inline headers needed");
  ("rewrite-target", Entry StatusSupported "Middleware (ReplacePath/AddPrefix)" "URL rewrite middleware");
  ("use-regex", Entry StatusSupported "Router (native)" "Traefik supports regex routing natively");
  ("app-root", Entry StatusSupported "Router + Middleware" "Redirect root path");
  ("permanent-redirect", Entry StatusSupported "Middleware (RedirectRegex)" "Permanent redirect");
  ("temporal-redirect", Entry StatusSupported "Middleware (RedirectRegex)" "Temporary redirect");
  ("canary", Entry StatusSupported "Weighted Services" "Weighted backend traffic splitting");
  ("canary-weight", Entry StatusSupported "Weighted Services" "Traffic weight percentage");
  ("canary-by-header", Entry StatusPartial "Router rules" "Header matching in router rules");
  ("canary-by-header-value", Entry StatusPartial "Router rules" "Header value matching");
  ("canary-by-cookie", Entry StatusPartial "Router rules" "Cookie-based routing via rules");
  ("proxy-read-timeout", Entry StatusPartial "ServersTransport CRD" "Requires ServersTransport resource");
  ("proxy-send-timeout", Entry StatusPartial "ServersTransport CRD" "Requires ServersTransport resource");
  ("proxy-connect-timeout", Entry StatusPartial "ServersTransport CRD" "Requires ServersTransport resource");
  ("proxy-buffering", Entry StatusUnsupported "" "No direct Traefik equivalent");
  ("proxy-body-size", Entry StatusPartial "Middleware (Buffering)" "Traefik Buffering middleware with maxRequestBodyBytes");
  ("proxy-request-buffering", Entry StatusPartial "Native (off by default)" "Off is default behavior; enabling request buffering requires Buffering middleware");
  ("client-body-buffer-size", Entry StatusUnsupported "" "No Traefik equivalent");
  ("configuration-snippet", Entry StatusUnsupported "" "NGINX-specific; intentionally not supported");
  ("server-snippet", Entry StatusUnsupported "" "NGINX-specific; intentionally not supported");
  ("ssl-passthrough", Entry StatusPartial "Traefik TCP router" "Requires TCP entrypoint config");
  ("backend-protocol", Entry StatusPartial "Service annotation" "HTTPS/GRPC backends need ServersTransport");
  ("websocket-services", Entry StatusSupported "Native" "Traefik supports WebSocket natively");
  ("grpc-backend", Entry StatusPartial "ServersTransport + h2c" "gRPC requires h2c configuration");
  ("upstream-hash-by", Entry StatusUnsupported "" "Hash-based LB not supported in Traefik Ingress");
  ("load-balance", Entry StatusUnsupported "" "Traefik uses round-robin; custom LB not via Ingress");
  ("affinity-mode", Entry StatusPartial "Service (sticky cookie)" "Traefik always uses persistent affinity; balanced re-balancing is not available");
  ("canary-weight-total", Entry StatusSupported "Weighted Services" "Traefik uses relative weights; total is implicit");
  ("proxy-http-version", Entry StatusPartial "ServersTransport CRD" "HTTP/2 via ServersTransport; HTTP/1.0 not supported");
  ("session-cookie-expires", Entry StatusPartial "Service (sticky cookie maxage)" "Convert seconds to service.sticky.cookie.maxage annotation on Service");
  ("session-cookie-max-age", Entry StatusSupported "Service (sticky cookie maxage)" "Maps to service.sticky.cookie.maxage annotation on Service");
  ("session-cookie-conditional-samesite-none", Entry StatusUnsupported "" "Traefik sets SameSite statically — no UA-conditional logic");
  ("session-cookie-change-on-failure", Entry StatusUnsupported "" "No Traefik equivalent (traefik/traefik#1299)");
  ("service-upstream", Entry StatusSupported "Service annotation (nativelb)" "Set traefik.ingress.kubernetes.io/service.nativelb: 'true' on Service");
  ("from-to-www-redirect", Entry StatusPartial "Middleware (RedirectRegex)" "Requires RedirectRegex middleware + separate Ingress entry for www");
  ("upstream-vhost", Entry StatusPartial "Middleware (Headers) + passhostheader" "Headers middleware sets Host header; disable passhostheader on Service");
  ("secure-verify-ca-secret", Entry StatusPartial "ServersTransport (rootCAs)" "ServersTransport CRD referencing the CA secret")
].

Definition traefikMappings : gmap string MappingEntry := list_to_map traefikTable.

(** The rows of [gatewayAPIMappings]. *)
Definition gatewayAPITable : list (string * MappingEntry) := [
  ("ssl-redirect", Entry StatusSupported "HTTPRoute (RequestRedirect filter)" "RequestRedirect filter with scheme=https");
  ("force-ssl-redirect", Entry StatusSupported "HTTPRoute (RequestRedirect filter)" "301 redirect to HTTPS");
  ("rewrite-target", Entry StatusSupported "HTTPRoute (URLRewrite filter)" "Path rewrite via URLRewrite filter");
  ("custom-headers", Entry StatusSupported "HTTPRoute (ResponseHeaderModifier)" "Response header manipulation filter");
  ("canary", Entry StatusSupported "HTTPRoute (weighted backendRefs)" "Traffic split via backendRefs weights");
  ("canary-weight", Entry StatusSupported "HTTPRoute (weighted backendRefs)" "Weight value in backendRefs");
  ("enable-cors", Entry StatusPartial "HTTPRoute (ResponseHeaderModifier)" "Manual CORS headers; no native CORS filter in v1");
  ("cors-allow-origin", Entry StatusPartial "HTTPRoute (ResponseHeaderModifier)" "Set Access-Control-Allow-Origin header");
  ("cors-allow-methods", Entry StatusPartial "HTTPRoute (ResponseHeaderModifier)" "Set Access-Control-Allow-Methods header");
  ("cors-allow-headers", Entry StatusPartial "HTTPRoute (ResponseHeaderModifier)" "Set Access-Control-Allow-Headers header");
  ("cors-allow-credentials", Entry StatusPartial "HTTPRoute (ResponseHeaderModifier)" "Set Access-Control-Allow-Credentials header");
  ("auth-url", Entry StatusPartial "SecurityPolicy (ExtensionRef)" "Envoy Gateway SecurityPolicy with ext-auth");
  ("auth-response-headers", Entry StatusPartial "SecurityPolicy (ExtensionRef)" "Part of SecurityPolicy ext-auth config");
  ("limit-rps", Entry StatusPartial "BackendTrafficPolicy (RateLimit)" "Envoy Gateway BackendTrafficPolicy");
  ("limit-rpm", Entry StatusPartial "BackendTrafficPolicy (RateLimit)" "Converted to rate limit");
  ("limit-connections", Entry StatusPartial "BackendTrafficPolicy (CircuitBreaker)" "Circuit breaker policy");
  ("whitelist-source-range", Entry StatusPartial "HTTPRoute (source IP match)" "HTTPRouteMatch with client IP — limited support");
  ("denylist-source-range", Entry StatusPartial "SecurityPolicy (IPFilter)" "Envoy Gateway SecurityPolicy IP filter");
  ("affinity", Entry StatusPartial "BackendLBPolicy (SessionPersistence)" "Gateway API v1.1 SessionPersistence");
  ("session-cookie-name", Entry StatusPartial "BackendLBPolicy" "Cookie name in SessionPersistence");
  ("proxy-read-timeout", Entry StatusPartial "HTTPRoute (timeouts)" "HTTPRoute spec.rules[].timeouts.backendRequest");
  ("proxy-connect-timeout", Entry StatusPartial "HTTPRoute (timeouts)" "HTTPRoute spec.rules[].timeouts.request");
  ("canary-by-header", Entry StatusSupported "HTTPRoute (header match)" "Match header in HTTPRouteMatch");
  ("canary-by-header-value", Entry StatusSupported "HTTPRoute (header match)" "Exact header value match");
  ("use-regex", Entry StatusSupported "HTTPRoute (PathMatch RegularExpression)" "Native regex path matching");
  ("permanent-redirect", Entry StatusSupported "HTTPRoute (RequestRedirect)" "301 redirect filter");
  ("temporal-redirect", Entry StatusSupported "HTTPRoute (RequestRedirect)" "302 redirect filter");
  ("backend-protocol", Entry StatusPartial "Gateway TLS config" "TLS backend via Gateway listener config");
  ("websocket-services", Entry StatusSupported "Native" "Gateway API supports WebSocket natively");
  ("grpc-backend", Entry StatusSupported "GRPCRoute" "Dedicated GRPCRoute resource");
  ("proxy-body-size", Entry StatusPartial "BackendTrafficPolicy (requestBuffer)" "Envoy Gateway BackendTrafficPolicy with requestBuffer.limit");
  ("proxy-request-buffering", Entry StatusSupported "Native" "Envoy Gateway streams requests by default (off is the default)");
  ("configuration-snippet", Entry StatusUnsupported "" "NGINX-specific; no equivalent");
  ("server-snippet", Entry StatusUnsupported "" "NGINX-specific; no equivalent");
  ("auth-type", Entry StatusUnsupported "" "No basic auth in core Gateway API");
  ("auth-secret", Entry StatusUnsupported "" "No basic auth in core Gateway API");
  ("ssl-passthrough", Entry StatusPartial "TLSRoute" "TLS passthrough via TLSRoute");
  ("load-balance", Entry StatusUnsupported "" "Not configurable via Gateway API");
  ("upstream-hash-by", Entry StatusUnsupported "" "Not in core Gateway API");
  ("affinity-mode", Entry StatusPartial "BackendLBPolicy (SessionPersistence)" "Cookie persistence in BackendLBPolicy; balanced re-balancing unavailable in spec");
  ("canary-weight-total", Entry StatusSupported "HTTPRoute (weighted backendRefs)" "Gateway API backendRefs weights are relative; total is implicit");
  ("proxy-http-version", Entry StatusSupported "Native" "Envoy Gateway handles HTTP/2 and HTTP/1.1 natively");
  ("session-cookie-expires", Entry StatusPartial "BackendLBPolicy (absoluteTimeout)" "BackendLBPolicy cookieConfig.lifetimeType: Permanent + absoluteTimeout");
  ("session-cookie-max-age", Entry StatusPartial "BackendLBPolicy (absoluteTimeout)" "BackendLBPolicy cookieConfig.absoluteTimeout field");
  ("session-cookie-conditional-samesite-none", Entry StatusUnsupported "" "No Gateway API or Envoy Gateway equivalent");
  ("session-cookie-change-on-failure", Entry StatusUnsupported "" "No Gateway API equivalent");
  ("service-upstream", Entry StatusSupported "Native" "Gateway API routes to pod IPs natively (no kube-proxy overhead)");
  ("from-to-www-redirect", Entry StatusSupported "HTTPRoute (RequestRedirect)" "HTTPRoute RequestRedirect filter with hostname replacement");
  ("upstream-vhost", Entry StatusSupported "HTTPRoute (RequestHeaderModifier)" "RequestHeaderModifier filter sets Host header");
  ("secure-verify-ca-secret", Entry StatusPartial "BackendTLSPolicy" "BackendTLSPolicy with caCertificateRefs for backend TLS verification");
  ("session-cookie-samesite", Entry StatusUnsupported "" "SameSite is not configurable in BackendLBPolicy; no Gateway API equivalent");
  ("session-cookie-path", Entry StatusUnsupported "" "Cookie path scoping is not in BackendLBPolicy spec");
  ("session-cookie-secure", Entry StatusUnsupported "" "Secure flag is not configurable in BackendLBPolicy spec");
  ("proxy-send-timeout", Entry StatusUnsupported "" "No Gateway API equivalent; only backendRequest timeout (from proxy-read-timeout) is supported");
  ("proxy-buffering", Entry StatusUnsupported "" "No Gateway API or Envoy Gateway equivalent");
  ("cors-expose-headers", Entry StatusPartial "HTTPRoute (ResponseHeaderModifier)" "Set Access-Control-Expose-Headers via ResponseHeaderModifier");
  ("cors-max-age", Entry StatusPartial "HTTPRoute (ResponseHeaderModifier)" "Set Access-Control-Max-Age via ResponseHeaderModifier");
  ("limit-burst-multiplier", Entry StatusPartial "BackendTrafficPolicy (RateLimit)" "Burst is configurable in BackendTrafficPolicy but uses tokens, not a multiplier");
  ("limit-whitelist", Entry StatusUnsupported "" "Per-IP rate limit exemption list is not in BackendTrafficPolicy spec");
  ("canary-by-cookie", Entry StatusUnsupported "" "Cookie-based canary routing requires ExtensionRef; not in core Gateway API");
  ("app-root", Entry StatusPartial "HTTPRoute (URLRewrite)" "URLRewrite on root path can redirect / to the app root; limited to exact path")
].

Definition gatewayAPIMappings : gmap string MappingEntry := list_to_map gatewayAPITable.

Definition MapAnnotation (key value target : string) : AnnotationMapping :=
  let unknownTarget :=
    {| OriginalKey := key; OriginalValue := value; Status := StatusUnsupported;
       TargetResource := EmptyString; GeneratedYAML := EmptyString;
       Note := "Unknown target" |} in
  let lookupIn (mappings : gmap string MappingEntry) :=
    match mappings !! key with
    | Some m =>
        {| OriginalKey := key; OriginalValue := value; Status := EntryStatus m;
           TargetResource := EntryTargetResource m; GeneratedYAML := EmptyString;
           Note := EntryNote m |}
    | None =>
        {| OriginalKey := key; OriginalValue := value; Status := StatusUnsupported;
           TargetResource := EmptyString; GeneratedYAML := EmptyString;
           Note := "Unknown annotation — manual review required" |}
    end in
  if String.eqb target "traefik" then lookupIn traefikMappings
  else if String.eqb target "gateway-api" then lookupIn gatewayAPIMappings
  else unknownTarget.

(** The mapping of one visited entry of the annotation map. *)
Definition mappingOf (target : string) (kv : string * string) : AnnotationMapping :=
  MapAnnotation kv.1 kv.2 target.

Record IngressReport := {
  ReportNamespace : string;
  ReportName : string;
  Mappings : list AnnotationMapping;
  OverallStatus : string
}.

(** The values [OverallStatus] is documented to take. *)
Definition overallStatuses : list string := ["ready"; "workaround"; "breaking"].

Record Summary := {
  Total : Z;
  FullyCompatible : Z;
  NeedsWorkaround : Z;
  HasUnsupported : Z
}.

Record AnalysisReport := {
  Target : string;
  IngressReports : list IngressReport;
  ReportSummary : Summary
}.

(** The state of the loop of [analyzeIngress]: the mappings appended so
    far and the two flags. *)
Record ingressLoop := {
  loopMappings : list AnnotationMapping;
  hasUnsupported : bool;
  hasPartial : bool
}.

(** One turn of [for key, value := range ing.NginxAnnotations]. *)
Definition analyzeIngressStep (target : string) (st : ingressLoop)
    (kv : string * string) : ingressLoop :=
  let mapping := MapAnnotation kv.1 kv.2 target in
  {| loopMappings := loopMappings st ++ [mapping];
     hasUnsupported :=
       if String.eqb (Status mapping) StatusUnsupported then true else hasUnsupported st;
     hasPartial :=
       if String.eqb (Status mapping) StatusUnsupported then hasPartial st
       else if String.eqb (Status mapping) StatusPartial then true else hasPartial st |}.

(** [analyzeIngress] when the [range] visits the annotations as [kvs]. *)
Definition analyzeIngressOver (target : string) (ing : IngressInfo)
    (kvs : list (string * string)) : IngressReport :=
  let st := foldl (analyzeIngressStep target)
              {| loopMappings := []; hasUnsupported := false; hasPartial := false |} kvs in
  {| ReportNamespace := Namespace ing;
     ReportName := Name ing;
     Mappings := loopMappings st;
     OverallStatus :=
       if hasUnsupported st then "breaking"
       else if hasPartial st then "workaround"
       else "ready" |}.

(** The reports [analyzeIngress] can return: one for each order in which
    the runtime may visit the annotation map. *)
Inductive analyzeIngress (target : string) (ing : IngressInfo) : IngressReport → Prop :=
| analyzeIngress_range kvs :
    MapRange (NginxAnnotations ing) kvs →
    analyzeIngress target ing (analyzeIngressOver target ing kvs).

(** The counters of [Analyze] are Go [int]s that count elements of one
    slice; a slice has fewer than 2^63 elements, so they never wrap. *)
Definition countStatus (s : Summary) (overall : string) : Summary :=
  let s := {| Total := Total s + 1; FullyCompatible := FullyCompatible s;
              NeedsWorkaround := NeedsWorkaround s; HasUnsupported := HasUnsupported s |} in
  if String.eqb overall "ready" then
    {| Total := Total s; FullyCompatible := FullyCompatible s + 1;
       NeedsWorkaround := NeedsWorkaround s; HasUnsupported := HasUnsupported s |}
  else if String.eqb overall "workaround" then
    {| Total := Total s; FullyCompatible := FullyCompatible s;
       NeedsWorkaround := NeedsWorkaround s + 1; HasUnsupported := HasUnsupported s |}
  else if String.eqb overall "breaking" then
    {| Total := Total s; FullyCompatible := FullyCompatible s;
       NeedsWorkaround := NeedsWorkaround s; HasUnsupported := HasUnsupported s + 1 |}
  else s.

(** One turn of [for _, ing := range scan.Ingresses], given the report
    [analyzeIngress] returned for the ingress. *)
Definition AnalyzeStep (report : AnalysisReport) (ir : IngressReport) : AnalysisReport :=
  {| Target := Target report;
     IngressReports := IngressReports report ++ [ir];
     ReportSummary := countStatus (ReportSummary report) (OverallStatus ir) |}.

Definition emptyReport (target : string) : AnalysisReport :=
  {| Target := target; IngressReports := [];
     ReportSummary := {| Total := 0; FullyCompatible := 0;
                         NeedsWorkaround := 0; HasUnsupported := 0 |} |}.

(** [Analyze] when the annotation maps of the ingresses are visited in
    the orders [orders] (one sequence per ingress). *)
Definition AnalyzeOver (target : string) (scan : ScanResult)
    (orders : list (list (string * string))) : AnalysisReport :=
  foldl AnalyzeStep (emptyReport target)
    (zip_with (analyzeIngressOver target) (Ingresses scan) orders).

(** The reports [Analyze] can return. *)
Inductive Analyze (target : string) (scan : ScanResult) : AnalysisReport → Prop :=
| Analyze_range orders :
    Forall2 (λ ing kvs, MapRange (NginxAnnotations ing) kvs) (Ingresses scan) orders →
    Analyze target scan (AnalyzeOver target scan orders).

End analyzer.

Import analyzer.

(** ** pkg/generator/types.go *)

Module generator.

Record GeneratedFile := {
  RelPath : string;
  Content : string;
  Description : string;
  Category : string
}.

End generator.

Import generator.

(** ** pkg/migrator/gatewayapi: httproute.go and the HTTPRoute step of
    migrator.go *)

Module gatewayapi.
Section WithQuote.

(** The [%q] verb ([strconv.Quote]) belongs to Go's library; the
    synthesizer is read for any quoting function. *)
Variable Quote : string → string.

Definition defaultGatewayName : string := "ing-switch-gateway".
Definition defaultGatewayNamespace : string := "default".

Definition getAnnotation (annotations : gmap string string)
    (key defaultVal : string) : string :=
  match annotations !! key with
  | Some v => if String.eqb v EmptyString then defaultVal else v
  | None => defaultVal
  end.

Definition buildTimeouts (annotations : gmap string string) : string :=
  let readTimeout := index annotations "proxy-read-timeout" in
  if String.eqb readTimeout EmptyString then EmptyString
  else cat ["    timeouts:"; nl; "      backendRequest: "; readTimeout; "s"; nl].

Definition buildBackendRefs (path : PathInfo) (isCanary : bool)
    (canaryWeight : string) : string :=
  let port := if ServicePort path =? 0 then 80 else ServicePort path in
  if isCanary && negb (String.eqb canaryWeight EmptyString) then
    cat ["    backendRefs:"; nl;
         "    - name: "; ServiceName path; nl;
         "      port: "; fmt_d port; nl;
         "      weight: "; canaryWeight; nl;
         "    # NOTE: Add your stable backend below with weight = (100 - "; canaryWeight; "):"; nl;
         "    # - name: stable-service"; nl;
         "    #   port: "; fmt_d port; nl;
         "    #   weight:"; nl]
  else
    cat ["    backendRefs:"; nl;
         "    - name: "; ServiceName path; nl;
         "      port: "; fmt_d port; nl].

Definition buildCORSFilter (annotations : gmap string string) : string :=
  let origin := getAnnotation annotations "cors-allow-origin" "*" in
  let methods := getAnnotation annotations "cors-allow-methods"
                   "GET, PUT, POST, DELETE, PATCH, OPTIONS" in
  let headers := getAnnotation annotations "cors-allow-headers"
                   "Content-Type, Authorization" in
  let credentials := getAnnotation annotations "cors-allow-credentials" "true" in
  cat ["    - type: ResponseHeaderModifier"; nl;
       "      responseHeaderModifier:"; nl;
       "        add:"; nl;
       "          - name: "; dq; "Access-Control-Allow-Origin"; dq; nl;
       "            value: "; dq; origin; dq; nl;
       "          - name: "; dq; "Access-Control-Allow-Methods"; dq; nl;
       "            value: "; dq; methods; dq; nl;
       "          - name: "; dq; "Access-Control-Allow-Headers"; dq; nl;
       "            value: "; dq; headers; dq; nl;
       "          - name: "; dq; "Access-Control-Allow-Credentials"; dq; nl;
       "            value: "; dq; credentials; dq; nl].

(** The [URLRewrite] filter of [buildBackendFilters]; [note] is the
    comment line added under [use-regex]. *)
Definition urlRewriteFilter (target : string) (note : bool) : string :=
  cat ["    - type: URLRewrite"; nl;
       "      urlRewrite:"; nl;
       "        path:"; nl;
       "          type: ReplaceFullPath"; nl;
       "          replaceFullPath: "; dq; target; dq; nl;
       if note
       then cat ["# NOTE: For regex captures like $1, manual conversion to ReplacePrefixMatch may be needed"; nl]
       else EmptyString].

Definition customHeadersFilter : string :=
  cat ["    - type: ResponseHeaderModifier"; nl;
       "      responseHeaderModifier:"; nl;
       "        add:"; nl;
       "          - name: "; dq; "X-Custom-Header"; dq; nl;
       "            value: "; dq; "value"; dq; nl;
       "# NOTE: Populate headers from your ConfigMap reference in nginx annotation"; nl].

Definition buildBackendFilters (annotations : gmap string string) : list string :=
  let filters : list string := [] in
  let filters : list string :=
    match annotations !! "rewrite-target" with
    | Some target =>
        if negb (String.eqb target EmptyString)
        then (filters ++ [urlRewriteFilter target (has annotations "use-regex")])%list
        else filters
    | None => filters
    end in
  let filters : list string :=
    if String.eqb (index annotations "enable-cors") "true"
    then (filters ++ [buildCORSFilter annotations])%list else filters in
  let filters : list string :=
    if has annotations "custom-headers"
    then (filters ++ [customHeadersFilter])%list else filters in
  filters.

Definition buildHeaderMatches (annotations : gmap string string) : string :=
  let header := index annotations "canary-by-header" in
  let headerValue := index annotations "canary-by-header-value" in
  if String.eqb header EmptyString then EmptyString
  else if negb (String.eqb headerValue EmptyString) then
    cat [nl; "      headers:"; nl;
         "      - name: "; dq; header; dq; nl;
         "        value: "; dq; headerValue; dq]
  else
    cat [nl; "      headers:"; nl;
         "      - name: "; dq; header; dq; nl;
         "        type: Present"].

Definition pathHasRegexChars (path : string) : bool :=
  existsb (Contains path) ["("; ")"; "|"; "["; "]"; "{"; "}"].

Definition buildPathMatch (path : PathInfo) (annotations : gmap string string) : string :=
  let pathValue := if String.eqb (Path path) EmptyString then "/" else Path path in
  let useRegex := has annotations "use-regex" in
  if useRegex || pathHasRegexChars pathValue then
    cat ["path:"; nl;
         "        type: RegularExpression"; nl;
         "        value: "; dq; pathValue; dq]
  else
    let pathType := if String.eqb (PathType path) "Exact" then "Exact" else "PathPrefix" in
    cat ["path:"; nl;
         "        type: "; pathType; nl;
         "        value: "; dq; pathValue; dq].

(** The grouping loop shared by the two rule builders: [hostOrder] keeps
    the hosts in order of first appearance, [hostPaths] the paths of each. *)
Definition groupByHost (paths : list PathInfo)
    : list string * gmap string (list PathInfo) :=
  foldl (λ acc p,
           let hostOrder := acc.1 in
           let hostPaths := acc.2 in
           ((if decide (is_Some (hostPaths !! Host p)) then hostOrder
             else (hostOrder ++ [Host p])%list),
            <[Host p := (default [] (hostPaths !! Host p) ++ [p])%list]> hostPaths))
        ([], ∅) paths.

(** The paths in the order the nested loops of the rule builders visit
    them. *)
Definition pathsInHostOrder (paths : list PathInfo) : list PathInfo :=
  let g := groupByHost paths in
  flat_map (λ host, default [] (g.2 !! host)) g.1.

(** [match] as both rule builders compute it. *)
Definition matchSection (p : PathInfo) (annotations : gmap string string) : string :=
  let pathMatch := buildPathMatch p annotations in
  let headerMatches := buildHeaderMatches annotations in
  let match_ := cat ["  - matches:"; nl; "    - "; pathMatch] in
  let match_ := if negb (String.eqb headerMatches EmptyString)
                then match_ +:+ headerMatches else match_ in
  match_ +:+ nl.

(** The filter block every redirect rule ends with. *)
Definition redirectFilters (statusCode : Z) : string :=
  cat ["    filters:"; nl;
       "    - type: RequestRedirect"; nl;
       "      requestRedirect:"; nl;
       "        scheme: https"; nl;
       "        statusCode: "; fmt_d statusCode; nl].

(** The slice [rules] of [buildRedirectOnlyRules] before it is joined. *)
Definition redirectOnlyRules (ing : IngressInfo) (statusCode : Z) : list string :=
  let annotations := NginxAnnotations ing in
  map (λ p, matchSection p annotations +:+ redirectFilters statusCode)
      (pathsInHostOrder (Paths ing)).

Definition buildRedirectOnlyRules (ing : IngressInfo) (statusCode : Z) : string :=
  Join (redirectOnlyRules ing statusCode) EmptyString.

(** The slice [rules] of [buildBackendOnlyRules] before it is joined. *)
Definition backendOnlyRules (ing : IngressInfo)
    (annotations : gmap string string) : list string :=
  let isCanary := String.eqb (index annotations "canary") "true" in
  let canaryWeight := index annotations "canary-weight" in
  map (λ p,
         let filters := buildBackendFilters annotations in
         let filterSection :=
           if (0 <? List.length filters)%nat
           then "    filters:" +:+ nl +:+ Join filters EmptyString
           else EmptyString in
         let backendSection := buildBackendRefs p isCanary canaryWeight in
         let timeoutSection := buildTimeouts annotations in
         matchSection p annotations +:+ filterSection +:+ backendSection +:+ timeoutSection)
      (pathsInHostOrder (Paths ing)).

Definition buildBackendOnlyRules (ing : IngressInfo)
    (annotations : gmap string string) : string :=
  Join (backendOnlyRules ing annotations) EmptyString.

Definition buildHostnameSection (hosts : list string) : string :=
  match hosts with
  | [] => EmptyString
  | _ =>
      let lines := map (λ h, "  - " +:+ Quote h) hosts in
      cat ["  hostnames:"; nl; Join lines nl; nl]
  end.

Definition generateSingleHTTPRoute (ing : IngressInfo)
    (gatewayName gatewayNamespace sectionName : string) : string :=
  let annotations := NginxAnnotations ing in
  let parentRef := cat ["  - name: "; gatewayName; nl; "    namespace: "; gatewayNamespace] in
  let parentRef :=
    if negb (String.eqb sectionName EmptyString)
    then parentRef +:+ cat [nl; "    sectionName: "; sectionName]
    else parentRef in
  let hostnameSection := buildHostnameSection (Hosts ing) in
  let rules := buildBackendOnlyRules ing annotations in
  cat ["apiVersion: gateway.networking.k8s.io/v1"; nl;
       "kind: HTTPRoute"; nl;
       "metadata:"; nl;
       "  name: "; Name ing; nl;
       "  namespace: "; Namespace ing; nl;
       "spec:"; nl;
       "  parentRefs:"; nl;
       parentRef; nl;
       hostnameSection; "  rules:"; nl;
       rules].

Definition generateSplitHTTPRoutes (ing : IngressInfo)
    (gatewayName gatewayNamespace : string)
    (hostnameToSection : gmap string string) : string :=
  let annotations := NginxAnnotations ing in
  let httpsSectionName :=
    match Hosts ing with
    | h :: _ => index hostnameToSection h
    | [] => EmptyString
    end in
  let statusCode :=
    if String.eqb (index annotations "ssl-redirect") "true"
       && negb (String.eqb (index annotations "force-ssl-redirect") "true")
    then 302 else 301 in
  let hostnameSection := buildHostnameSection (Hosts ing) in
  let redirectParentRef :=
    cat ["  - name: "; gatewayName; nl;
         "    namespace: "; gatewayNamespace; nl;
         "    sectionName: http"] in
  let redirectRules := buildRedirectOnlyRules ing statusCode in
  let redirectRoute :=
    cat ["# HTTP→HTTPS redirect route (attached to HTTP listener only)"; nl;
         "apiVersion: gateway.networking.k8s.io/v1"; nl;
         "kind: HTTPRoute"; nl;
         "metadata:"; nl;
         "  name: "; Name ing; "-redirect"; nl;
         "  namespace: "; Namespace ing; nl;
         "spec:"; nl;
         "  parentRefs:"; nl;
         redirectParentRef; nl;
         hostnameSection; "  rules:"; nl;
         redirectRules] in
  let backendRoute :=
    generateSingleHTTPRoute ing gatewayName gatewayNamespace httpsSectionName in
  redirectRoute +:+ "---" +:+ nl +:+ backendRoute.

Definition generateHTTPRoute (ing : IngressInfo)
    (gatewayName gatewayNamespace : string)
    (hostnameToSection : gmap string string) : string :=
  let annotations := NginxAnnotations ing in
  let hasSSLRedirect :=
    String.eqb (index annotations "force-ssl-redirect") "true"
    || String.eqb (index annotations "ssl-redirect") "true" in
  if hasSSLRedirect
  then generateSplitHTTPRoutes ing gatewayName gatewayNamespace hostnameToSection
  else generateSingleHTTPRoute ing gatewayName gatewayNamespace EmptyString.

(** [buildHostnameToSection]: the state is the map [m] and the listener
    index [idx].  One turn of [for range ing.TLSSecrets]: *)
Definition recordSecret (ing : IngressInfo) (st : gmap string string * Z)
    : gmap string string * Z :=
  ((match Hosts ing with
    | h :: _ => <[h := "https-" +:+ fmt_d st.2]> st.1
    | [] => st.1
    end), st.2 + 1).

(** One turn of [for _, ing := range scan.Ingresses]. *)
Definition recordIngress (st : gmap string string * Z) (ing : IngressInfo)
    : gmap string string * Z :=
  if TLSEnabled ing && (0 <? List.length (TLSSecrets ing))%nat
  then foldl (λ st' _, recordSecret ing st') st (TLSSecrets ing)
  else st.

Definition buildHostnameToSection (scan : ScanResult) : gmap string string :=
  (foldl recordIngress (∅, 0) (Ingresses scan)).1.

(** Step 4 of [Migrate]: one file of HTTPRoutes for each ingress. *)
Definition httpRouteFiles (scan : ScanResult) : list GeneratedFile :=
  let hostnameToSection := buildHostnameToSection scan in
  map (λ ing,
         {| RelPath := cat ["04-httproutes/"; Namespace ing; "-"; Name ing; ".yaml"];
            Content := generateHTTPRoute ing defaultGatewayName defaultGatewayNamespace
                         hostnameToSection;
            Description := cat ["HTTPRoute for "; Namespace ing; "/"; Name ing];
            Category := "httproute" |})
      (Ingresses scan).

(** *** gateway.go *)

Definition generateGatewayClass : string :=
  cat ["apiVersion: gateway.networking.k8s.io/v1"; nl;
       "kind: GatewayClass"; nl;
       "metadata:"; nl;
       "  name: eg"; nl;
       "spec:"; nl;
       "  controllerName: gateway.envoyproxy.io/gatewayclass-controller"; nl].

(** An element of [tlsEntries] in [generateGateway]. *)
Record tlsEntry := {
  hosts : list string;
  secretName : string;
  namespace : string
}.

(** The slice [tlsEntries]: one entry for each TLS secret of each ingress
    with TLS enabled. *)
Definition tlsEntriesOf (scan : ScanResult) : list tlsEntry :=
  flat_map (λ ing,
              if TLSEnabled ing && (0 <? List.length (TLSSecrets ing))%nat
              then map (λ secret, {| hosts := Hosts ing; secretName := secret;
                                     namespace := Namespace ing |})
                       (TLSSecrets ing)
              else [])
           (Ingresses scan).

Definition buildHostnameList (hosts : list string) : string :=
  match hosts with
  | [] => EmptyString
  | h :: _ => cat ["    hostname: "; dq; h; dq; nl]
  end.

(** The listener [generateGateway] writes for the entry at index [i]. *)
Definition tlsListener (i : nat) (tls : tlsEntry) : string :=
  cat ["  - name: https-"; fmt_d ((Z.of_nat i)); nl;
       "    protocol: HTTPS"; nl;
       "    port: 443"; nl;
       buildHostnameList (hosts tls); "    tls:"; nl;
       "      mode: Terminate"; nl;
       "      certificateRefs:"; nl;
       "      - name: "; secretName tls; nl;
       "        namespace: "; namespace tls; nl;
       "    allowedRoutes:"; nl;
       "      namespaces:"; nl;
       "        from: All"; nl].

Definition generateGateway (scan : ScanResult) : string :=
  let tlsListeners := cat (imap tlsListener (tlsEntriesOf scan)) in
  let tlsListeners :=
    if String.eqb tlsListeners EmptyString then
      cat ["  - name: https"; nl;
           "    protocol: HTTPS"; nl;
           "    port: 443"; nl;
           "    # Add TLS configuration:"; nl;
           "    # tls:"; nl;
           "    #   mode: Terminate"; nl;
           "    #   certificateRefs:"; nl;
           "    #   - name: your-tls-secret"; nl;
           "    #     namespace: your-namespace"; nl]
    else tlsListeners in
  cat ["apiVersion: gateway.networking.k8s.io/v1"; nl;
       "kind: Gateway"; nl;
       "metadata:"; nl;
       "  name: "; defaultGatewayName; nl;
       "  namespace: "; defaultGatewayNamespace; nl;
       "spec:"; nl;
       "  gatewayClassName: eg"; nl;
       "  listeners:"; nl;
       "  - name: http"; nl;
       "    protocol: HTTP"; nl;
       "    port: 80"; nl;
       "    allowedRoutes:"; nl;
       "      namespaces:"; nl;
       "        from: All"; nl;
       tlsListeners].


(** *** policies *)

Record policyFile := {
  name : string;
  yaml : string
}.

Definition generateRateLimitPolicy (ing : IngressInfo) : policyFile :=
  let rps := index (NginxAnnotations ing) "limit-rps" in
  let rps := if String.eqb rps EmptyString then "100" else rps in
  let name := cat [Namespace ing; "-"; Name ing; "-ratelimit"] in
  {| name := name;
     yaml :=
       cat ["apiVersion: gateway.envoyproxy.io/v1alpha1"; nl;
            "kind: BackendTrafficPolicy"; nl;
            "metadata:"; nl;
            "  name: "; name; nl;
            "  namespace: "; Namespace ing; nl;
            "spec:"; nl;
            "  targetRef:"; nl;
            "    group: gateway.networking.k8s.io"; nl;
            "    kind: HTTPRoute"; nl;
            "    name: "; Name ing; nl;
            "  rateLimit:"; nl;
            "    type: Global"; nl;
            "    global:"; nl;
            "      rules:"; nl;
            "      - clientSelectors:"; nl;
            "        - sourceCIDR:"; nl;
            "            type: Distinct"; nl;
            "            value: "; dq; "0.0.0.0/0"; dq; nl;
            "        limit:"; nl;
            "          requests: "; rps; nl;
            "          unit: Second"; nl] |}.

Definition generateSecurityPolicy (ing : IngressInfo) : policyFile :=
  let authURL := index (NginxAnnotations ing) "auth-url" in
  let name := cat [Namespace ing; "-"; Name ing; "-extauth"] in
  let responseHeaders :=
    match NginxAnnotations ing !! "auth-response-headers" with
    | Some rh =>
        if negb (String.eqb rh EmptyString) then
          let headers := Split rh "," in
          let lines := map (λ h, cat ["      - "; dq; TrimSpace h; dq]) headers in
          nl +:+ Join lines nl
        else "[]"
    | None => "[]"
    end in
  {| name := name;
     yaml :=
       cat ["apiVersion: gateway.envoyproxy.io/v1alpha1"; nl;
            "kind: SecurityPolicy"; nl;
            "metadata:"; nl;
            "  name: "; name; nl;
            "  namespace: "; Namespace ing; nl;
            "spec:"; nl;
            "  targetRef:"; nl;
            "    group: gateway.networking.k8s.io"; nl;
            "    kind: HTTPRoute"; nl;
            "    name: "; Name ing; nl;
            "  extAuth:"; nl;
            "    http:"; nl;
            "      backendRef:"; nl;
            "        name: auth-service   # Replace with your auth service name"; nl;
            "        port: 9001           # Replace with your auth service port"; nl;
            "      # Original auth-url: "; authURL; nl;
            "      # The auth service URL above should match your auth-url service"; nl;
            "      headersToBackend:"; responseHeaders; nl] |}.

(** [map[string]string{"Allow": "Deny", "Deny": "Allow"}[action]]. *)
Definition oppositeAction (action : string) : string :=
  if String.eqb action "Allow" then "Deny"
  else if String.eqb action "Deny" then "Allow"
  else EmptyString.

(** The slice [cidrLines] of [generateIPFilterPolicy]. *)
Definition cidrLinesOf (cidr : string) : list string :=
  flat_map (λ c, let c := TrimSpace c in
                 if negb (String.eqb c EmptyString)
                 then [cat ["      - cidrRange: "; dq; c; dq]]
                 else [])
           (Split cidr ",").

Definition generateIPFilterPolicy (ing : IngressInfo) (cidr action : string) : policyFile :=
  let name := cat [Namespace ing; "-"; Name ing; "-ipfilter"] in
  let cidrLines := cidrLinesOf cidr in
  {| name := name;
     yaml :=
       cat ["apiVersion: gateway.envoyproxy.io/v1alpha1"; nl;
            "kind: SecurityPolicy"; nl;
            "metadata:"; nl;
            "  name: "; name; nl;
            "  namespace: "; Namespace ing; nl;
            "spec:"; nl;
            "  targetRef:"; nl;
            "    group: gateway.networking.k8s.io"; nl;
            "    kind: HTTPRoute"; nl;
            "    name: "; Name ing; nl;
            "  authorization:"; nl;
            "    defaultAction: "; oppositeAction action; nl;
            "    rules:"; nl;
            "    - action: "; action; nl;
            "      principal:"; nl;
            "        clientCIDRs:"; nl;
            Join cidrLines nl; nl] |}.

(** The policies [generatePolicies] appends for one ingress. *)
Definition policiesOf (ing : IngressInfo) : list policyFile :=
  let annotations := NginxAnnotations ing in
  (if has annotations "limit-rps" then [generateRateLimitPolicy ing] else [])
  ++ (match annotations !! "auth-url" with
      | Some authURL =>
          if negb (String.eqb authURL EmptyString) then [generateSecurityPolicy ing] else []
      | None => []
      end)
  ++ (match annotations !! "denylist-source-range" with
      | Some denyList =>
          if negb (String.eqb denyList EmptyString)
          then [generateIPFilterPolicy ing denyList "Deny"] else []
      | None => []
      end)
  ++ (match annotations !! "whitelist-source-range" with
      | Some allowList =>
          if negb (String.eqb allowList EmptyString)
          then [generateIPFilterPolicy ing allowList "Allow"] else []
      | None => []
      end).

Definition generatePolicies (scan : ScanResult) : list policyFile :=
  flat_map policiesOf (Ingresses scan).


(** *** migrator.go *)

Definition generateCRDInstall : GeneratedFile :=
  {| RelPath := "01-install-gateway-api-crds/install.sh";
     Content :=
       cat ["#!/bin/bash"; nl;
            "# Install Kubernetes Gateway API CRDs (Standard channel)"; nl;
            "set -e"; nl;
            nl;
            "GATEWAY_API_VERSION="; dq; "v1.2.0"; dq; nl;
            nl;
            "echo "; dq; "Installing Gateway API CRDs (version ${GATEWAY_API_VERSION})..."; dq; nl;
            "kubectl apply -f "; dq;
              "https://github.com/kubernetes-sigs/gateway-api/releases/download/${GATEWAY_API_VERSION}/standard-install.yaml"; dq; nl;
            nl;
            "echo "; dq; dq; nl;
            "echo "; dq; "Verifying CRDs..."; dq; nl;
            "kubectl get crd gateways.gateway.networking.k8s.io"; nl;
            "kubectl get crd httproutes.gateway.networking.k8s.io"; nl;
            "kubectl get crd gatewayclasses.gateway.networking.k8s.io"; nl;
            nl;
            "echo "; dq; dq; nl;
            "echo "; dq; "Gateway API CRDs installed successfully!"; dq; nl];
     Description := "Install Gateway API CRDs";
     Category := "install" |}.

Definition generateEnvoyGatewayInstall : GeneratedFile :=
  {| RelPath := "02-install-envoy-gateway/helm-install.sh";
     Content :=
       cat ["#!/bin/bash"; nl;
            "# Install Envoy Gateway"; nl;
            "set -e"; nl;
            nl;
            "echo "; dq; "Adding Envoy Gateway Helm repository..."; dq; nl;
            "helm repo add eg https://charts.gateway.envoyproxy.io"; nl;
            "helm repo update"; nl;
            nl;
            "echo "; dq; "Installing Envoy Gateway..."; dq; nl;
            "helm upgrade --install eg eg/gateway-helm \"; nl;
            "  --namespace envoy-gateway-system \"; nl;
            "  --create-namespace \"; nl;
            "  --version v1.2.0 \"; nl;
            "  --values values.yaml"; nl;
            nl;
            "echo "; dq; "Waiting for Envoy Gateway to be ready..."; dq; nl;
            "kubectl rollout status deployment/envoy-gateway -n envoy-gateway-system --timeout=120s"; nl;
            nl;
            "echo "; dq; dq; nl;
            "echo "; dq; "Envoy Gateway installed successfully!"; dq; nl;
            "echo "; dq; dq; nl;
            "echo "; dq; "Next: Apply the GatewayClass and Gateway resources"; dq; nl;
            "echo "; dq; "  kubectl apply -f ../03-gateway/"; dq; nl];
     Description := "Helm install script for Envoy Gateway";
     Category := "install" |}.

Definition generateEnvoyGatewayValues : GeneratedFile :=
  {| RelPath := "02-install-envoy-gateway/values.yaml";
     Content :=
       cat ["# Envoy Gateway Helm values"; nl;
            nl;
            "# Configuration"; nl;
            "config:"; nl;
            "  envoyGateway:"; nl;
            "    gateway:"; nl;
            "      controllerName: gateway.envoyproxy.io/gatewayclass-controller"; nl;
            "    provider:"; nl;
            "      type: Kubernetes"; nl;
            "    logging:"; nl;
            "      level:"; nl;
            "        default: info"; nl;
            nl;
            "# High availability"; nl;
            "deployment:"; nl;
            "  replicas: 2"; nl];
     Description := "Envoy Gateway Helm values";
     Category := "install" |}.

(** The slice [testLines] of [generateGatewayVerifyScript]. *)
Definition gatewayTestLines (scan : ScanResult) : list string :=
  flat_map (λ ing,
              map (λ host,
                     cat ["echo "; dq; "Testing "; Namespace ing; "/"; Name ing; " → "; host; dq; nl;
                          "GATEWAY_IP=$(kubectl get gateway "; defaultGatewayName; " -n ";
                            defaultGatewayNamespace;
                            " -o jsonpath='{.status.addresses[0].value}' 2>/dev/null || echo "; dq; dq; ")"; nl;
                          "if [ -n "; dq; "$GATEWAY_IP"; dq; " ]; then"; nl;
                          "  curl -s --connect-to "; dq; host; ":80:${GATEWAY_IP}:80"; dq; " "; dq; "http://";
                            host; dq; " -o /dev/null -w "; dq; "HTTP %{http_code}\n"; dq; " || true"; nl;
                          "else"; nl;
                          "  echo "; dq; "  Gateway IP not yet assigned"; dq; nl;
                          "fi"; nl])
                  (Hosts ing))
           (Ingresses scan).

Definition generateGatewayVerifyScript (scan : ScanResult) : GeneratedFile :=
  {| RelPath := "06-verify.sh";
     Content :=
       cat ["#!/bin/bash"; nl;
            "# Verify Gateway API (Envoy Gateway) is handling your routes"; nl;
            "set -e"; nl;
            nl;
            "echo "; dq; "=== ing-switch Gateway API Verification ==="; dq; nl;
            "echo "; dq; dq; nl;
            nl;
            "# Check gateway status"; nl;
            "echo "; dq; "Gateway status:"; dq; nl;
            "kubectl get gateway "; defaultGatewayName; " -n "; defaultGatewayNamespace; nl;
            "echo "; dq; dq; nl;
            nl;
            "# Check HTTPRoutes"; nl;
            "echo "; dq; "HTTPRoute status:"; dq; nl;
            "kubectl get httproutes --all-namespaces"; nl;
            "echo "; dq; dq; nl;
            nl;
            "echo "; dq; "Testing routes..."; dq; nl;
            "echo "; dq; dq; nl;
            nl;
            Join (gatewayTestLines scan) nl; nl;
            nl;
            "echo "; dq; dq; nl;
            "echo "; dq; "If all tests pass, proceed to DNS migration:"; dq; nl;
            "echo "; dq; "  Update DNS to point to Gateway's LoadBalancer IP"; dq; nl;
            "echo "; dq; dq; nl;
            "echo "; dq; "Get Gateway LoadBalancer IP:"; dq; nl;
            "kubectl get gateway "; defaultGatewayName; " -n "; defaultGatewayNamespace;
              " -o jsonpath='{.status.addresses[0].value}'"; nl;
            "echo "; dq; dq; nl];
     Description := "Verification script for Gateway API routes";
     Category := "verify" |}.

Definition generateGatewayCleanup : GeneratedFile :=
  {| RelPath := "07-cleanup/remove-nginx.sh";
     Content :=
       cat ["#!/bin/bash"; nl;
            "# Remove Ingress NGINX after Gateway API migration is complete"; nl;
            "set -e"; nl;
            nl;
            "echo "; dq; "=== Removing Ingress NGINX Controller ==="; dq; nl;
            nl;
            "# Remove admission webhooks"; nl;
            "kubectl delete validatingwebhookconfiguration ingress-nginx-admission --ignore-not-found"; nl;
            "kubectl delete mutatingwebhookconfiguration ingress-nginx-admission --ignore-not-found"; nl;
            nl;
            "# Uninstall NGINX"; nl;
            "if helm list -n ingress-nginx | grep -q ingress-nginx; then"; nl;
            "  helm uninstall ingress-nginx -n ingress-nginx"; nl;
            "fi"; nl;
            nl;
            "# Remove namespace"; nl;
            "kubectl delete namespace ingress-nginx --ignore-not-found"; nl;
            nl;
            "echo "; dq; dq; nl;
            "echo "; dq; "NGINX removed. Your Gateway API routes are now the only ingress path.";
              dq; nl;
            "echo "; dq; dq; nl;
            "echo "; dq; "Verify HTTPRoutes are all healthy:"; dq; nl;
            "kubectl get httproutes --all-namespaces"; nl];
     Description := "Remove NGINX after Gateway API migration";
     Category := "cleanup" |}.

(** [Migrate]; the error it returns is always nil. *)
Definition Migrate (scan : ScanResult) : list GeneratedFile :=
  [generateCRDInstall;
   generateEnvoyGatewayInstall;
   generateEnvoyGatewayValues;
   {| RelPath := "03-gateway/gatewayclass.yaml";
      Content := generateGatewayClass;
      Description := "GatewayClass using Envoy Gateway controller";
      Category := "gateway" |};
   {| RelPath := "03-gateway/gateway.yaml";
      Content := generateGateway scan;
      Description := "Gateway with HTTP and HTTPS listeners";
      Category := "gateway" |}]
  ++ httpRouteFiles scan
  ++ map (λ p, {| RelPath := cat ["05-policies/"; name p; ".yaml"];
                  Content := yaml p;
                  Description := cat ["Envoy Gateway policy: "; name p];
                  Category := "policy" |})
         (generatePolicies scan)
  ++ [generateGatewayVerifyScript scan; generateGatewayCleanup].

End WithQuote.
End gatewayapi.

(** ** pkg/migrator/traefik/migrator.go: [generateUpdatedIngress] and what
    it calls *)

Module traefik.
Section WithQuote.

Variable Quote : string → string.

(** [copyAnnotations] when the [range] over [src] visits [srcOrder]. *)
Definition copyAnnotationsOver (srcOrder : list (string * string)) : gmap string string :=
  foldl (λ dst kv, <[kv.1 := kv.2]> dst) ∅ srcOrder.

Definition toRemove : list string := [
  "nginx.ingress.kubernetes.io/ssl-redirect";
  "nginx.ingress.kubernetes.io/force-ssl-redirect";
  "nginx.ingress.kubernetes.io/enable-cors";
  "nginx.ingress.kubernetes.io/cors-allow-origin";
  "nginx.ingress.kubernetes.io/cors-allow-methods";
  "nginx.ingress.kubernetes.io/cors-allow-headers";
  "nginx.ingress.kubernetes.io/cors-expose-headers";
  "nginx.ingress.kubernetes.io/cors-allow-credentials";
  "nginx.ingress.kubernetes.io/cors-max-age";
  "nginx.ingress.kubernetes.io/auth-url";
  "nginx.ingress.kubernetes.io/auth-response-headers";
  "nginx.ingress.kubernetes.io/auth-method";
  "nginx.ingress.kubernetes.io/limit-rps";
  "nginx.ingress.kubernetes.io/limit-rpm";
  "nginx.ingress.kubernetes.io/limit-connections";
  "nginx.ingress.kubernetes.io/whitelist-source-range";
  "nginx.ingress.kubernetes.io/denylist-source-range";
  "nginx.ingress.kubernetes.io/rewrite-target";
  "nginx.ingress.kubernetes.io/use-regex"
].

(** The map [annotations] of [generateUpdatedIngress] when its
    annotation lines are built: the copy, less the keys of [toRemove], with
    the middleware annotation added when there are middlewares. *)
Definition updatedAnnotations (copied : gmap string string)
    (middlewareNames : list string) : gmap string string :=
  let annotations := foldl (λ m k, delete k m) copied toRemove in
  if (0 <? List.length middlewareNames)%nat
  then <["traefik.ingress.kubernetes.io/router.middlewares" := Join middlewareNames ","]>
         annotations
  else annotations.

Definition hostListForTLS (ing : IngressInfo) : string :=
  Join (map (λ h, "    - " +:+ h) (Hosts ing)) nl.

(** The map [hostPaths] of [buildRulesSection]. *)
Definition hostPathsOf (ing : IngressInfo) : gmap string (list PathInfo) :=
  foldl (λ hostPaths p,
           <[Host p := (default [] (hostPaths !! Host p) ++ [p])%list]> hostPaths)
        ∅ (Paths ing).

(** [buildRulesSection] when the [range] over [hostPaths] visits
    [hostOrder]. *)
Definition buildRulesSectionOver (hostOrder : list (string * list PathInfo)) : string :=
  let rules :=
    map (λ hp,
           let host := hp.1 in
           let hostLine :=
             if negb (String.eqb host EmptyString)
             then cat ["  - host: "; host; nl]
             else cat ["  - {}"; nl] in
           let httpLines :=
             foldl (λ httpLines p,
                      let pathType := if String.eqb (PathType p) EmptyString
                                      then "Prefix" else PathType p in
                      let path := if String.eqb (Path p) EmptyString
                                  then "/" else Path p in
                      httpLines +:+
                      cat ["      - path: "; path; nl;
                           "        pathType: "; pathType; nl;
                           "        backend:"; nl;
                           "          service:"; nl;
                           "            name: "; ServiceName p; nl;
                           "            port:"; nl;
                           "              number: "; fmt_d (ServicePort p); nl])
                   (cat ["    http:"; nl; "      paths:"; nl]) hp.2 in
           hostLine +:+ httpLines)
        hostOrder in
  Join rules EmptyString.

(** [generateUpdatedIngress] when the [range] over [annotations] that
    builds the annotation lines visits [annOrder], and the [range] over
    [hostPaths] in [buildRulesSection] visits [hostOrder]; [annotations] is
    [updatedAnnotations] of the copy and the middleware names. *)
Definition generateUpdatedIngressOver (ing : IngressInfo)
    (annOrder : list (string * string))
    (hostOrder : list (string * list PathInfo)) : string :=
  let annotationLines := map (λ kv, cat ["    "; kv.1; ": "; Quote kv.2]) annOrder in
  let tlsSection :=
    foldl (λ tlsSection secret,
             let hosts := hostListForTLS ing in
             tlsSection +:+
             cat ["  - hosts:"; nl; hosts; nl; "    secretName: "; secret; nl])
          EmptyString (TLSSecrets ing) in
  let rulesSection := buildRulesSectionOver hostOrder in
  let ingressClass := if String.eqb (IngressClass ing) EmptyString
                      then "nginx" else IngressClass ing in
  let yaml :=
    cat ["apiVersion: networking.k8s.io/v1"; nl;
         "kind: Ingress"; nl;
         "metadata:"; nl;
         "  name: "; Name ing; nl;
         "  namespace: "; Namespace ing; nl;
         "  annotations:"; nl;
         Join annotationLines nl; nl;
         "spec:"; nl;
         "  ingressClassName: "; ingressClass; nl;
         "  rules:"; nl;
         rulesSection] in
  let yaml := if negb (String.eqb tlsSection EmptyString)
              then yaml +:+ cat ["  tls:"; nl; tlsSection] else yaml in
  yaml +:+ nl.

(** The manifests [generateUpdatedIngress] can return. *)
Inductive generateUpdatedIngress (ing : IngressInfo) (middlewareNames : list string)
    : string → Prop :=
| generateUpdatedIngress_range copyOrder annOrder hostOrder :
    MapRange (Annotations ing) copyOrder →
    MapRange (updatedAnnotations (copyAnnotationsOver copyOrder) middlewareNames) annOrder →
    MapRange (hostPathsOf ing) hostOrder →
    generateUpdatedIngress ing middlewareNames
      (generateUpdatedIngressOver ing annOrder hostOrder).

(** Step 3 of [Migrate]: the file that carries the manifest. *)
Definition updatedIngressFile (ing : IngressInfo) (ingressYAML : string) : GeneratedFile :=
  {| RelPath := cat ["03-ingresses/"; Namespace ing; "-"; Name ing; ".yaml"];
     Content := ingressYAML;
     Description := cat ["Updated Ingress manifest for "; Namespace ing; "/"; Name ing;
                         " with Traefik annotations"];
     Category := "ingress" |}.

(** *** middleware.go *)

Record MiddlewareSpec := {
  Name : string;
  Namespace : string;
  YAML : string
}.

Definition getAnnotation (annotations : gmap string string)
    (key defaultVal : string) : string :=
  match annotations !! key with
  | Some v => if String.eqb v EmptyString then defaultVal else v
  | None => defaultVal
  end.

Definition generateSSLRedirect (ingName ns : string) (permanent : bool) : MiddlewareSpec :=
  let name := if permanent then ingName +:+ "-force-ssl-redirect"
              else ingName +:+ "-ssl-redirect" in
  let permanentStr := if permanent then "true" else "false" in
  {| Name := name; Namespace := ns;
     YAML :=
       cat ["apiVersion: traefik.io/v1alpha1"; nl;
            "kind: Middleware"; nl;
            "metadata:"; nl;
            "  name: "; name; nl;
            "  namespace: "; ns; nl;
            "spec:"; nl;
            "  redirectScheme:"; nl;
            "    scheme: https"; nl;
            "    permanent: "; permanentStr; nl] |}.

Definition generateCORSMiddleware (ingName ns : string)
    (annotations : gmap string string) : MiddlewareSpec :=
  let name := ingName +:+ "-cors" in
  let origin := getAnnotation annotations "cors-allow-origin" "*" in
  let methods := getAnnotation annotations "cors-allow-methods"
                   "GET, PUT, POST, DELETE, PATCH, OPTIONS" in
  let headers := getAnnotation annotations "cors-allow-headers"
                   "DNT,Keep-Alive,User-Agent,X-Requested-With,If-Modified-Since,Cache-Control,Content-Type,Range,Authorization" in
  let credentials := getAnnotation annotations "cors-allow-credentials" "true" in
  let maxAge := getAnnotation annotations "cors-max-age" "1728000" in
  let exposeHeaders := getAnnotation annotations "cors-expose-headers" EmptyString in
  let exposeSection :=
    if negb (String.eqb exposeHeaders EmptyString)
    then cat [nl; "    exposedHeaders:"; nl; "      - "; dq; exposeHeaders; dq]
    else EmptyString in
  {| Name := name; Namespace := ns;
     YAML :=
       cat ["apiVersion: traefik.io/v1alpha1"; nl;
            "kind: Middleware"; nl;
            "metadata:"; nl;
            "  name: "; name; nl;
            "  namespace: "; ns; nl;
            "spec:"; nl;
            "  headers:"; nl;
            "    accessControlAllowOriginList:"; nl;
            "      - "; dq; origin; dq; nl;
            "    accessControlAllowMethods:"; nl;
            "      - "; dq; methods; dq; nl;
            "    accessControlAllowHeaders:"; nl;
            "      - "; dq; headers; dq; nl;
            "    accessControlAllowCredentials: "; credentials; nl;
            "    accessControlMaxAge: "; maxAge; exposeSection; nl] |}.

Definition generateForwardAuth (ingName ns : string)
    (annotations : gmap string string) : MiddlewareSpec :=
  let name := ingName +:+ "-auth" in
  let authURL := index annotations "auth-url" in
  let responseHeaders :=
    match annotations !! "auth-response-headers" with
    | Some rh =>
        if negb (String.eqb rh EmptyString) then
          let headers := Split rh "," in
          let lines := map (λ h, cat ["      - "; dq; TrimSpace h; dq]) headers in
          cat [nl; "    authResponseHeaders:"; nl; Join lines nl]
        else EmptyString
    | None => EmptyString
    end in
  {| Name := name; Namespace := ns;
     YAML :=
       cat ["apiVersion: traefik.io/v1alpha1"; nl;
            "kind: Middleware"; nl;
            "metadata:"; nl;
            "  name: "; name; nl;
            "  namespace: "; ns; nl;
            "spec:"; nl;
            "  forwardAuth:"; nl;
            "    address: "; dq; authURL; dq; nl;
            "    trustForwardHeader: true"; responseHeaders; nl] |}.

Definition generateBasicAuth (ingName ns : string)
    (annotations : gmap string string) : MiddlewareSpec :=
  let name := ingName +:+ "-basicauth" in
  let secret := getAnnotation annotations "auth-secret" (ingName +:+ "-basic-auth") in
  let realm := getAnnotation annotations "auth-realm" "traefik" in
  {| Name := name; Namespace := ns;
     YAML :=
       cat ["apiVersion: traefik.io/v1alpha1"; nl;
            "kind: Middleware"; nl;
            "metadata:"; nl;
            "  name: "; name; nl;
            "  namespace: "; ns; nl;
            "spec:"; nl;
            "  basicAuth:"; nl;
            "    secret: "; secret; nl;
            "    realm: "; dq; realm; dq; nl;
            "# NOTE: Create the secret with htpasswd-encoded credentials:"; nl;
            "# kubectl create secret generic "; secret; " --from-literal=users="; dq;
              "$(htpasswd -nb user password)"; dq; " -n "; ns; nl] |}.

Definition generateRateLimit (ingName ns : string)
    (annotations : gmap string string) : MiddlewareSpec :=
  let name := ingName +:+ "-ratelimit" in
  let nonEmpty key :=
    match annotations !! key with
    | Some v => if String.eqb v EmptyString then None else Some v
    | None => None
    end in
  let average :=
    match nonEmpty "limit-rps" with
    | Some rps => rps
    | None =>
        match nonEmpty "limit-rpm" with
        | Some rpm => cat [rpm; " # converted from "; rpm; " RPM"]
        | None => "100"
        end
    end in
  let burst :=
    match nonEmpty "limit-burst-multiplier" with
    | Some bm => cat [bm; " # burst-multiplier applied"]
    | None => "200"
    end in
  {| Name := name; Namespace := ns;
     YAML :=
       cat ["apiVersion: traefik.io/v1alpha1"; nl;
            "kind: Middleware"; nl;
            "metadata:"; nl;
            "  name: "; name; nl;
            "  namespace: "; ns; nl;
            "spec:"; nl;
            "  rateLimit:"; nl;
            "    average: "; average; nl;
            "    burst: "; burst; nl;
            "    period: 1s"; nl] |}.

Definition generateInFlightReq (ingName ns : string)
    (annotations : gmap string string) : MiddlewareSpec :=
  let name := ingName +:+ "-inflightreq" in
  let amount := getAnnotation annotations "limit-connections" "10" in
  {| Name := name; Namespace := ns;
     YAML :=
       cat ["apiVersion: traefik.io/v1alpha1"; nl;
            "kind: Middleware"; nl;
            "metadata:"; nl;
            "  name: "; name; nl;
            "  namespace: "; ns; nl;
            "spec:"; nl;
            "  inFlightReq:"; nl;
            "    amount: "; amount; nl] |}.

(** The slice [cidrLines] of [generateIPAllowList] and [generateIPDenyList]. *)
Definition sourceRangeLines (cidr : string) : list string :=
  flat_map (λ c, let c := TrimSpace c in
                 if negb (String.eqb c EmptyString)
                 then [cat ["      - "; dq; c; dq]]
                 else [])
           (Split cidr ",").

Definition generateIPAllowList (ingName ns cidr : string) : MiddlewareSpec :=
  let name := ingName +:+ "-ipallowlist" in
  let cidrLines := sourceRangeLines cidr in
  {| Name := name; Namespace := ns;
     YAML :=
       cat ["apiVersion: traefik.io/v1alpha1"; nl;
            "kind: Middleware"; nl;
            "metadata:"; nl;
            "  name: "; name; nl;
            "  namespace: "; ns; nl;
            "spec:"; nl;
            "  ipAllowList:"; nl;
            "    sourceRange:"; nl;
            Join cidrLines nl; nl] |}.

Definition generateIPDenyList (ingName ns cidr : string) : MiddlewareSpec :=
  let name := ingName +:+ "-ipdenylist" in
  let cidrLines := sourceRangeLines cidr in
  {| Name := name; Namespace := ns;
     YAML :=
       cat ["apiVersion: traefik.io/v1alpha1"; nl;
            "kind: Middleware"; nl;
            "metadata:"; nl;
            "  name: "; name; nl;
            "  namespace: "; ns; nl;
            "spec:"; nl;
            "  ipDenyList:"; nl;
            "    sourceRange:"; nl;
            Join cidrLines nl; nl] |}.

Definition generateRewriteMiddleware (ingName ns target : string)
    (annotations : gmap string string) : MiddlewareSpec :=
  let name := ingName +:+ "-rewrite" in
  if has annotations "use-regex" then
    {| Name := name; Namespace := ns;
       YAML :=
         cat ["apiVersion: traefik.io/v1alpha1"; nl;
              "kind: Middleware"; nl;
              "metadata:"; nl;
              "  name: "; name; nl;
              "  namespace: "; ns; nl;
              "spec:"; nl;
              "  replacePathRegex:"; nl;
              "    regex: "; dq; "^/[^/]*(.*)"; dq; nl;
              "    replacement: "; dq; target; dq; nl;
              "# NOTE: Adjust regex to match your path pattern from the Ingress spec"; nl] |}
  else
    {| Name := name; Namespace := ns;
       YAML :=
         cat ["apiVersion: traefik.io/v1alpha1"; nl;
              "kind: Middleware"; nl;
              "metadata:"; nl;
              "  name: "; name; nl;
              "  namespace: "; ns; nl;
              "spec:"; nl;
              "  replacePath:"; nl;
              "    path: "; dq; target; dq; nl] |}.

Definition generateHeadersMiddleware (ingName ns : string)
    (annotations : gmap string string) : MiddlewareSpec :=
  let name := ingName +:+ "-headers" in
  let customHeaders := getAnnotation annotations "custom-headers" EmptyString in
  let note :=
    if negb (String.eqb customHeaders EmptyString) then
      cat [nl;
           "# NOTE: Original annotation referenced ConfigMap: "; customHeaders; nl;
           "# Inline the headers below from that ConfigMap"]
    else EmptyString in
  {| Name := name; Namespace := ns;
     YAML :=
       cat ["apiVersion: traefik.io/v1alpha1"; nl;
            "kind: Middleware"; nl;
            "metadata:"; nl;
            "  name: "; name; nl;
            "  namespace: "; ns; nl;
            "spec:"; nl;
            "  headers:"; nl;
            "    customResponseHeaders:"; nl;
            "      X-Custom-Header: "; dq; "value"; dq; "  # Replace with your actual headers";
              note; nl] |}.

(** [annotations[key] == "true"] with the key present, and
    [annotations[key] != ""] with the key present. *)
Definition isTrue (annotations : gmap string string) (key : string) : bool :=
  match annotations !! key with
  | Some v => String.eqb v "true"
  | None => false
  end.

Definition isSet (annotations : gmap string string) (key : string) : bool :=
  match annotations !! key with
  | Some v => negb (String.eqb v EmptyString)
  | None => false
  end.

Definition generateMiddlewares (ing : IngressInfo) : list MiddlewareSpec :=
  let annotations := NginxAnnotations ing in
  let ingName := scanner.Name ing in
  let ns := scanner.Namespace ing in
  (if isTrue annotations "ssl-redirect"
   then [generateSSLRedirect ingName ns false] else [])
  ++ (if isTrue annotations "force-ssl-redirect"
      then [generateSSLRedirect ingName ns true] else [])
  ++ (if isTrue annotations "enable-cors"
      then [generateCORSMiddleware ingName ns annotations] else [])
  ++ (if isSet annotations "auth-url"
      then [generateForwardAuth ingName ns annotations] else [])
  ++ (match annotations !! "auth-type" with
      | Some authType =>
          if String.eqb authType "basic"
          then [generateBasicAuth ingName ns annotations] else []
      | None => []
      end)
  ++ (if has annotations "limit-rps" then [generateRateLimit ingName ns annotations]
      else if has annotations "limit-rpm" then [generateRateLimit ingName ns annotations]
      else [])
  ++ (if has annotations "limit-connections"
      then [generateInFlightReq ingName ns annotations] else [])
  ++ (match annotations !! "whitelist-source-range" with
      | Some cidr =>
          if negb (String.eqb cidr EmptyString)
          then [generateIPAllowList ingName ns cidr] else []
      | None => []
      end)
  ++ (match annotations !! "denylist-source-range" with
      | Some cidr =>
          if negb (String.eqb cidr EmptyString)
          then [generateIPDenyList ingName ns cidr] else []
      | None => []
      end)
  ++ (match annotations !! "rewrite-target" with
      | Some target =>
          if negb (String.eqb target EmptyString)
          then [generateRewriteMiddleware ingName ns target annotations] else []
      | None => []
      end)
  ++ (if has annotations "custom-headers"
      then [generateHeadersMiddleware ingName ns annotations] else []).


(** *** migrator.go: the files that do not depend on an ingress *)

Definition generateHelmInstall : GeneratedFile :=
  {| RelPath := "01-install-traefik/helm-install.sh";
     Content :=
       cat ["#!/bin/bash"; nl;
            "# Install Traefik alongside existing NGINX Ingress Controller"; nl;
            "# Both will run in parallel — zero downtime migration"; nl;
            "set -e"; nl;
            nl;
            "echo "; dq; "Adding Traefik Helm repository..."; dq; nl;
            "helm repo add traefik https://traefik.github.io/charts"; nl;
            "helm repo update"; nl;
            nl;
            "echo "; dq; "Installing Traefik with Kubernetes Ingress NGINX provider..."; dq; nl;
            "helm upgrade --install traefik traefik/traefik \"; nl;
            "  --namespace traefik \"; nl;
            "  --create-namespace \"; nl;
            "  --values values.yaml \"; nl;
            "  --version "; dq; ">=3.6.2"; dq; nl;
            nl;
            "echo "; dq; "Waiting for Traefik to be ready..."; dq; nl;
            "kubectl rollout status deployment/traefik -n traefik --timeout=120s"; nl;
            nl;
            "echo "; dq; dq; nl;
            "echo "; dq; "Traefik installed successfully!"; dq; nl;
            "echo "; dq; dq; nl;
            "echo "; dq; "Get Traefik LoadBalancer IP:"; dq; nl;
            "kubectl get svc -n traefik traefik"; nl;
            "echo "; dq; dq; nl;
            "echo "; dq; "Test that Traefik can serve your Ingress resources:"; dq; nl;
            "echo "; dq; "  bash ../04-verify.sh"; dq; nl];
     Description := "Helm install script for Traefik";
     Category := "install" |}.

Definition generateHelmValues : GeneratedFile :=
  {| RelPath := "01-install-traefik/values.yaml";
     Content :=
       cat ["# Traefik Helm values for NGINX Ingress migration"; nl;
            "# Requires Traefik v3.6.2+"; nl;
            nl;
            "providers:"; nl;
            "  # Enable the Kubernetes Ingress NGINX compatibility provider"; nl;
            "  # This makes Traefik watch Ingress resources with ingressClassName: nginx"; nl;
            "  # and automatically translates common nginx.ingress.kubernetes.io annotations"; nl;
            "  kubernetesIngressNginx:"; nl;
            "    enabled: true"; nl;
            nl;
            "  kubernetesIngress:"; nl;
            "    enabled: true"; nl;
            "    # Watch all namespaces by default"; nl;
            "    allowCrossNamespace: false"; nl;
            nl;
            "# High availability — spread across nodes"; nl;
            "deployment:"; nl;
            "  replicas: 2"; nl;
            nl;
            "affinity:"; nl;
            "  podAntiAffinity:"; nl;
            "    requiredDuringSchedulingIgnoredDuringExecution:"; nl;
            "      - labelSelector:"; nl;
            "          matchLabels:"; nl;
            "            app.kubernetes.io/name: traefik"; nl;
            "            app.kubernetes.io/instance: traefik"; nl;
            "        topologyKey: kubernetes.io/hostname"; nl;
            nl;
            "# Ensure at least one pod is always available"; nl;
            "podDisruptionBudget:"; nl;
            "  enabled: true"; nl;
            "  minAvailable: 1"; nl;
            nl;
            "# Service configuration — Traefik gets its own LoadBalancer IP"; nl;
            "service:"; nl;
            "  enabled: true"; nl;
            "  type: LoadBalancer"; nl;
            nl;
            "# Entrypoints"; nl;
            "ports:"; nl;
            "  web:"; nl;
            "    port: 8000"; nl;
            "    expose:"; nl;
            "      default: true"; nl;
            "    exposedPort: 80"; nl;
            "  websecure:"; nl;
            "    port: 8443"; nl;
            "    expose:"; nl;
            "      default: true"; nl;
            "    exposedPort: 443"; nl;
            "    tls:"; nl;
            "      enabled: true"; nl;
            nl;
            "# Optional: Enable dashboard (access via kubectl port-forward)"; nl;
            "# api:"; nl;
            "#   dashboard: true"; nl;
            "#   insecure: true"; nl;
            nl;
            "logs:"; nl;
            "  general:"; nl;
            "    level: INFO"; nl;
            "  access:"; nl;
            "    enabled: true"; nl];
     Description := "Traefik Helm values file";
     Category := "install" |}.

(** The slice [testLines] of [generateVerifyScript]. *)
Definition verifyTestLines (scan : ScanResult) : list string :=
  flat_map (λ ing,
              map (λ host,
                     cat ["echo "; dq; "Testing "; scanner.Namespace ing; "/"; scanner.Name ing; " → "; host; dq;
                            nl;
                          "TRAEFIK_IP=$(kubectl get svc -n traefik traefik -o go-template='{{ $ing := index .status.loadBalancer.ingress 0 }}{{ if $ing.ip }}{{ $ing.ip }}{{ else }}{{ $ing.hostname }}{{ end }}')"; nl;
                          "curl -s --connect-to "; dq; host; ":80:${TRAEFIK_IP}:80"; dq; " "; dq; "http://";
                            host; dq; " -o /dev/null -w "; dq; "HTTP %{http_code}\n"; dq; " || true"; nl])
                  (Hosts ing))
           (Ingresses scan).

Definition generateVerifyScript (scan : ScanResult) : GeneratedFile :=
  {| RelPath := "04-verify.sh";
     Content :=
       cat ["#!/bin/bash"; nl;
            "# Verify Traefik is handling your Ingress resources correctly"; nl;
            "# Run this BEFORE cutting over DNS to Traefik"; nl;
            "set -e"; nl;
            nl;
            "echo "; dq; "=== ing-switch Verification Script ==="; dq; nl;
            "echo "; dq; dq; nl;
            nl;
            "TRAEFIK_IP=$(kubectl get svc -n traefik traefik -o go-template='{{ $ing := index .status.loadBalancer.ingress 0 }}{{ if $ing.ip }}{{ $ing.ip }}{{ else }}{{ $ing.hostname }}{{ end }}' 2>/dev/null || echo "; dq; dq; ")"; nl;
            nl;
            "if [ -z "; dq; "$TRAEFIK_IP"; dq; " ]; then"; nl;
            "  echo "; dq; "ERROR: Traefik LoadBalancer IP not assigned yet. Wait for it:"; dq; nl;
            "  kubectl get svc -n traefik traefik"; nl;
            "  exit 1"; nl;
            "fi"; nl;
            nl;
            "echo "; dq; "Traefik LoadBalancer: $TRAEFIK_IP"; dq; nl;
            "echo "; dq; dq; nl;
            "echo "; dq; "Testing Ingress resources via Traefik..."; dq; nl;
            "echo "; dq; dq; nl;
            nl;
            Join (verifyTestLines scan) nl; nl;
            nl;
            "echo "; dq; dq; nl;
            "echo "; dq; "=== Traefik Dashboard ==="; dq; nl;
            "echo "; dq; "kubectl port-forward -n traefik svc/traefik 9000:9000"; dq; nl;
            "echo "; dq; "Open http://localhost:9000/dashboard/"; dq; nl;
            "echo "; dq; dq; nl;
            "echo "; dq; "If all tests pass, proceed to 05-dns-migration.md"; dq; nl];
     Description := "Verification script to test Traefik before DNS cutover";
     Category := "verify" |}.

Definition generateDNSGuide : GeneratedFile :=
  {| RelPath := "05-dns-migration.md";
     Content :=
       cat ["# DNS Migration Guide"; nl;
            nl;
            "## Overview"; nl;
            nl;
            "At this point:"; nl;
            "- NGINX is still running and handling all production traffic"; nl;
            "- Traefik is running with its own LoadBalancer IP"; nl;
            "- Both controllers are watching the same Ingress resources"; nl;
            "- You have verified Traefik works correctly (verify.sh passed)"; nl;
            nl;
            "## Step 1: Get both LoadBalancer IPs"; nl;
            nl;
            "```bash"; nl;
            "NGINX_IP=$(kubectl get svc -n ingress-nginx ingress-nginx-controller \"; nl;
            "  -o go-template='{{ $ing := index .status.loadBalancer.ingress 0 }}{{ if $ing.ip }}{{ $ing.ip }}{{ else }}{{ $ing.hostname }}{{ end }}')"; nl;
            nl;
            "TRAEFIK_IP=$(kubectl get svc -n traefik traefik \"; nl;
            "  -o go-template='{{ $ing := index .status.loadBalancer.ingress 0 }}{{ if $ing.ip }}{{ $ing.ip }}{{ else }}{{ $ing.hostname }}{{ end }}')"; nl;
            nl;
            "echo "; dq; "NGINX:   $NGINX_IP"; dq; nl;
            "echo "; dq; "Traefik: $TRAEFIK_IP"; dq; nl;
            "```"; nl;
            nl;
            "## Step 2: Add Traefik to DNS (parallel traffic)"; nl;
            nl;
            "In your DNS provider, add the Traefik IP alongside the NGINX IP for your domains."; nl;
            "Both will receive traffic via round-robin."; nl;
            nl;
            "**Set a low TTL (e.g., 60s) before making changes** so rollback is fast."; nl;
            nl;
            "## Step 3: Monitor"; nl;
            nl;
            "Watch traffic on both controllers:"; nl;
            "```bash"; nl;
            "# NGINX access logs"; nl;
            "kubectl logs -n ingress-nginx -l app.kubernetes.io/name=ingress-nginx -f"; nl;
            nl;
            "# Traefik access logs"; nl;
            "kubectl logs -n traefik -l app.kubernetes.io/name=traefik -f"; nl;
            "```"; nl;
            nl;
            "## Step 4: Remove NGINX from DNS"; nl;
            nl;
            "Once you're confident Traefik is handling traffic correctly:"; nl;
            "1. Remove the NGINX LoadBalancer IP from your DNS records"; nl;
            "2. Wait 24-48 hours for DNS propagation (some ISPs ignore TTL)"; nl;
            "3. Keep NGINX running during this period"; nl;
            nl;
            "## Step 5: Cleanup"; nl;
            nl;
            "Once traffic is fully on Traefik, proceed to **06-cleanup/**."; nl;
            nl;
            "## Rollback"; nl;
            nl;
            "To roll back at any point:"; nl;
            "1. Remove Traefik from DNS records"; nl;
            "2. Ensure NGINX IP is the only record"; nl;
            "3. Traffic will return to NGINX within TTL seconds"; nl];
     Description := "Step-by-step DNS migration guide";
     Category := "guide" |}.

Definition generatePreserveIngressClass : GeneratedFile :=
  {| RelPath := "06-cleanup/01-preserve-ingressclass.yaml";
     Content :=
       cat ["# Apply this BEFORE uninstalling NGINX to preserve the IngressClass."; nl;
            "# Traefik needs this to continue discovering your Ingress resources."; nl;
            "#"; nl;
            "# If NGINX was installed via Helm, annotate the IngressClass to survive uninstall:"; nl;
            "#   kubectl annotate ingressclass nginx helm.sh/resource-policy=keep"; nl;
            "#"; nl;
            "# This file creates a standalone IngressClass as a fallback:"; nl;
            nl;
            "apiVersion: networking.k8s.io/v1"; nl;
            "kind: IngressClass"; nl;
            "metadata:"; nl;
            "  name: nginx"; nl;
            "  annotations:"; nl;
            "    ingressclass.kubernetes.io/is-default-class: "; dq; "false"; dq; nl;
            "    # Prevent Helm from deleting this when NGINX is uninstalled"; nl;
            "    helm.sh/resource-policy: keep"; nl;
            "spec:"; nl;
            "  controller: k8s.io/ingress-nginx"; nl;
            "  # Note: Traefik watches this class via its kubernetesIngressNginx provider"; nl];
     Description := "Preserve nginx IngressClass before removing NGINX";
     Category := "cleanup" |}.

Definition generateCleanupScript : GeneratedFile :=
  {| RelPath := "06-cleanup/02-remove-nginx.sh";
     Content :=
       cat ["#!/bin/bash"; nl;
            "# Remove Ingress NGINX Controller after migration is complete."; nl;
            "#"; nl;
            "# PREREQUISITES:"; nl;
            "# 1. All traffic is routing through Traefik"; nl;
            "# 2. NGINX has been removed from DNS for 24-48 hours"; nl;
            "# 3. You have applied 01-preserve-ingressclass.yaml"; nl;
            "#"; nl;
            "set -e"; nl;
            nl;
            "echo "; dq; "=== Removing Ingress NGINX Controller ==="; dq; nl;
            "echo "; dq; dq; nl;
            nl;
            "# Step 1: Preserve IngressClass"; nl;
            "echo "; dq; "Step 1: Preserving nginx IngressClass..."; dq; nl;
            "kubectl apply -f 01-preserve-ingressclass.yaml"; nl;
            "kubectl annotate ingressclass nginx helm.sh/resource-policy=keep --overwrite"; nl;
            nl;
            "# Step 2: Remove admission webhooks"; nl;
            "echo "; dq; "Step 2: Removing NGINX admission webhooks..."; dq; nl;
            "kubectl delete validatingwebhookconfiguration ingress-nginx-admission --ignore-not-found"; nl;
            "kubectl delete mutatingwebhookconfiguration ingress-nginx-admission --ignore-not-found"; nl;
            nl;
            "# Step 3: Uninstall NGINX Helm release"; nl;
            "echo "; dq; "Step 3: Uninstalling NGINX Helm release..."; dq; nl;
            "if helm list -n ingress-nginx | grep -q ingress-nginx; then"; nl;
            "  helm uninstall ingress-nginx -n ingress-nginx"; nl;
            "else"; nl;
            "  echo "; dq; "  NGINX Helm release not found — may have been installed differently";
              dq; nl;
            "  echo "; dq; "  Manual cleanup may be required"; dq; nl;
            "fi"; nl;
            nl;
            "# Step 4: Verify IngressClass still exists"; nl;
            "echo "; dq; dq; nl;
            "echo "; dq; "Step 4: Verifying IngressClass still exists..."; dq; nl;
            "kubectl get ingressclass nginx"; nl;
            nl;
            "# Step 5: Clean up namespace"; nl;
            "echo "; dq; "Step 5: Cleaning up ingress-nginx namespace..."; dq; nl;
            "kubectl delete namespace ingress-nginx --ignore-not-found"; nl;
            nl;
            "echo "; dq; dq; nl;
            "echo "; dq; "=== Migration Complete ==="; dq; nl;
            "echo "; dq; dq; nl;
            "echo "; dq; "Verify Traefik is still serving your Ingresses:"; dq; nl;
            "kubectl get ingress --all-namespaces"; nl];
     Description := "Remove NGINX after migration is verified complete";
     Category := "cleanup" |}.


(** *** migrator.go: [Migrate] *)

(** The references [Migrate] builds for the middlewares of an ingress. *)
Definition middlewareRefs (ing : IngressInfo) : list string :=
  map (λ mw, cat [scanner.Namespace ing; "-"; Name mw; "@kubernetescrd"])
      (generateMiddlewares ing).

(** The key of an ingress in the map [middlewareNames]. *)
Definition ingressKey (ing : IngressInfo) : string :=
  scanner.Namespace ing +:+ "-" +:+ scanner.Name ing.

(** Step 2 of [Migrate]: the map [middlewareNames] and the middleware
    files, ingress by ingress. *)
Definition middlewareStep (st : gmap string (list string) * list GeneratedFile)
    (ing : IngressInfo) : gmap string (list string) * list GeneratedFile :=
  let mws := generateMiddlewares ing in
  let mwYAMLs := map YAML mws in
  let names := middlewareRefs ing in
  if (0 <? List.length mwYAMLs)%nat then
    (<[ingressKey ing := names]> st.1,
     (st.2 ++ [{| RelPath := cat ["02-middlewares/"; scanner.Namespace ing; "-";
                                  scanner.Name ing; "-middlewares.yaml"];
                  Content := Join mwYAMLs (cat ["---"; nl]);
                  Description := cat ["Traefik Middlewares for "; scanner.Namespace ing;
                                      "/"; scanner.Name ing];
                  Category := "middleware" |}])%list)
  else st.

Definition middlewareStepAll (scan : ScanResult)
    : gmap string (list string) * list GeneratedFile :=
  foldl middlewareStep (∅, []) (Ingresses scan).

(** The names step 3 of [Migrate] passes to [generateUpdatedIngress]:
    [middlewareNames[key]], nil when the key is absent. *)
Definition middlewareNamesFor (scan : ScanResult) (ing : IngressInfo) : list string :=
  default [] ((middlewareStepAll scan).1 !! ingressKey ing).

(** [Migrate] when [generateUpdatedIngress] returns [manifests], one for
    each ingress; the error it returns is always nil. *)
Definition MigrateOver (scan : ScanResult) (manifests : list string) : list GeneratedFile :=
  ([generateHelmInstall; generateHelmValues]
   ++ (middlewareStepAll scan).2
   ++ zip_with updatedIngressFile (Ingresses scan) manifests
   ++ [generateVerifyScript scan; generateDNSGuide;
       generatePreserveIngressClass; generateCleanupScript])%list.

Inductive Migrate (scan : ScanResult) : list GeneratedFile → Prop :=
| Migrate_range manifests :
    Forall2 (λ ing manifest,
               generateUpdatedIngress ing (middlewareNamesFor scan ing) manifest)
            (Ingresses scan) manifests →
    Migrate scan (MigrateOver scan manifests).

End WithQuote.
End traefik.

(** ** pkg/server/validate.go: the phase of [runRichValidation] *)

Module server.

(** [nginxPresent] as [runRichValidation] reads it off a scan. *)
Definition nginxPresent (sr : ScanResult) : bool :=
  Detected (Controller sr) && String.eqb (Type_ (Controller sr)) "ingress-nginx".

(** The [switch] that sets [result.Phase] and [result.PhaseDesc]. *)
Definition migrationPhase (targetRunning nginxPresent : bool) : string * string :=
  if targetRunning && negb nginxPresent then
    ("post-migration",
     "Target controller is active. NGINX has been removed. Migration complete.")
  else if targetRunning && nginxPresent then
    ("migrating",
     "Both NGINX and target controller are running. Zero-downtime parallel migration in progress.")
  else
    ("pre-migration",
     "NGINX is handling all traffic. Target controller not yet installed.").


(** *** pkg/server/validate.go *)

Record ValidationCheck := {
  Name : string;
  Status : string;
  Message : string
}.

Record RichValidationResult := {
  Target : string;
  Phase : string;
  PhaseDesc : string;
  Checks : list ValidationCheck;
  Overall : string;
  NextSteps : list string
}.

(** What [detectTargetController] reads of a pod. *)
Record Pod := {
  PodPhase : string;
  Images : list string
}.

(** [client.CoreV1().Pods(ns).List] with a label selector: the items, or
    [None] for an error. *)
Definition PodLister := string → string → option (list Pod).

(** The loop over [pod.Spec.Containers]: the tag of the last image that
    holds a colon. *)
Definition versionOf (images : list string) : string :=
  foldl (λ version image,
           let parts := Split image ":" in
           if (2 <=? List.length parts)%nat then default EmptyString (last parts)
           else version)
        EmptyString images.

(** The inner loop of [detectTargetController] over the selectors, for
    the namespace [ns]: the result it returns with, if it returns. *)
Fixpoint detectIn (pods : PodLister) (ns : string) (selectors : list string)
    : option (bool * string * string) :=
  match selectors with
  | [] => None
  | sel :: rest =>
      match pods ns sel with
      | Some (pod :: _) =>
          if String.eqb (PodPhase pod) "Running"
          then Some (true, ns, versionOf (Images pod))
          else detectIn pods ns rest
      | _ => detectIn pods ns rest
      end
  end.

Fixpoint detectOver (pods : PodLister) (namespaces selectors : list string)
    : bool * string * string :=
  match namespaces with
  | [] => (false, EmptyString, EmptyString)
  | ns :: rest =>
      match detectIn pods ns selectors with
      | Some found => found
      | None => detectOver pods rest selectors
      end
  end.

Definition detectTargetController (pods : PodLister) (target : string)
    : bool * string * string :=
  let '(selectors, namespaces) :=
    if String.eqb target "traefik" then
      (["app.kubernetes.io/name=traefik"; "app=traefik"],
       ["traefik"; "kube-system"; "default"; "ingress"])
    else if String.eqb target "gateway-api" then
      (["app.kubernetes.io/name=envoy-gateway"; "app=envoy-gateway";
        "control-plane=envoy-gateway"],
       ["envoy-gateway-system"; "kube-system"; "default"])
    else ([], []) in
  detectOver pods namespaces selectors.

(** [countResource]: [lists] holds, for each resource of [gvrs] in turn,
    the number of items listed, or [None] for an error. *)
Fixpoint firstListed (lists : list (option Z)) : Z :=
  match lists with
  | [] => 0
  | Some n :: _ => n
  | None :: rest => firstListed rest
  end.

Definition countResource (installed : bool) (lists : list (option Z)) : Z :=
  if negb installed then 0 else firstListed lists.

Definition appendTraefikChecks (checks : list ValidationCheck) (targetRunning : bool)
    (namespace version : string) (crdInstalled : bool)
    (middlewareCount ingressesUpdated ingressTotal : Z) : list ValidationCheck :=
  (checks
   ++ [if targetRunning then
      {| Name := cat ["Traefik controller running ("; version; ")"];
         Status := "pass";
         Message := cat ["Traefik "; version; " is running in namespace '"; namespace;
                          "' and ready to serve traffic"] |}
    else
      {| Name := "Traefik controller";
         Status := "fail";
         Message := "Traefik not detected. Install: helm install traefik traefik/traefik -n traefik --create-namespace --version 32.x" |}]
   ++ [if crdInstalled then
      {| Name := "Traefik CRDs installed";
         Status := "pass";
         Message := "traefik.io API group present — Middleware, IngressRoute, ServersTransport CRDs available" |}
    else
      {| Name := "Traefik CRDs";
         Status := "fail";
         Message := "Traefik CRDs not found. Install Traefik via Helm to register CRDs automatically." |}]
   ++ (if 0 <? middlewareCount then
      [{| Name := cat ["Traefik Middlewares applied ("; fmt_d middlewareCount; " found)"];
         Status := "pass";
         Message := cat [fmt_d middlewareCount;
                          " Middleware CRDs present (rate-limit, auth, CORS, headers, etc.)"] |}]
    else if crdInstalled then
      [{| Name := "Traefik Middlewares";
         Status := "warn";
         Message := "No Middleware resources found. Apply generated 02-middlewares/ files to create routing rules." |}]
    else [])
   ++ (if 0 <? ingressTotal then
      if ingressesUpdated =? ingressTotal then
      [{| Name := cat ["Ingresses updated for Traefik ("; fmt_d ingressesUpdated; "/"; fmt_d ingressTotal; ")"];
         Status := "pass";
         Message := "All Ingresses have traefik.ingress.kubernetes.io/router.middlewares annotations applied." |}]
      else if 0 <? ingressesUpdated then
      [{| Name := cat ["Ingresses updated for Traefik ("; fmt_d ingressesUpdated; "/"; fmt_d ingressTotal; ")"];
         Status := "warn";
         Message := cat [fmt_d ingressesUpdated; " of "; fmt_d ingressTotal;
                          " Ingresses updated. Apply remaining files from 03-ingresses/."] |}]
      else
      [{| Name := "Ingresses updated for Traefik";
         Status := "warn";
         Message := "No Ingresses have Traefik annotations yet. Apply files from 03-ingresses/ directory." |}]
    else []))%list.

Definition appendGatewayAPIChecks (checks : list ValidationCheck) (targetRunning : bool)
    (namespace version : string) (crdInstalled : bool)
    (httprouteCount ingressTotal : Z) : list ValidationCheck :=
  (checks
   ++ [if targetRunning then
      {| Name := cat ["Envoy Gateway running ("; version; ")"];
         Status := "pass";
         Message := cat ["Envoy Gateway "; version; " is running in namespace '"; namespace; "'"] |}
    else
      {| Name := "Envoy Gateway";
         Status := "fail";
         Message := "Envoy Gateway not detected. Install: helm install eg oci://docker.io/envoyproxy/gateway-helm --version v1.3.0 -n envoy-gateway-system --create-namespace" |}]
   ++ [if crdInstalled then
      {| Name := "Gateway API CRDs installed (v1.2+)";
         Status := "pass";
         Message := "gateway.networking.k8s.io CRDs present — HTTPRoute, GatewayClass, Gateway, ReferenceGrant available" |}
    else
      {| Name := "Gateway API CRDs";
         Status := "fail";
         Message := "Gateway API CRDs not found. Install: kubectl apply -f https://github.com/kubernetes-sigs/gateway-api/releases/download/v1.2.0/standard-install.yaml" |}]
   ++ (if 0 <? httprouteCount then
      [{| Name := cat ["HTTPRoutes applied ("; fmt_d httprouteCount; " found)"];
         Status := "pass";
         Message := cat [fmt_d httprouteCount; " HTTPRoute resources present in cluster"] |}]
    else if crdInstalled then
      [{| Name := "HTTPRoutes";
         Status := "warn";
         Message := "No HTTPRoute resources found. Apply generated files from 04-httproutes/ directory." |}]
    else [])
   ++ (if (0 <? ingressTotal) && (0 <? httprouteCount) then
      let coverage := Z.quot (wrap64 (httprouteCount * 100)) ingressTotal in
      let msg := cat [fmt_d httprouteCount; " HTTPRoutes cover "; fmt_d ingressTotal;
               " original Ingresses ("; fmt_d coverage; "% coverage)"] in
      [{| Name := "HTTPRoute coverage";
          Status := if coverage <? 80 then "warn" else "pass";
          Message := if coverage <? 80
                     then msg +:+ " — some Ingresses may not have corresponding HTTPRoutes yet"
                     else msg |}]
    else []))%list.

Definition buildNextSteps (target phase : string)
    (targetRunning traefikCRDs gatewayAPICRDs : bool)
    (middlewareCount httprouteCount ingressesUpdated ingressTotal : Z) : list string :=
  if String.eqb phase "pre-migration" then
    if String.eqb target "traefik" then
      ["Generate migration files on the Migrate tab";
       "Review 00-migration-report.md to understand all changes";
       "Install Traefik alongside NGINX (safe — won't affect production traffic)"]
    else
      ["Generate migration files on the Migrate tab";
       "Review 00-migration-report.md for a full migration overview";
       "Install Gateway API CRDs (standard-install.yaml)";
       "Install Envoy Gateway alongside NGINX (safe — won't affect production traffic)"]
  else if String.eqb phase "migrating" then
    if String.eqb target "traefik" then
      ((if middlewareCount =? 0 then
          ["Apply Middleware CRDs (02-middlewares/) — creates routing rules"]
        else [])
       ++ (if ingressesUpdated <? ingressTotal then
          ["Apply updated Ingresses (03-ingresses/) — attaches middlewares"]
        else [])
       ++ ["Run 04-verify.sh to test Traefik handles traffic correctly";
           "Update DNS to Traefik's LoadBalancer IP once verified";
           "After DNS propagation: run 06-cleanup/ to remove NGINX"])%list
    else
      ((if httprouteCount =? 0 then
          ["Apply GatewayClass + Gateway (03-gateway/)";
           "Apply HTTPRoutes (04-httproutes/)";
           "Apply Policies if any (05-policies/)"]
        else [])
       ++ ["Run 06-verify.sh to test Envoy Gateway";
           "Update DNS to Envoy Gateway's LoadBalancer IP once verified";
           "After DNS propagation: run 07-cleanup/ to remove NGINX"])%list
  else if String.eqb phase "post-migration" then
      ["Monitor application logs and metrics for 24+ hours";
       "Verify all TLS certificates renew correctly (cert-manager check)";
       "Keep NGINX Helm values.yaml as backup for emergency rollback";
       "Update any CI/CD pipelines to deploy new resource types"]
  else [].

(** The loop that sets [result.Overall], entered with [overall]. *)
Fixpoint overallLoop (overall : string) (checks : list ValidationCheck) : string :=
  match checks with
  | [] => overall
  | c :: rest =>
      if String.eqb (Status c) "fail" then "fail"
      else if String.eqb (Status c) "warn" && negb (String.eqb overall "fail")
      then overallLoop "warn" rest
      else overallLoop overall rest
  end.

Definition overallOf (checks : list ValidationCheck) : string :=
  overallLoop "pass" checks.

(** The two checks every target gets. *)
Definition commonChecks (ingressCount : Z) (nginxPresent : bool) (nginxNamespace : string)
    : list ValidationCheck :=
  [if 0 <? ingressCount then
      {| Name := cat ["Ingress resources detected ("; fmt_d ingressCount; " total)"];
         Status := "pass";
         Message := cat [fmt_d ingressCount; " Ingress objects found across the cluster"] |}
    else
      {| Name := "Ingress resources";
         Status := "warn";
         Message := "No Ingress resources found. Run a cluster scan first." |};
   if nginxPresent then
      {| Name := "Ingress NGINX running";
         Status := "warn";
         Message := cat ["Ingress NGINX running in '"; nginxNamespace;
                          "'. Still handling production traffic — this is expected during parallel migration."] |}
    else
      {| Name := "Ingress NGINX";
         Status := "pass";
         Message := "Ingress NGINX not detected. Either not installed or successfully removed." |}].

(** The number of ingresses with an annotation key that holds
    [traefik.ingress.kubernetes.io]; the loop over the annotations stops at
    the first such key, so the count is the same for every order of
    visit. *)
Definition countTraefikAnnotated (ingresses : list IngressInfo) : Z :=
  Z.of_nat (List.length
    (filter (λ ing : IngressInfo,
               existsb (λ kv : string * string,
                          Contains kv.1 "traefik.ingress.kubernetes.io")
                       (map_to_list (Annotations ing)) = true)
            ingresses)).

(** [runRichValidation] once the clients are built: [sr1] and [sr2] are
    what the two scans return ([None] when [NewScanner] or [Scan] fails),
    [apiGroups] the names of the API groups ([None] when discovery fails),
    [middlewareLists] and [httprouteLists] what listing each resource
    gives. *)
Definition runRichValidationOver (target : string) (sr1 sr2 : option ScanResult)
    (pods : PodLister) (apiGroups : option (list string))
    (middlewareLists httprouteLists : list (option Z)) : RichValidationResult :=
  let ingressCount :=
    match sr1 with Some sr => Z.of_nat (List.length (Ingresses sr)) | None => 0 end in
  let nginxPresent :=
    match sr1 with Some sr => nginxPresent sr | None => false end in
  let nginxNamespace :=
    match sr1 with Some sr => ControllerNamespace (Controller sr) | None => EmptyString end in
  let '(targetRunning, targetNamespace, targetVersion) :=
    detectTargetController pods target in
  let groups := default [] apiGroups in
  let traefikCRDsInstalled :=
    existsb (λ g, Contains g "traefik.io" || Contains g "traefik.containo.us") groups in
  let gatewayAPICRDsInstalled :=
    existsb (λ g, Contains g "gateway.networking.k8s.io") groups in
  let middlewareCount := countResource traefikCRDsInstalled middlewareLists in
  let httprouteCount := countResource gatewayAPICRDsInstalled httprouteLists in
  let ingressesWithTraefikAnnotations :=
    match sr2 with Some sr => countTraefikAnnotated (Ingresses sr) | None => 0 end in
  let checks := commonChecks ingressCount nginxPresent nginxNamespace in
  let checks :=
    if String.eqb target "traefik" then
      appendTraefikChecks checks targetRunning targetNamespace targetVersion
        traefikCRDsInstalled middlewareCount ingressesWithTraefikAnnotations ingressCount
    else if String.eqb target "gateway-api" then
      appendGatewayAPIChecks checks targetRunning targetNamespace targetVersion
        gatewayAPICRDsInstalled httprouteCount ingressCount
    else checks in
  let phase := migrationPhase targetRunning nginxPresent in
  {| Target := target;
     Phase := phase.1;
     PhaseDesc := phase.2;
     Checks := checks;
     Overall := overallOf checks;
     NextSteps := buildNextSteps target phase.1 targetRunning traefikCRDsInstalled
                    gatewayAPICRDsInstalled middlewareCount httprouteCount
                    ingressesWithTraefikAnnotations ingressCount |}.

End server.

(** ** cmd/analyze.go: [runAnalyze] up to the report it prints *)

Module cmd.
Section WithQuote.

Variable Quote : string → string.


(** [repeatChar]: the loop appends [c] once for each [i] from 0 below [n],
    not at all when [n] is not positive. *)
Definition repeatChar (c : string) (n : Z) : string :=
  Nat.iter (Z.to_nat n) (λ result, result +:+ c) EmptyString.

(** The two lines [printAnalysisReport] starts the section of a route
    report with: the heading and the rule under it. *)
Definition reportHeading (ir : IngressReport) : string * string :=
  (cat ["  "; ReportNamespace ir; "/"; ReportName ir; nl],
   cat ["  ";
        repeatChar "-" (Z.of_nat (String.length (ReportNamespace ir))
                        + Z.of_nat (String.length (ReportName ir)) + 1);
        nl]).

(** [statusToIcon]. *)
Definition statusToIcon (s : string) : string :=
  if String.eqb s "supported" then "[supported]"
  else if String.eqb s "partial" then "[partial]  "
  else if String.eqb s "unsupported" then "[UNSUPPORTED]"
  else s.

End WithQuote.
End cmd.

(** ** web/src/components/AnnotationMatrix.tsx: the sorted copy of a
    report's mappings *)

Module web.

(** [sortOrder[status] ?? 3]. *)
Definition sortOrder (status : string) : Z :=
  if String.eqb status "unsupported" then 0
  else if String.eqb status "partial" then 1
  else if String.eqb status "supported" then 2
  else 3.

Definition compareMappings (a b : AnnotationMapping) : Z :=
  sortOrder (Status a) - sortOrder (Status b).

(** [Array.prototype.sort] is a stable sort: an element goes before the
    first element it does not compare greater than. *)
Fixpoint sortInsert {A} (compare : A → A → Z) (x : A) (l : list A) : list A :=
  match l with
  | [] => [x]
  | y :: l' => if compare x y <=? 0 then x :: y :: l' else y :: sortInsert compare x l'
  end.

Definition Array_sort {A} (compare : A → A → Z) (l : list A) : list A :=
  foldr (sortInsert compare) [] l.

Definition sorted (mappings : list AnnotationMapping) : list AnnotationMapping :=
  Array_sort compareMappings mappings.

End web.

(** ** Reading a generated HTTPRoute file back as objects

    The synthesizer writes text.  The statements about route objects speak
    of an object by its sections, as the builders assemble them; [render]
    writes such objects out, and the theorems below equate the text the
    synthesizer returns with the rendering of the objects they describe. *)

Module manifest.

(** One entry of [rules]: its match block, its filters (one string per
    filter, without the [filters:] line), its [backendRefs] block and its
    [timeouts] block; an absent block is the empty string. *)
Record Rule := {
  ruleMatch : string;
  ruleFilters : list string;
  ruleBackendRefs : string;
  ruleTimeouts : string
}.

(** One HTTPRoute document; [routeComment] is the text before
    [apiVersion], [parentSection] the [sectionName] of its only parentRef,
    [routeHostnames] its hostnames block. *)
Record HTTPRoute := {
  routeComment : string;
  routeName : string;
  routeNamespace : string;
  parentName : string;
  parentNamespace : string;
  parentSection : option string;
  routeHostnames : string;
  routeRules : list Rule
}.

Definition renderRule (r : Rule) : string :=
  cat [ruleMatch r;
       match ruleFilters r with
       | [] => EmptyString
       | _ => cat ["    filters:"; nl; Join (ruleFilters r) EmptyString]
       end;
       ruleBackendRefs r;
       ruleTimeouts r].

Definition renderRoute (o : HTTPRoute) : string :=
  cat [routeComment o;
       "apiVersion: gateway.networking.k8s.io/v1"; nl;
       "kind: HTTPRoute"; nl;
       "metadata:"; nl;
       "  name: "; routeName o; nl;
       "  namespace: "; routeNamespace o; nl;
       "spec:"; nl;
       "  parentRefs:"; nl;
       "  - name: "; parentName o; nl;
       "    namespace: "; parentNamespace o;
       match parentSection o with
       | Some s => cat [nl; "    sectionName: "; s]
       | None => EmptyString
       end; nl;
       routeHostnames o;
       "  rules:"; nl;
       Join (map renderRule (routeRules o)) EmptyString].

(** A file of several documents, separated by [---] lines. *)
Definition render (objects : list HTTPRoute) : string :=
  Join (map renderRoute objects) (cat ["---"; nl]).

(** The text of [s] up to its first line feed. *)
Fixpoint firstLine (s : string) : string :=
  match s with
  | EmptyString => EmptyString
  | String c s' => if Ascii.eqb c (ascii_of_nat 10) then EmptyString
                   else String c (firstLine s')
  end.

(** [s] without the prefix [p], when it starts with it. *)
Fixpoint stripPrefix (p s : string) : option string :=
  match p, s with
  | EmptyString, _ => Some s
  | String a p', String b s' => if Ascii.eqb a b then stripPrefix p' s' else None
  | String _ _, EmptyString => None
  end.

(** The [type] a filter entry declares on its first line. *)
Definition filterType (filter : string) : string :=
  default EmptyString (stripPrefix "    - type: " (firstLine filter)).

(** The text of a path match of a given type and value. *)
Definition pathMatchText (pathType pathValue : string) : string :=
  cat ["path:"; nl; "        type: "; pathType; nl; "        value: "; dq; pathValue; dq].


(** Whether a [backendRefs] block is there. *)
Definition hasBackendRefs (r : Rule) : bool :=
  String.prefix (cat ["    backendRefs:"; nl]) (ruleBackendRefs r).

Section Objects.

Variable Quote : string → string.

(** The redirect rule the synthesizer writes for path [p]. *)
Definition redirectRule (annotations : gmap string string) (statusCode : Z)
    (p : PathInfo) : Rule :=
  {| ruleMatch := gatewayapi.matchSection p annotations;
     ruleFilters :=
       [cat ["    - type: RequestRedirect"; nl;
             "      requestRedirect:"; nl;
             "        scheme: https"; nl;
             "        statusCode: "; fmt_d statusCode; nl]];
     ruleBackendRefs := EmptyString;
     ruleTimeouts := EmptyString |}.

(** The backend rule the synthesizer writes for path [p]. *)
Definition backendRule (annotations : gmap string string) (p : PathInfo) : Rule :=
  {| ruleMatch := gatewayapi.matchSection p annotations;
     ruleFilters := gatewayapi.buildBackendFilters annotations;
     ruleBackendRefs :=
       gatewayapi.buildBackendRefs p
         (String.eqb (index annotations "canary") "true")
         (index annotations "canary-weight");
     ruleTimeouts := gatewayapi.buildTimeouts annotations |}.

(** The status code of the redirect: 302 for [ssl-redirect] alone. *)
Definition redirectStatusCode (annotations : gmap string string) : Z :=
  if String.eqb (index annotations "ssl-redirect") "true"
     && negb (String.eqb (index annotations "force-ssl-redirect") "true")
  then 302 else 301.

(** The listener section recorded for the first host of the ingress,
    when there is one. *)
Definition httpsSection (ing : IngressInfo)
    (hostnameToSection : gmap string string) : option string :=
  match Hosts ing with
  | h :: _ =>
      match hostnameToSection !! h with
      | Some s => if String.eqb s EmptyString then None else Some s
      | None => None
      end
  | [] => None
  end.

Definition redirectObject (ing : IngressInfo)
    (gatewayName gatewayNamespace : string) : HTTPRoute :=
  {| routeComment :=
       cat ["# HTTP→HTTPS redirect route (attached to HTTP listener only)"; nl];
     routeName := Name ing +:+ "-redirect";
     routeNamespace := Namespace ing;
     parentName := gatewayName;
     parentNamespace := gatewayNamespace;
     parentSection := Some "http";
     routeHostnames := gatewayapi.buildHostnameSection Quote (Hosts ing);
     routeRules :=
       map (redirectRule (NginxAnnotations ing)
              (redirectStatusCode (NginxAnnotations ing)))
           (gatewayapi.pathsInHostOrder (Paths ing)) |}.

Definition backendObject (ing : IngressInfo)
    (gatewayName gatewayNamespace : string) (section : option string) : HTTPRoute :=
  {| routeComment := EmptyString;
     routeName := Name ing;
     routeNamespace := Namespace ing;
     parentName := gatewayName;
     parentNamespace := gatewayNamespace;
     parentSection := section;
     routeHostnames := gatewayapi.buildHostnameSection Quote (Hosts ing);
     routeRules :=
       map (backendRule (NginxAnnotations ing))
           (gatewayapi.pathsInHostOrder (Paths ing)) |}.

End Objects.


(** The entries of a hostname table are listener names [https-N]. *)
Definition listenerNames (st : gmap string string * Z) : Prop :=
  ∀ h s, st.1 !! h = Some s → ∃ n : Z, s = "https-" +:+ fmt_d n.

(** What the loop of [groupByHost] keeps true: the hosts in [hostOrder]
    are distinct and are the keys of [hostPaths]. *)
Definition grouped (g : list string * gmap string (list PathInfo)) : Prop :=
  NoDup g.1 ∧ ∀ h, h ∈ g.1 ↔ is_Some (g.2 !! h).

(** The paths of a grouping, host after host. *)
Definition flattenGroups (g : list string * gmap string (list PathInfo)) : list PathInfo :=
  flat_map (λ host, default [] (g.2 !! host)) g.1.

(** One turn of the loop of [groupByHost]. *)
Definition groupStep (acc : list string * gmap string (list PathInfo)) (p : PathInfo)
    : list string * gmap string (list PathInfo) :=
  ((if decide (is_Some (acc.2 !! Host p)) then acc.1 else (acc.1 ++ [Host p])%list),
   <[Host p := (default [] (acc.2 !! Host p) ++ [p])%list]> acc.2).

(** Two annotation maps that differ at most at proxy-connect-timeout. *)
Definition sameButConnectTimeout (a1 a2 : gmap string string) : Prop :=
  ∀ k, k ≠ "proxy-connect-timeout" → a1 !! k = a2 !! k.

(** [ing] with other controller annotations. *)
Definition withNginxAnnotations (ing : IngressInfo)
    (annotations : gmap string string) : IngressInfo :=
  {| Namespace := Namespace ing; Name := Name ing; IngressClass := IngressClass ing;
     Hosts := Hosts ing; Paths := Paths ing; TLSEnabled := TLSEnabled ing;
     TLSSecrets := TLSSecrets ing; Annotations := Annotations ing;
     NginxAnnotations := annotations; Services := Services ing;
     Complexity := Complexity ing |}.

(** [info] with other services. *)
Definition withServices (info : IngressInfo) (services : list ServiceRef) : IngressInfo :=
  {| Namespace := Namespace info; Name := Name info; IngressClass := IngressClass info;
     Hosts := Hosts info; Paths := Paths info; TLSEnabled := TLSEnabled info;
     TLSSecrets := TLSSecrets info; Annotations := Annotations info;
     NginxAnnotations := NginxAnnotations info; Services := services;
     Complexity := Complexity info |}.

End manifest.

(** ** Concrete routes and scans the statements are tried on *)

Module examples.

Definition noController : ControllerInfo :=
  {| Detected := false; Type_ := EmptyString; Version := EmptyString;
     ControllerNamespace := EmptyString; PodName := EmptyString |}.

Definition payPath : PathInfo :=
  {| Host := "shop.example.com"; Path := "/pay"; PathType := "Prefix";
     ServiceName := "pay"; ServicePort := 8080 |}.

(** The route [shop/checkout] with the given TLS secrets, controller
    annotations and full annotation map. *)
Definition checkoutWith (secrets : list string)
    (nginx all : list (string * string)) : IngressInfo :=
  {| Namespace := "shop"; Name := "checkout"; IngressClass := "nginx";
     Hosts := ["shop.example.com"]; Paths := [payPath];
     TLSEnabled := bool_decide (secrets ≠ []); TLSSecrets := secrets;
     Annotations := list_to_map all;
     NginxAnnotations := list_to_map nginx;
     Services := []; Complexity := "simple" |}.

Definition scanOf (ings : list IngressInfo) : ScanResult :=
  {| ClusterName := "demo"; Controller := noController;
     Ingresses := ings; Namespaces := ["shop"] |}.

(** HTTPS redirect and a rate limit, served over TLS. *)
Definition redirectAnnotations : list (string * string) :=
  [("ssl-redirect", "true"); ("limit-rps", "50")].
Definition checkout : IngressInfo := checkoutWith ["shop-tls"] redirectAnnotations [].

(** The same route without a TLS secret: no HTTPS listener is generated
    for its host. *)
Definition checkoutNoTLS : IngressInfo := checkoutWith [] redirectAnnotations [].

(** A supported annotation next to an unsupported one. *)
Definition snippetAnnotations : list (string * string) :=
  [("ssl-redirect", "true"); ("configuration-snippet", "more_set_headers X-A;")].
Definition snippetRoute : IngressInfo := checkoutWith [] snippetAnnotations [].

(** Both timeout annotations. *)
Definition timeoutAnnotations : list (string * string) :=
  [("proxy-read-timeout", "300"); ("proxy-connect-timeout", "5")].
Definition timeoutRoute : IngressInfo := checkoutWith [] timeoutAnnotations [].

(** Two annotations that are not the controller's own: the Traefik
    synthesizer keeps them in the updated Ingress. *)
Definition keptAnnotations : list (string * string) :=
  [("cert-manager.io/cluster-issuer", "letsencrypt");
   ("kubernetes.io/tls-acme", "true")].
Definition labelledRoute : IngressInfo := checkoutWith [] [] keptAnnotations.

(** An Ingress as the API server returns it: two rules, the host of the
    second first in byte order, a TLS secret, one annotation of the
    controller and one of cert-manager. *)
Definition legacyAnnotations : list (string * string) :=
  [("nginx.ingress.kubernetes.io/rewrite-target", "/");
   ("cert-manager.io/cluster-issuer", "letsencrypt")].

Definition legacyIngress : networkingv1.Ingress :=
  {| networkingv1.Namespace := "shop";
     networkingv1.Name := "checkout";
     networkingv1.Annotations := list_to_map legacyAnnotations;
     networkingv1.Spec :=
       {| networkingv1.IngressClassName := Some "nginx";
          networkingv1.TLS := [{| networkingv1.SecretName := "shop-tls" |}];
          networkingv1.Rules :=
            [{| networkingv1.Host := "shop.example.com";
                networkingv1.HTTP :=
                  Some [{| networkingv1.Path := "/pay";
                           networkingv1.PathType := Some "Prefix";
                           networkingv1.Backend :=
                             {| networkingv1.Service :=
                                  Some {| networkingv1.ServiceName := "pay";
                                          networkingv1.Port :=
                                            {| networkingv1.Number := 8080 |} |} |} |}] |};
             {| networkingv1.Host := "api.example.com";
                networkingv1.HTTP := None |}] |} |}.

Definition legacyHosts : list (string * bool) :=
  [("shop.example.com", true); ("api.example.com", true)].

(** What [parseIngress] returns for it when the maps are visited in the
    given orders. *)
Definition legacyInfoOver (hostOrder : list (string * bool))
    (annOrder : list (string * string)) : IngressInfo :=
  parseIngressOver legacyIngress hostOrder
    [("shop/pay", {| RefNamespace := "shop"; RefName := "pay"; RefPort := 8080 |})]
    annOrder "complex".

(** A second route, in another namespace: external authentication, an
    allow list and both rate limits. *)
Definition billingNginx : list (string * string) :=
  [("auth-url", "https://auth.example.com/check");
   ("whitelist-source-range", "10.0.0.0/8, 192.168.0.0/16");
   ("limit-rps", "20");
   ("limit-rpm", "600")].

Definition billingAll : list (string * string) :=
  [("nginx.ingress.kubernetes.io/auth-url", "https://auth.example.com/check");
   ("nginx.ingress.kubernetes.io/whitelist-source-range", "10.0.0.0/8, 192.168.0.0/16");
   ("nginx.ingress.kubernetes.io/limit-rps", "20");
   ("nginx.ingress.kubernetes.io/limit-rpm", "600");
   ("cert-manager.io/cluster-issuer", "letsencrypt")].

Definition billing : IngressInfo :=
  {| Namespace := "billing"; Name := "invoices"; IngressClass := "nginx";
     Hosts := ["billing.example.com"];
     Paths := [{| Host := "billing.example.com"; Path := "/"; PathType := "Prefix";
                  ServiceName := "invoices"; ServicePort := 8443 |}];
     TLSEnabled := true; TLSSecrets := ["billing-tls"];
     Annotations := list_to_map billingAll;
     NginxAnnotations := list_to_map billingNginx;
     Services := []; Complexity := "complex" |}.

(** The route shop/checkout after the migration to Traefik: it carries the
    middleware annotation. *)
Definition migratedRoute : IngressInfo :=
  checkoutWith ["shop-tls"] []
    [("traefik.ingress.kubernetes.io/router.middlewares",
      "shop-checkout-ratelimit@kubernetescrd")].

(** A cluster without a pod of any target controller. *)
Definition noPods : server.PodLister := λ _ _, Some [].

(** A cluster in which Traefik runs in the namespace [traefik]. *)
Definition traefikPods : server.PodLister :=
  λ ns selector,
    if String.eqb ns "traefik" && String.eqb selector "app.kubernetes.io/name=traefik"
    then Some [{| server.PodPhase := "Running";
                  server.Images := ["docker.io/traefik:v3.1"] |}]
    else Some [].

End examples.

(** * Theorems *)

(** ** Facts about the Go helpers *)

Section GoFacts.


(** A map written as a list of distinct keys may be ranged over in any
    order of that list. *)
Lemma MapRange_list_to_map {V} (l l' : list (string * V)) :
  NoDup l.*1 → l' ≡ₚ l → MapRange (list_to_map l) l'.
Proof.
  intros Hnd Hp. unfold MapRange. rewrite Hp. symmetry.
  by apply map_to_list_to_map.
Qed.


Lemma append_assoc (s1 s2 s3 : string) : (s1 +:+ s2) +:+ s3 = s1 +:+ (s2 +:+ s3).
Proof.
  induction s1 as [|c s1 IH]; [reflexivity|].
  change (String c ((s1 +:+ s2) +:+ s3) = String c (s1 +:+ (s2 +:+ s3))).
  by rewrite IH.
Qed.

Lemma append_nil_r (s : string) : s +:+ EmptyString = s.
Proof.
  induction s as [|c s IH]; [reflexivity|].
  change (String c (s +:+ EmptyString) = String c s). by rewrite IH.
Qed.

End GoFacts.

(** ** The validation phase *)


(** ** The classifier *)

Section Classifier.

Variable target : string.

Local Abbreviation mappingOf := (analyzer.mappingOf target).

(** What the loop of [analyzeIngress] has computed after [kvs]. *)
Lemma analyzeIngress_loop (kvs : list (string * string)) (st : ingressLoop) :
  let st' := foldl (analyzeIngressStep target) st kvs in
  loopMappings st' = (loopMappings st ++ map mappingOf kvs)%list
  ∧ hasUnsupported st' =
      hasUnsupported st
      || existsb (λ kv, String.eqb (Status (mappingOf kv)) StatusUnsupported) kvs
  ∧ hasPartial st' =
      hasPartial st
      || existsb (λ kv, String.eqb (Status (mappingOf kv)) StatusPartial) kvs.
Proof.
  revert st. induction kvs as [|kv kvs IH]; intros st; simpl.
  - rewrite app_nil_r, !orb_false_r. done.
  - destruct (IH (analyzeIngressStep target st kv)) as (Hm & Hu & Hp).
    rewrite Hm, Hu, Hp. unfold analyzeIngressStep. simpl.
    change (MapAnnotation kv.1 kv.2 target) with (mappingOf kv). split_and!.
    + by rewrite <- app_assoc.
    + destruct (String.eqb (Status (mappingOf kv)) StatusUnsupported);
        by rewrite ?orb_true_r, ?orb_false_r, ?orb_true_l.
    + destruct (String.eqb (Status (mappingOf kv)) StatusUnsupported) eqn:Hu'.
      * apply String.eqb_eq in Hu'. rewrite Hu'.
        change (String.eqb StatusUnsupported StatusPartial) with false.
        by rewrite orb_false_l.
      * destruct (String.eqb (Status (mappingOf kv)) StatusPartial);
          by rewrite ?orb_true_r, ?orb_false_r, ?orb_true_l.
Qed.

Lemma analyzeIngressOver_mappings ing kvs :
  Mappings (analyzeIngressOver target ing kvs) = map mappingOf kvs.
Proof.
  unfold analyzeIngressOver. simpl.
  by destruct (analyzeIngress_loop kvs
    {| loopMappings := []; hasUnsupported := false; hasPartial := false |}) as (-> & _).
Qed.

Lemma existsb_status (s : string) (kvs : list (string * string)) :
  existsb (λ kv, String.eqb (Status (mappingOf kv)) s) kvs = true
  ↔ Exists (λ m, Status m = s) (map mappingOf kvs).
Proof.
  rewrite existsb_exists, Exists_exists. split.
  - intros (kv & Hin & Heq). exists (mappingOf kv). split.
    + apply list_elem_of_fmap. exists kv. split; [done|]. by apply list_elem_of_In.
    + by apply String.eqb_eq.
  - intros (m & Hin & Heq). apply list_elem_of_fmap in Hin as (kv & -> & Hin).
    exists kv. split; [by apply list_elem_of_In|]. by apply String.eqb_eq.
Qed.

Lemma analyzeIngressOver_status ing kvs :
  OverallStatus (analyzeIngressOver target ing kvs) =
    if decide (Exists (λ m, Status m = StatusUnsupported) (map mappingOf kvs))
    then "breaking"
    else if decide (Exists (λ m, Status m = StatusPartial) (map mappingOf kvs))
    then "workaround"
    else "ready".
Proof.
  unfold analyzeIngressOver. simpl.
  destruct (analyzeIngress_loop kvs
    {| loopMappings := []; hasUnsupported := false; hasPartial := false |})
    as (_ & -> & ->).
  simpl.
  rewrite (eq_true_iff_eq _ (bool_decide _)
             (iff_trans (existsb_status StatusUnsupported kvs)
                        (iff_sym (bool_decide_eq_true _)))).
  rewrite (eq_true_iff_eq _ (bool_decide _)
             (iff_trans (existsb_status StatusPartial kvs)
                        (iff_sym (bool_decide_eq_true _)))).
  unfold bool_decide, decide. by repeat destruct (Exists_dec _ _).
Qed.

End Classifier.

(** C2: the overall status of a route is breaking when one of its mappings
    is unsupported, else workaround when one is partial, else ready; and the
    mappings are those of the annotations of the route, one for each. *)
Theorem overallStatus_precedence (target : string) (ing : IngressInfo) (ir : IngressReport) :
  analyzeIngress target ing ir →
  OverallStatus ir =
    (if decide (Exists (λ m, Status m = StatusUnsupported) (Mappings ir)) then "breaking"
     else if decide (Exists (λ m, Status m = StatusPartial) (Mappings ir)) then "workaround"
     else "ready")
  ∧ Mappings ir ≡ₚ map (mappingOf target) (map_to_list (NginxAnnotations ing)).
Proof.
  intros [kvs Hrange]. rewrite analyzeIngressOver_mappings. split.
  - apply analyzeIngressOver_status.
  - by apply fmap_Permutation.
Qed.

Lemma overallStatus_precedence_witness :
  let ir := analyzeIngressOver "gateway-api" examples.snippetRoute examples.snippetAnnotations in
  OverallStatus ir =
    (if decide (Exists (λ m, Status m = StatusUnsupported) (Mappings ir)) then "breaking"
     else if decide (Exists (λ m, Status m = StatusPartial) (Mappings ir)) then "workaround"
     else "ready")
  ∧ Mappings ir ≡ₚ map (mappingOf "gateway-api")
                     (map_to_list (NginxAnnotations examples.snippetRoute)).
Proof.
  apply (overallStatus_precedence "gateway-api" examples.snippetRoute).
  constructor. apply MapRange_list_to_map; [compute_done | reflexivity].
Defined.

(** ** The fleet summary *)

Section Summary.

(** The number of reports with a given overall status. *)
Local Abbreviation countOverall s irs :=
  (Z.of_nat (List.length (filter (λ ir, OverallStatus ir = s) irs))).

Lemma analyzeIngressOver_overall target ing kvs :
  OverallStatus (analyzeIngressOver target ing kvs) ∈ overallStatuses.
Proof.
  unfold analyzeIngressOver, overallStatuses. simpl.
  destruct (hasUnsupported _); [set_solver|].
  destruct (hasPartial _); set_solver.
Qed.

Lemma countOverall_total (irs : list IngressReport) :
  Forall (λ ir, OverallStatus ir ∈ overallStatuses) irs →
  Z.of_nat (List.length irs) =
    countOverall "ready" irs + countOverall "workaround" irs + countOverall "breaking" irs.
Proof.
  induction 1 as [|ir irs Hir _ IH]; [reflexivity|].
  rewrite !filter_cons. simpl List.length. rewrite Nat2Z.inj_succ, IH.
  unfold overallStatuses in Hir.
  apply elem_of_cons in Hir as [->|Hir]; [|apply elem_of_cons in Hir as [->|Hir]];
    [| |apply list_elem_of_singleton in Hir as ->];
    repeat case_decide; try done; cbn [List.length]; lia.
Qed.

Lemma countStatus_counts (s : Summary) (overall : string) :
  let s' := countStatus s overall in
  Total s' = Total s + 1
  ∧ FullyCompatible s' = FullyCompatible s + (if decide (overall = "ready") then 1 else 0)
  ∧ NeedsWorkaround s' = NeedsWorkaround s + (if decide (overall = "workaround") then 1 else 0)
  ∧ HasUnsupported s' = HasUnsupported s + (if decide (overall = "breaking") then 1 else 0).
Proof.
  unfold countStatus.
  destruct (String.eqb_spec overall "ready") as [->|H1]; simpl.
  { repeat case_decide; try discriminate; try congruence. lia. }
  destruct (String.eqb_spec overall "workaround") as [->|H2]; simpl.
  { repeat case_decide; try discriminate; try congruence. lia. }
  destruct (String.eqb_spec overall "breaking") as [->|H3]; simpl.
  { repeat case_decide; try discriminate; try congruence. lia. }
  repeat case_decide; try congruence. lia.
Qed.

(** What the loop of [Analyze] has computed after the reports [irs]. *)
Lemma Analyze_loop (irs : list IngressReport) (r : AnalysisReport) :
  let r' := foldl AnalyzeStep r irs in
  Target r' = Target r
  ∧ IngressReports r' = (IngressReports r ++ irs)%list
  ∧ Total (ReportSummary r') = Total (ReportSummary r) + Z.of_nat (List.length irs)
  ∧ FullyCompatible (ReportSummary r') =
      FullyCompatible (ReportSummary r) + countOverall "ready" irs
  ∧ NeedsWorkaround (ReportSummary r') =
      NeedsWorkaround (ReportSummary r) + countOverall "workaround" irs
  ∧ HasUnsupported (ReportSummary r') =
      HasUnsupported (ReportSummary r) + countOverall "breaking" irs.
Proof.
  revert r. induction irs as [|ir irs IH]; intros r; simpl.
  - rewrite app_nil_r. split_and!; try done; lia.
  - destruct (IH (AnalyzeStep r ir)) as (Ht & Hr & HT & HF & HN & HH).
    destruct (countStatus_counts (ReportSummary r) (OverallStatus ir))
      as (HT' & HF' & HN' & HH').
    rewrite Ht, Hr, HT, HF, HN, HH. unfold AnalyzeStep at 1 2 3 4 5 6. simpl.
    rewrite HT', HF', HN', HH', !filter_cons.
    split_and!; [done|by rewrite <- app_assoc|..];
      repeat case_decide; simpl List.length; lia.
Qed.

End Summary.

(** C10: in every report of [Analyze] the total is the number of route
    reports, every route report is ready, workaround or breaking, the three
    other counters count the reports of each status, and so add up to the
    total. *)
Theorem summary_total (target : string) (scan : ScanResult) (report : AnalysisReport) :
  Analyze target scan report →
  let s := ReportSummary report in
  let irs := IngressReports report in
  Total s = Z.of_nat (List.length irs)
  ∧ Total s = FullyCompatible s + NeedsWorkaround s + HasUnsupported s
  ∧ Forall (λ ir, OverallStatus ir ∈ overallStatuses) irs
  ∧ FullyCompatible s = Z.of_nat (List.length (filter (λ ir, OverallStatus ir = "ready") irs))
  ∧ NeedsWorkaround s = Z.of_nat (List.length (filter (λ ir, OverallStatus ir = "workaround") irs))
  ∧ HasUnsupported s = Z.of_nat (List.length (filter (λ ir, OverallStatus ir = "breaking") irs))
  ∧ List.length irs = List.length (Ingresses scan).
Proof.
  intros [orders Hranges]. unfold AnalyzeOver.
  set (irs := zip_with (analyzeIngressOver target) (Ingresses scan) orders).
  destruct (Analyze_loop irs (emptyReport target)) as (_ & Hr & HT & HF & HN & HH).
  simpl in *. rewrite Hr, HT, HF, HN, HH.
  assert (Hvalid : Forall (λ ir, OverallStatus ir ∈ overallStatuses) irs).
  { apply Forall_forall. intros ir Hin. unfold irs in Hin.
    apply elem_of_lookup_zip_with in Hin as (? & ing & kvs & -> & _ & _).
    apply analyzeIngressOver_overall. }
  split_and!; try done; try lia.
  - rewrite (countOverall_total irs Hvalid). lia.
  - unfold irs. rewrite length_zip_with.
    apply Forall2_length in Hranges. lia.
Qed.

Lemma summary_total_witness :
  let report := AnalyzeOver "traefik"
                  (examples.scanOf [examples.checkout; examples.snippetRoute])
                  [examples.redirectAnnotations; examples.snippetAnnotations] in
  let s := ReportSummary report in
  let irs := IngressReports report in
  Total s = Z.of_nat (List.length irs)
  ∧ Total s = FullyCompatible s + NeedsWorkaround s + HasUnsupported s
  ∧ Forall (λ ir, OverallStatus ir ∈ overallStatuses) irs
  ∧ FullyCompatible s = Z.of_nat (List.length (filter (λ ir, OverallStatus ir = "ready") irs))
  ∧ NeedsWorkaround s = Z.of_nat (List.length (filter (λ ir, OverallStatus ir = "workaround") irs))
  ∧ HasUnsupported s = Z.of_nat (List.length (filter (λ ir, OverallStatus ir = "breaking") irs))
  ∧ List.length irs =
      List.length (Ingresses (examples.scanOf [examples.checkout; examples.snippetRoute])).
Proof.
  refine (summary_total "traefik"
            (examples.scanOf [examples.checkout; examples.snippetRoute])
            (AnalyzeOver "traefik"
               (examples.scanOf [examples.checkout; examples.snippetRoute])
               [examples.redirectAnnotations; examples.snippetAnnotations]) _).
  constructor.
  repeat (apply List.Forall2_cons; [apply MapRange_list_to_map; [compute_done | reflexivity]|]).
  apply List.Forall2_nil.
Defined.

(** ** An unknown target *)

Section UnknownTarget.

Variable target : string.
Hypothesis not_traefik : target ≠ "traefik".
Hypothesis not_gateway_api : target ≠ "gateway-api".



End UnknownTarget.




(** ** The order of the mappings *)

Section MappingOrder.

Local Abbreviation rank m := (web.sortOrder (Status m)).
Local Abbreviation ranked k l := (filter (λ m : AnnotationMapping, rank m = k) l).














End MappingOrder.




(** ** The Gateway API synthesizer: path matches *)

Section PathMatch.

Import manifest.



End PathMatch.




(** ** The Gateway API synthesizer: timeouts *)

Section Timeouts.

Import manifest.

Variable Quote : string → string.

Variables a1 a2 : gmap string string.
Hypothesis same : sameButConnectTimeout a1 a2.

Ltac same_at k :=
  let H := fresh in
  assert (H : a1 !! k = a2 !! k) by (apply same; discriminate);
  unfold index, has, gatewayapi.getAnnotation; rewrite ?H; clear H.

Lemma buildTimeouts_same : gatewayapi.buildTimeouts a1 = gatewayapi.buildTimeouts a2.
Proof. unfold gatewayapi.buildTimeouts. by same_at "proxy-read-timeout". Qed.

Lemma buildCORSFilter_same : gatewayapi.buildCORSFilter a1 = gatewayapi.buildCORSFilter a2.
Proof.
  unfold gatewayapi.buildCORSFilter.
  same_at "cors-allow-origin". same_at "cors-allow-methods".
  same_at "cors-allow-headers". by same_at "cors-allow-credentials".
Qed.

Lemma buildBackendFilters_same :
  gatewayapi.buildBackendFilters a1 = gatewayapi.buildBackendFilters a2.
Proof.
  unfold gatewayapi.buildBackendFilters. rewrite buildCORSFilter_same.
  same_at "rewrite-target". same_at "use-regex". same_at "enable-cors".
  by same_at "custom-headers".
Qed.

Lemma buildHeaderMatches_same :
  gatewayapi.buildHeaderMatches a1 = gatewayapi.buildHeaderMatches a2.
Proof.
  unfold gatewayapi.buildHeaderMatches.
  same_at "canary-by-header". by same_at "canary-by-header-value".
Qed.

Lemma buildPathMatch_same p :
  gatewayapi.buildPathMatch p a1 = gatewayapi.buildPathMatch p a2.
Proof. unfold gatewayapi.buildPathMatch. by same_at "use-regex". Qed.

Lemma matchSection_same p :
  gatewayapi.matchSection p a1 = gatewayapi.matchSection p a2.
Proof.
  unfold gatewayapi.matchSection.
  by rewrite buildPathMatch_same, buildHeaderMatches_same.
Qed.

Lemma generateHTTPRoute_same ing gw gns h2s :
  gatewayapi.generateHTTPRoute Quote (withNginxAnnotations ing a1) gw gns h2s =
  gatewayapi.generateHTTPRoute Quote (withNginxAnnotations ing a2) gw gns h2s.
Proof.
  assert (Hbackend :
    gatewayapi.generateSingleHTTPRoute Quote (withNginxAnnotations ing a1) gw gns =
    gatewayapi.generateSingleHTTPRoute Quote (withNginxAnnotations ing a2) gw gns).
  { unfold gatewayapi.generateSingleHTTPRoute, gatewayapi.buildBackendOnlyRules,
      gatewayapi.backendOnlyRules. simpl.
    rewrite buildBackendFilters_same, buildTimeouts_same.
    same_at "canary". same_at "canary-weight".
    by rewrite (map_ext _ _ (λ p, f_equal (λ m, m +:+ _) (matchSection_same p))). }
  unfold gatewayapi.generateHTTPRoute, gatewayapi.generateSplitHTTPRoutes,
    gatewayapi.buildRedirectOnlyRules, gatewayapi.redirectOnlyRules.
  rewrite Hbackend. simpl.
  same_at "ssl-redirect". same_at "force-ssl-redirect".
  by rewrite (map_ext _ _ (λ p, f_equal (λ m, m +:+ _) (matchSection_same p))).
Qed.

End Timeouts.

(** C4, as the code has it: on a route that carries both timeout
    annotations, the timeouts block is the backendRequest timeout of
    proxy-read-timeout and nothing else (no block at all when that value is
    empty), and proxy-connect-timeout is dropped without a trace: the text
    of the HTTPRoute file does not depend on it, any other value for it, or
    none, gives the same file.  The explanation of the drop is a comment in
    the source of [buildTimeouts], not a part of what is written. *)
Theorem timeouts_backendRequest_only (Quote : string → string) (ing : IngressInfo)
    (readTimeout connectTimeout : string) :
  NginxAnnotations ing !! "proxy-read-timeout" = Some readTimeout →
  NginxAnnotations ing !! "proxy-connect-timeout" = Some connectTimeout →
  gatewayapi.buildTimeouts (NginxAnnotations ing) =
    (if decide (readTimeout = EmptyString) then EmptyString
     else cat ["    timeouts:"; nl; "      backendRequest: "; readTimeout; "s"; nl])
  ∧ (∀ gw gns h2s other,
       gatewayapi.generateHTTPRoute Quote
         (manifest.withNginxAnnotations ing
            (<["proxy-connect-timeout" := other]> (NginxAnnotations ing))) gw gns h2s
       = gatewayapi.generateHTTPRoute Quote ing gw gns h2s)
  ∧ (∀ gw gns h2s,
       gatewayapi.generateHTTPRoute Quote
         (manifest.withNginxAnnotations ing
            (delete "proxy-connect-timeout" (NginxAnnotations ing))) gw gns h2s
       = gatewayapi.generateHTTPRoute Quote ing gw gns h2s).
Proof.
  intros Hread Hconnect.
  assert (Hing : manifest.withNginxAnnotations ing (NginxAnnotations ing) = ing)
    by by destruct ing.
  split_and!.
  - unfold gatewayapi.buildTimeouts, index. rewrite Hread. simpl.
    destruct (String.eqb_spec readTimeout EmptyString); by case_decide.
  - intros gw gns h2s other. rewrite <- Hing at 3.
    apply generateHTTPRoute_same. intros k Hk. by rewrite lookup_insert_ne.
  - intros gw gns h2s. rewrite <- Hing at 3.
    apply generateHTTPRoute_same. intros k Hk. by rewrite lookup_delete_ne.
Qed.

Lemma timeouts_backendRequest_only_witness :
  gatewayapi.buildTimeouts (NginxAnnotations examples.timeoutRoute) =
    (if decide ("300" = EmptyString) then EmptyString
     else cat ["    timeouts:"; nl; "      backendRequest: "; "300"; "s"; nl])
  ∧ (∀ gw gns h2s other,
       gatewayapi.generateHTTPRoute quoteASCII
         (manifest.withNginxAnnotations examples.timeoutRoute
            (<["proxy-connect-timeout" := other]> (NginxAnnotations examples.timeoutRoute)))
         gw gns h2s
       = gatewayapi.generateHTTPRoute quoteASCII examples.timeoutRoute gw gns h2s)
  ∧ (∀ gw gns h2s,
       gatewayapi.generateHTTPRoute quoteASCII
         (manifest.withNginxAnnotations examples.timeoutRoute
            (delete "proxy-connect-timeout" (NginxAnnotations examples.timeoutRoute)))
         gw gns h2s
       = gatewayapi.generateHTTPRoute quoteASCII examples.timeoutRoute gw gns h2s).
Proof.
  refine (timeouts_backendRequest_only quoteASCII examples.timeoutRoute "300" "5" _ _);
    by vm_compute.
Defined.

(** C4, counterexample: the route shop/checkout with proxy-read-timeout 300
    and proxy-connect-timeout 5.  Every file [Migrate] writes for it is the
    file written for the same route without proxy-connect-timeout, no file
    mentions that annotation, and the HTTPRoute file is the text below: the
    annotation is dropped and no note says so. *)
Lemma connect_timeout_dropped_without_note :
  let ing := examples.timeoutRoute in
  let without :=
    manifest.withNginxAnnotations ing
      (delete "proxy-connect-timeout" (NginxAnnotations ing)) in
  let files := gatewayapi.Migrate quoteASCII (examples.scanOf [ing]) in
  NginxAnnotations ing !! "proxy-read-timeout" = Some "300"
  ∧ NginxAnnotations ing !! "proxy-connect-timeout" = Some "5"
  ∧ NginxAnnotations without !! "proxy-connect-timeout" = None
  ∧ files = gatewayapi.Migrate quoteASCII (examples.scanOf [without])
  ∧ forallb (λ f, negb (Contains (Content f) "proxy-connect-timeout")) files = true
  ∧ map Content (filter (λ f, Category f = "httproute") files) =
      [cat ["apiVersion: gateway.networking.k8s.io/v1"; nl;
            "kind: HTTPRoute"; nl;
            "metadata:"; nl;
            "  name: checkout"; nl;
            "  namespace: shop"; nl;
            "spec:"; nl;
            "  parentRefs:"; nl;
            "  - name: ing-switch-gateway"; nl;
            "    namespace: default"; nl;
            "  hostnames:"; nl;
            "  - "; dq; "shop.example.com"; dq; nl;
            "  rules:"; nl;
            "  - matches:"; nl;
            "    - path:"; nl;
            "        type: PathPrefix"; nl;
            "        value: "; dq; "/pay"; dq; nl;
            "    backendRefs:"; nl;
            "    - name: pay"; nl;
            "      port: 8080"; nl;
            "    timeouts:"; nl;
            "      backendRequest: 300s"; nl]].
Proof. split_and!; vm_compute; reflexivity. Qed.

(** ** The Gateway API synthesizer: the redirect route and the backend route *)

Section SplitRoutes.

Import manifest.

Variable Quote : string → string.

(** Brings a text built with [cat] and [+:+] to one right-nested chain. *)
Ltac chain := cbn [cat]; rewrite ?append_assoc, ?append_nil_r.

Lemma redirect_rule_render (annotations : gmap string string) (statusCode : Z) (p : PathInfo) :
  gatewayapi.matchSection p annotations +:+ gatewayapi.redirectFilters statusCode =
    renderRule (redirectRule annotations statusCode p).
Proof.
  unfold renderRule, redirectRule, gatewayapi.redirectFilters, Join. simpl.
  chain. reflexivity.
Qed.

Lemma backend_rule_render (annotations : gmap string string) (p : PathInfo) :
  cat [gatewayapi.matchSection p annotations;
       if (0 <? List.length (gatewayapi.buildBackendFilters annotations))%nat
       then "    filters:" +:+ nl +:+ Join (gatewayapi.buildBackendFilters annotations) EmptyString
       else EmptyString;
       gatewayapi.buildBackendRefs p (String.eqb (index annotations "canary") "true")
         (index annotations "canary-weight");
       gatewayapi.buildTimeouts annotations]
  = renderRule (backendRule annotations p).
Proof.
  unfold renderRule, backendRule. simpl.
  destruct (gatewayapi.buildBackendFilters annotations) as [|f fs]; simpl; chain; reflexivity.
Qed.

Lemma redirect_rules_render (ing : IngressInfo) (statusCode : Z) :
  gatewayapi.buildRedirectOnlyRules ing statusCode =
    Join (map renderRule
            (map (redirectRule (NginxAnnotations ing) statusCode)
               (gatewayapi.pathsInHostOrder (Paths ing)))) EmptyString.
Proof.
  unfold gatewayapi.buildRedirectOnlyRules, gatewayapi.redirectOnlyRules.
  rewrite map_map. f_equal. apply map_ext. intros p. apply redirect_rule_render.
Qed.

Lemma backend_rules_render (ing : IngressInfo) :
  gatewayapi.buildBackendOnlyRules ing (NginxAnnotations ing) =
    Join (map renderRule
            (map (backendRule (NginxAnnotations ing))
               (gatewayapi.pathsInHostOrder (Paths ing)))) EmptyString.
Proof.
  unfold gatewayapi.buildBackendOnlyRules, gatewayapi.backendOnlyRules.
  rewrite map_map. f_equal. apply map_ext. intros p.
  rewrite <- backend_rule_render. chain. reflexivity.
Qed.

(** [generateSingleHTTPRoute] writes the backend object, bound to the
    section it is given unless that is the empty string. *)
Lemma single_route_render (ing : IngressInfo) (gw gns sectionName : string) :
  gatewayapi.generateSingleHTTPRoute Quote ing gw gns sectionName =
    renderRoute (backendObject Quote ing gw gns
                   (if String.eqb sectionName EmptyString then None else Some sectionName)).
Proof.
  unfold gatewayapi.generateSingleHTTPRoute, renderRoute, backendObject.
  rewrite backend_rules_render.
  destruct (String.eqb sectionName EmptyString); simpl; chain; reflexivity.
Qed.

End SplitRoutes.

Section Sections.

Import manifest.

Lemma foldl_preserves {A B} (f : A → B → A) (P : A → Prop) (l : list B) (a : A) :
  (∀ a b, P a → P (f a b)) → P a → P (foldl f a l).
Proof. intros Hstep. revert a. induction l as [|b l IH]; simpl; auto. Qed.

Lemma recordSecret_names ing st :
  listenerNames st → listenerNames (gatewayapi.recordSecret ing st).
Proof.
  intros Hst h s. unfold gatewayapi.recordSecret. simpl.
  destruct (Hosts ing) as [|h0 hs]; [apply Hst|].
  destruct (decide (h0 = h)) as [->|Hne].
  - rewrite lookup_insert_eq. intros [= <-]. by eexists.
  - rewrite lookup_insert_ne by done. apply Hst.
Qed.

Lemma recordSecret_keeps ing st h :
  is_Some (st.1 !! h) → is_Some ((gatewayapi.recordSecret ing st).1 !! h).
Proof.
  unfold gatewayapi.recordSecret. simpl. destruct (Hosts ing) as [|h0 hs]; [done|].
  intros Hh. destruct (decide (h0 = h)) as [->|Hne].
  - rewrite lookup_insert_eq. by eexists.
  - by rewrite lookup_insert_ne.
Qed.

Lemma recordIngress_names st ing :
  listenerNames st → listenerNames (gatewayapi.recordIngress st ing).
Proof.
  unfold gatewayapi.recordIngress. destruct (_ && _); [|done].
  apply (foldl_preserves (λ st' _, gatewayapi.recordSecret ing st') listenerNames).
  intros a _. apply recordSecret_names.
Qed.

Lemma recordIngress_keeps st ing h :
  is_Some (st.1 !! h) → is_Some ((gatewayapi.recordIngress st ing).1 !! h).
Proof.
  unfold gatewayapi.recordIngress. destruct (_ && _); [|done].
  apply (foldl_preserves (λ st' _, gatewayapi.recordSecret ing st')
           (λ st', is_Some (st'.1 !! h))).
  intros a _. apply recordSecret_keeps.
Qed.

Lemma recordIngress_records st ing h hs :
  TLSEnabled ing = true → TLSSecrets ing ≠ [] → Hosts ing = h :: hs →
  is_Some ((gatewayapi.recordIngress st ing).1 !! h).
Proof.
  intros Htls Hsecrets Hhosts. unfold gatewayapi.recordIngress. rewrite Htls.
  destruct (TLSSecrets ing) as [|secret secrets]; [done|]. simpl.
  apply (foldl_preserves (λ st' _, gatewayapi.recordSecret ing st')
           (λ st', is_Some (st'.1 !! h))).
  - intros a _. apply recordSecret_keeps.
  - unfold gatewayapi.recordSecret. rewrite Hhosts. simpl.
    rewrite lookup_insert_eq. by eexists.
Qed.

Lemma buildHostnameToSection_names (scan : ScanResult) (h s : string) :
  gatewayapi.buildHostnameToSection scan !! h = Some s →
  ∃ n : Z, s = "https-" +:+ fmt_d n.
Proof.
  unfold gatewayapi.buildHostnameToSection.
  apply (foldl_preserves gatewayapi.recordIngress listenerNames).
  - intros a b. apply recordIngress_names.
  - intros h' s'. simpl. by rewrite lookup_empty.
Qed.

Lemma buildHostnameToSection_records (scan : ScanResult) (ing : IngressInfo) (h : string) hs :
  ing ∈ Ingresses scan →
  TLSEnabled ing = true → TLSSecrets ing ≠ [] → Hosts ing = h :: hs →
  is_Some (gatewayapi.buildHostnameToSection scan !! h).
Proof.
  intros Hin Htls Hsecrets Hhosts. unfold gatewayapi.buildHostnameToSection.
  generalize (∅ : gmap string string, 0). revert Hin.
  induction (Ingresses scan) as [|ing' ings IH]; intros Hin st; [by inversion Hin|].
  simpl. apply elem_of_cons in Hin as [<-|Hin]; [|by apply IH].
  apply (foldl_preserves gatewayapi.recordIngress (λ st', is_Some (st'.1 !! h))).
  - intros a b. apply recordIngress_keeps.
  - by eapply recordIngress_records.
Qed.

(** A route served over TLS is bound to a listener [https-N]. *)
Lemma httpsSection_tls (scan : ScanResult) (ing : IngressInfo) :
  ing ∈ Ingresses scan →
  TLSEnabled ing = true → TLSSecrets ing ≠ [] → Hosts ing ≠ [] →
  ∃ n : Z, httpsSection ing (gatewayapi.buildHostnameToSection scan)
           = Some ("https-" +:+ fmt_d n).
Proof.
  intros Hin Htls Hsecrets Hhosts. unfold httpsSection.
  destruct (Hosts ing) as [|h hs] eqn:Hh; [done|].
  destruct (buildHostnameToSection_records scan ing h hs Hin Htls Hsecrets Hh) as [s Hs].
  rewrite Hs. destruct (buildHostnameToSection_names scan h s Hs) as [n ->].
  by exists n.
Qed.

End Sections.

(** ** The rule builders visit every path of the route once *)

Section Grouping.

Import manifest.

Lemma flat_map_insert_fresh (hp : gmap string (list PathInfo)) (h : string)
    (v : list PathInfo) (order : list string) :
  h ∉ order →
  flat_map (λ host, default [] (<[h := v]> hp !! host)) order =
  flat_map (λ host, default [] (hp !! host)) order.
Proof.
  induction order as [|h' order IH]; intros Hnot; [reflexivity|]. simpl.
  apply not_elem_of_cons in Hnot as [Hne Hnot].
  by rewrite lookup_insert_ne, IH.
Qed.

Lemma flat_map_insert_snoc (hp : gmap string (list PathInfo)) (h : string)
    (old : list PathInfo) (p : PathInfo) (order : list string) :
  NoDup order → h ∈ order → hp !! h = Some old →
  flat_map (λ host, default [] (<[h := (old ++ [p])%list]> hp !! host)) order
  ≡ₚ p :: flat_map (λ host, default [] (hp !! host)) order.
Proof.
  induction order as [|h' order IH]; intros Hnd Hin Hold; [by inversion Hin|].
  apply NoDup_cons in Hnd as [Hnot Hnd]. simpl.
  destruct (decide (h = h')) as [<-|Hne].
  - rewrite lookup_insert_eq, Hold, flat_map_insert_fresh by done. simpl.
    rewrite <- app_assoc. simpl. symmetry. apply Permutation_middle.
  - rewrite lookup_insert_ne by done.
    apply elem_of_cons in Hin as [Heq|Hin]; [done|].
    rewrite (IH Hnd Hin Hold). by rewrite Permutation_middle.
Qed.

Lemma groupStep_grouped acc p :
  grouped acc →
  grouped (groupStep acc p) ∧ flattenGroups (groupStep acc p) ≡ₚ p :: flattenGroups acc.
Proof.
  intros [Hnd Hdom]. unfold groupStep, flattenGroups, grouped. simpl.
  case_decide as Hsome.
  - destruct Hsome as [old Hold]. rewrite Hold. simpl. split_and!.
    + done.
    + intros h. rewrite Hdom. destruct (decide (Host p = h)) as [<-|Hne].
      * rewrite lookup_insert_eq, Hold. split; by eexists.
      * by rewrite lookup_insert_ne.
    + apply flat_map_insert_snoc; [done| |done]. apply Hdom. by eexists.
  - assert (Hnot : Host p ∉ acc.1) by by rewrite Hdom.
    assert (Hnone : acc.2 !! Host p = None) by by apply eq_None_not_Some.
    rewrite Hnone. simpl. split_and!.
    + apply NoDup_app. split_and!; [done| |apply NoDup_singleton].
      intros h Hh Hh'. apply list_elem_of_singleton in Hh' as ->. done.
    + intros h. rewrite elem_of_app, list_elem_of_singleton, Hdom.
      destruct (decide (Host p = h)) as [<-|Hne].
      * rewrite lookup_insert_eq. split; [by eexists|by right].
      * rewrite lookup_insert_ne by done. split; [intros [?|?]; [done|congruence]|by left].
    + rewrite flat_map_app, flat_map_insert_fresh by done. simpl.
      rewrite lookup_insert_eq. simpl.
      by rewrite <- Permutation_cons_append.
Qed.

Lemma groupByHost_fold (paths : list PathInfo) acc :
  grouped acc →
  flattenGroups (foldl groupStep acc paths) ≡ₚ (flattenGroups acc ++ paths)%list.
Proof.
  revert acc. induction paths as [|p paths IH]; intros acc Hacc; simpl.
  - by rewrite app_nil_r.
  - destruct (groupStep_grouped acc p Hacc) as [Hacc' Hflat].
    rewrite (IH _ Hacc'), Hflat. simpl. apply Permutation_middle.
Qed.

(** The nested loops of the rule builders visit each path of the route
    once. *)
Lemma pathsInHostOrder_Permutation (paths : list PathInfo) :
  gatewayapi.pathsInHostOrder paths ≡ₚ paths.
Proof.
  unfold gatewayapi.pathsInHostOrder, gatewayapi.groupByHost.
  change (flattenGroups (foldl groupStep ([], ∅) paths) ≡ₚ paths).
  rewrite groupByHost_fold; [done|].
  split; [apply NoDup_nil_2|]. intros h. simpl. rewrite lookup_empty.
  split; [by inversion 1|by intros [? ?]].
Qed.

End Grouping.

Section SplitObjects.

Import manifest.

Lemma redirectRule_shape (annotations : gmap string string) (statusCode : Z) (p : PathInfo) :
  map filterType (ruleFilters (redirectRule annotations statusCode p)) = ["RequestRedirect"]
  ∧ hasBackendRefs (redirectRule annotations statusCode p) = false.
Proof. split; reflexivity. Qed.

Lemma buildBackendFilters_types (annotations : gmap string string) :
  Forall (λ f, filterType f ∈ ["URLRewrite"; "ResponseHeaderModifier"])
    (gatewayapi.buildBackendFilters annotations).
Proof.
  unfold gatewayapi.buildBackendFilters.
  assert (Hrewrite : ∀ target note,
            filterType (gatewayapi.urlRewriteFilter target note) = "URLRewrite")
    by reflexivity.
  assert (Hcors : filterType (gatewayapi.buildCORSFilter annotations) = "ResponseHeaderModifier")
    by reflexivity.
  assert (Hcustom : filterType gatewayapi.customHeadersFilter = "ResponseHeaderModifier")
    by reflexivity.
  destruct (annotations !! "rewrite-target") as [target|];
    [destruct (negb (String.eqb target EmptyString))|];
    destruct (String.eqb (index annotations "enable-cors") "true");
    destruct (has annotations "custom-headers"); simpl;
    repeat (apply Forall_cons; split; [rewrite ?Hrewrite, ?Hcors, ?Hcustom; set_solver|]);
    apply Forall_nil_2.
Qed.

Lemma backendRule_shape (annotations : gmap string string) (p : PathInfo) :
  hasBackendRefs (backendRule annotations p) = true
  ∧ Forall (λ f, filterType f ∈ ["URLRewrite"; "ResponseHeaderModifier"])
      (ruleFilters (backendRule annotations p)).
Proof.
  split; [|apply buildBackendFilters_types].
  unfold hasBackendRefs, backendRule, gatewayapi.buildBackendRefs. simpl.
  by destruct (_ && _).
Qed.

Variable Quote : string → string.

Lemma split_routes_render (ing : IngressInfo) (gw gns : string)
    (hostnameToSection : gmap string string) :
  gatewayapi.generateSplitHTTPRoutes Quote ing gw gns hostnameToSection =
    render [redirectObject Quote ing gw gns;
            backendObject Quote ing gw gns (httpsSection ing hostnameToSection)].
Proof.
  unfold gatewayapi.generateSplitHTTPRoutes.
  rewrite single_route_render, redirect_rules_render.
  assert (Hsection :
    (if String.eqb match Hosts ing with
                   | [] => EmptyString
                   | h :: _ => index hostnameToSection h
                   end EmptyString
     then None
     else Some match Hosts ing with
               | [] => EmptyString
               | h :: _ => index hostnameToSection h
               end) = httpsSection ing hostnameToSection).
  { unfold httpsSection, index. destruct (Hosts ing) as [|h hs]; [reflexivity|].
    destruct (hostnameToSection !! h) as [s|]; reflexivity. }
  rewrite Hsection.
  unfold render, Join. cbn [map String.concat].
  generalize (renderRoute (backendObject Quote ing gw gns
                             (httpsSection ing hostnameToSection))).
  intros backend.
  unfold render, Join, renderRoute, redirectObject, redirectStatusCode. simpl.
  cbn [cat]. rewrite ?append_assoc, ?append_nil_r. reflexivity.
Qed.

End SplitObjects.

(** What [generateHTTPRoute] writes on every input that asks for the
    redirect: a route whose annotations set ssl-redirect or
    force-ssl-redirect to true is written as two HTTPRoute objects and no
    more.  The first is named after the route with the suffix -redirect and
    is bound to the listener section http; each of its rules has the one
    filter RequestRedirect and no backendRefs.  The second bears the name of
    the route; each of its rules has backendRefs and only URLRewrite or
    ResponseHeaderModifier filters; it is bound to the listener section that
    the hostname table records for the first host of the route, and carries
    no sectionName when the table has none.  Both have one rule for each
    path of the route, with the same matches.  When the route is part of the
    scan with TLS enabled, a TLS secret and a host, the table does have a
    section for it, named https-N. *)
Theorem redirect_backend_split (Quote : string → string) (ing : IngressInfo)
    (gw gns : string) (hostnameToSection : gmap string string) :
  NginxAnnotations ing !! "ssl-redirect" = Some "true"
  ∨ NginxAnnotations ing !! "force-ssl-redirect" = Some "true" →
  let redirect := manifest.redirectObject Quote ing gw gns in
  let backend :=
    manifest.backendObject Quote ing gw gns (manifest.httpsSection ing hostnameToSection) in
  gatewayapi.generateHTTPRoute Quote ing gw gns hostnameToSection
    = manifest.render [redirect; backend]
  ∧ (manifest.routeName redirect = Name ing +:+ "-redirect"
     ∧ manifest.parentSection redirect = Some "http"
     ∧ Forall (λ r, map manifest.filterType (manifest.ruleFilters r) = ["RequestRedirect"]
                    ∧ manifest.hasBackendRefs r = false)
         (manifest.routeRules redirect))
  ∧ (manifest.routeName backend = Name ing
     ∧ manifest.parentSection backend =
         match Hosts ing with
         | h :: _ =>
             match hostnameToSection !! h with
             | Some s => if decide (s = EmptyString) then None else Some s
             | None => None
             end
         | [] => None
         end
     ∧ Forall (λ r, manifest.hasBackendRefs r = true
                    ∧ Forall (λ f, manifest.filterType f
                                     ∈ ["URLRewrite"; "ResponseHeaderModifier"])
                        (manifest.ruleFilters r))
         (manifest.routeRules backend))
  ∧ map manifest.ruleMatch (manifest.routeRules redirect)
    = map manifest.ruleMatch (manifest.routeRules backend)
  ∧ List.length (manifest.routeRules redirect) = List.length (Paths ing)
  ∧ List.length (manifest.routeRules backend) = List.length (Paths ing)
  ∧ (∀ scan, ing ∈ Ingresses scan →
       TLSEnabled ing = true → TLSSecrets ing ≠ [] → Hosts ing ≠ [] →
       ∃ n : Z, manifest.httpsSection ing (gatewayapi.buildHostnameToSection scan)
                = Some ("https-" +:+ fmt_d n)).
Proof.
  intros Hredirect. split_and!.
  - unfold gatewayapi.generateHTTPRoute, index.
    assert (Hsplit : String.eqb (default EmptyString (NginxAnnotations ing !! "force-ssl-redirect")) "true"
                     || String.eqb (default EmptyString (NginxAnnotations ing !! "ssl-redirect")) "true"
                     = true).
    { destruct Hredirect as [-> | ->]; simpl; [apply orb_true_r|reflexivity]. }
    rewrite Hsplit. apply split_routes_render.
  - reflexivity.
  - reflexivity.
  - apply Forall_forall. intros r Hr. simpl in Hr.
    apply list_elem_of_fmap in Hr as (p & -> & _). apply redirectRule_shape.
  - reflexivity.
  - simpl. unfold manifest.httpsSection. destruct (Hosts ing) as [|h hs]; [reflexivity|].
    destruct (hostnameToSection !! h) as [s|]; [|reflexivity].
    destruct (String.eqb_spec s EmptyString); by case_decide.
  - apply Forall_forall. intros r Hr. simpl in Hr.
    apply list_elem_of_fmap in Hr as (p & -> & _). apply backendRule_shape.
  - simpl. by rewrite !map_map.
  - simpl. by rewrite length_map, (Permutation_length (pathsInHostOrder_Permutation _)).
  - simpl. by rewrite length_map, (Permutation_length (pathsInHostOrder_Permutation _)).
  - intros scan. apply httpsSection_tls.
Qed.

Lemma redirect_backend_split_witness :
  let ing := examples.checkout in
  let gw := gatewayapi.defaultGatewayName in
  let gns := gatewayapi.defaultGatewayNamespace in
  let hostnameToSection := gatewayapi.buildHostnameToSection (examples.scanOf [ing]) in
  let redirect := manifest.redirectObject quoteASCII ing gw gns in
  let backend :=
    manifest.backendObject quoteASCII ing gw gns
      (manifest.httpsSection ing hostnameToSection) in
  gatewayapi.generateHTTPRoute quoteASCII ing gw gns hostnameToSection
    = manifest.render [redirect; backend]
  ∧ (manifest.routeName redirect = Name ing +:+ "-redirect"
     ∧ manifest.parentSection redirect = Some "http"
     ∧ Forall (λ r, map manifest.filterType (manifest.ruleFilters r) = ["RequestRedirect"]
                    ∧ manifest.hasBackendRefs r = false)
         (manifest.routeRules redirect))
  ∧ (manifest.routeName backend = Name ing
     ∧ manifest.parentSection backend =
         match Hosts ing with
         | h :: _ =>
             match hostnameToSection !! h with
             | Some s => if decide (s = EmptyString) then None else Some s
             | None => None
             end
         | [] => None
         end
     ∧ Forall (λ r, manifest.hasBackendRefs r = true
                    ∧ Forall (λ f, manifest.filterType f
                                     ∈ ["URLRewrite"; "ResponseHeaderModifier"])
                        (manifest.ruleFilters r))
         (manifest.routeRules backend))
  ∧ map manifest.ruleMatch (manifest.routeRules redirect)
    = map manifest.ruleMatch (manifest.routeRules backend)
  ∧ List.length (manifest.routeRules redirect) = List.length (Paths ing)
  ∧ List.length (manifest.routeRules backend) = List.length (Paths ing)
  ∧ (∀ scan, ing ∈ Ingresses scan →
       TLSEnabled ing = true → TLSSecrets ing ≠ [] → Hosts ing ≠ [] →
       ∃ n : Z, manifest.httpsSection ing (gatewayapi.buildHostnameToSection scan)
                = Some ("https-" +:+ fmt_d n)).
Proof.
  refine (redirect_backend_split quoteASCII examples.checkout
            gatewayapi.defaultGatewayName gatewayapi.defaultGatewayNamespace
            (gatewayapi.buildHostnameToSection (examples.scanOf [examples.checkout])) _).
  left. by vm_compute.
Defined.

(** C1, the Gateway API synthesizer at a failing input: the route
    shop/checkout asks for the HTTPS redirect and has no TLS secret, so
    that the gateway has no HTTPS listener for its host.  Its file holds the
    redirect route, bound to the section http, and a backend route whose
    parentRef names no section at all: the text [sectionName: https] occurs
    nowhere in it, against the comment of [generateHTTPRoute], by which the
    backend route is attached to the HTTPS listener https-N and a route
    without sectionName attaches to both listeners. *)
Lemma backend_route_without_section :
  let ing := examples.checkoutNoTLS in
  let content :=
    gatewayapi.generateHTTPRoute quoteASCII ing
      gatewayapi.defaultGatewayName gatewayapi.defaultGatewayNamespace
      (gatewayapi.buildHostnameToSection (examples.scanOf [ing])) in
  NginxAnnotations ing !! "ssl-redirect" = Some "true"
  ∧ content =
      cat ["# HTTP→HTTPS redirect route (attached to HTTP listener only)"; nl;
           "apiVersion: gateway.networking.k8s.io/v1"; nl;
           "kind: HTTPRoute"; nl;
           "metadata:"; nl;
           "  name: checkout-redirect"; nl;
           "  namespace: shop"; nl;
           "spec:"; nl;
           "  parentRefs:"; nl;
           "  - name: ing-switch-gateway"; nl;
           "    namespace: default"; nl;
           "    sectionName: http"; nl;
           "  hostnames:"; nl;
           "  - "; dq; "shop.example.com"; dq; nl;
           "  rules:"; nl;
           "  - matches:"; nl;
           "    - path:"; nl;
           "        type: PathPrefix"; nl;
           "        value: "; dq; "/pay"; dq; nl;
           "    filters:"; nl;
           "    - type: RequestRedirect"; nl;
           "      requestRedirect:"; nl;
           "        scheme: https"; nl;
           "        statusCode: 302"; nl;
           "---"; nl;
           "apiVersion: gateway.networking.k8s.io/v1"; nl;
           "kind: HTTPRoute"; nl;
           "metadata:"; nl;
           "  name: checkout"; nl;
           "  namespace: shop"; nl;
           "spec:"; nl;
           "  parentRefs:"; nl;
           "  - name: ing-switch-gateway"; nl;
           "    namespace: default"; nl;
           "  hostnames:"; nl;
           "  - "; dq; "shop.example.com"; dq; nl;
           "  rules:"; nl;
           "  - matches:"; nl;
           "    - path:"; nl;
           "        type: PathPrefix"; nl;
           "        value: "; dq; "/pay"; dq; nl;
           "    backendRefs:"; nl;
           "    - name: pay"; nl;
           "      port: 8080"; nl]
  ∧ Contains content "sectionName: https" = false
  ∧ manifest.parentSection
      (manifest.backendObject quoteASCII ing
         gatewayapi.defaultGatewayName gatewayapi.defaultGatewayNamespace
         (manifest.httpsSection ing
            (gatewayapi.buildHostnameToSection (examples.scanOf [ing]))))
    = None.
Proof. split_and!; by vm_compute. Qed.

(** ** The Traefik synthesizer: the updated Ingress *)

Section UpdatedIngress.

Variable Quote : string → string.

(** The copy made by [copyAnnotations] is the map itself, in whatever order
    the entries are visited. *)
Lemma copyAnnotationsOver_range (src : gmap string string) (srcOrder : list (string * string)) :
  MapRange src srcOrder → traefik.copyAnnotationsOver srcOrder = src.
Proof.
  unfold MapRange, traefik.copyAnnotationsOver. intros Hrange.
  assert (Hfold : ∀ l (m : gmap string string),
            foldl (λ dst kv, <[kv.1 := kv.2]> dst) m l = list_to_map (reverse l) ∪ m).
  { induction l as [|[k v] l IH]; intros m; simpl.
    - by rewrite (left_id_L ∅ (∪)).
    - rewrite IH, reverse_cons, list_to_map_app, <- (assoc_L (∪)). f_equal. simpl.
      by rewrite <- insert_union_l, (left_id_L ∅ (∪)). }
  rewrite Hfold, (right_id_L ∅ (∪)).
  assert (Hnd : NoDup (map_to_list src).*1) by apply NoDup_fst_map_to_list.
  transitivity (list_to_map (map_to_list src) : gmap string string);
    [|apply list_to_map_to_list].
  apply list_to_map_proper.
  - assert (Hkeys : (reverse srcOrder).*1 ≡ₚ (map_to_list src).*1)
      by (apply fmap_Permutation; by rewrite reverse_Permutation).
    by rewrite Hkeys.
  - by rewrite reverse_Permutation.
Qed.

(** The two orders in which the annotations kept for the route
    [labelledRoute] can be visited, and the manifests written for each. *)
Lemma labelledRoute_manifests (annOrder : list (string * string)) :
  annOrder ≡ₚ examples.keptAnnotations →
  traefik.generateUpdatedIngress Quote examples.labelledRoute []
    (traefik.generateUpdatedIngressOver Quote examples.labelledRoute annOrder
       [("shop.example.com", [examples.payPath])]).
Proof.
  intros Hperm.
  apply (traefik.generateUpdatedIngress_range Quote examples.labelledRoute []
           examples.keptAnnotations).
  - apply MapRange_list_to_map; [compute_done|reflexivity].
  - match goal with
    | |- MapRange ?m _ =>
        assert (Hmap : m = list_to_map examples.keptAnnotations)
          by (vm_compute; reflexivity)
    end.
    rewrite Hmap. apply MapRange_list_to_map; [compute_done|done].
  - match goal with
    | |- MapRange ?m _ =>
        assert (Hmap : m = list_to_map [("shop.example.com", [examples.payPath])])
          by (vm_compute; reflexivity)
    end.
    rewrite Hmap. apply MapRange_list_to_map; [compute_done|reflexivity].
Qed.

End UpdatedIngress.

(** C5, the Traefik synthesizer at a failing input: for the route
    shop/checkout with the two annotations cert-manager.io/cluster-issuer and
    kubernetes.io/tls-acme, [generateUpdatedIngress] can return two manifests
    that differ, one for each order in which the runtime visits the
    annotation map; so can the Content of the file of step 3 of [Migrate],
    under one and the same RelPath. *)
Theorem updated_ingress_depends_on_visit_order (Quote : string → string) :
  ∃ yaml1 yaml2 : string,
    traefik.generateUpdatedIngress Quote examples.labelledRoute [] yaml1
    ∧ traefik.generateUpdatedIngress Quote examples.labelledRoute [] yaml2
    ∧ yaml1 ≠ yaml2
    ∧ RelPath (traefik.updatedIngressFile examples.labelledRoute yaml1)
      = RelPath (traefik.updatedIngressFile examples.labelledRoute yaml2)
    ∧ Content (traefik.updatedIngressFile examples.labelledRoute yaml1)
      ≠ Content (traefik.updatedIngressFile examples.labelledRoute yaml2).
Proof.
  exists (traefik.generateUpdatedIngressOver Quote examples.labelledRoute
      examples.keptAnnotations [("shop.example.com", [examples.payPath])]).
  exists (traefik.generateUpdatedIngressOver Quote examples.labelledRoute
      (reverse examples.keptAnnotations) [("shop.example.com", [examples.payPath])]).
  assert (Hdiffer :
    traefik.generateUpdatedIngressOver Quote examples.labelledRoute
      examples.keptAnnotations [("shop.example.com", [examples.payPath])]
    ≠ traefik.generateUpdatedIngressOver Quote examples.labelledRoute
      (reverse examples.keptAnnotations) [("shop.example.com", [examples.payPath])]).
  { intros Heq. vm_compute in Heq. discriminate Heq. }
  split_and!; try done.
  - by apply labelledRoute_manifests.
  - apply labelledRoute_manifests. apply reverse_Permutation.
Qed.

(** ** The functions on concrete routes *)

Example checkout_gateway_report :
  let ir := analyzeIngressOver "gateway-api" examples.checkout examples.redirectAnnotations in
  map (λ m, (OriginalKey m, Status m)) (Mappings ir)
    = [("ssl-redirect", "supported"); ("limit-rps", "partial")]
  ∧ OverallStatus ir = "workaround".
Proof. by vm_compute. Qed.

Example snippet_breaks_both_targets :
  OverallStatus (analyzeIngressOver "traefik" examples.snippetRoute examples.snippetAnnotations)
    = "breaking"
  ∧ OverallStatus
      (analyzeIngressOver "gateway-api" examples.snippetRoute examples.snippetAnnotations)
    = "breaking".
Proof. by vm_compute. Qed.

Example checkout_listener_section :
  gatewayapi.buildHostnameToSection (examples.scanOf [examples.checkout])
    !! "shop.example.com" = Some "https-0"
  ∧ map RelPath (gatewayapi.httpRouteFiles quoteASCII (examples.scanOf [examples.checkout]))
    = ["04-httproutes/shop-checkout.yaml"].
Proof. by vm_compute. Qed.

Example capture_group_is_regex :
  gatewayapi.buildPathMatch
    {| Host := "a.example.com"; Path := "/api/(.*)"; PathType := "Prefix";
       ServiceName := "api"; ServicePort := 80 |} ∅
  = manifest.pathMatchText "RegularExpression" "/api/(.*)".
Proof. by vm_compute. Qed.

Example exact_path_stays_exact :
  gatewayapi.buildPathMatch
    {| Host := "a.example.com"; Path := "/healthz"; PathType := "Exact";
       ServiceName := "api"; ServicePort := 80 |} ∅
  = manifest.pathMatchText "Exact" "/healthz".
Proof. by vm_compute. Qed.

Example timeouts_of_timeoutRoute :
  gatewayapi.buildTimeouts (NginxAnnotations examples.timeoutRoute)
  = cat ["    timeouts:"; nl; "      backendRequest: 300s"; nl].
Proof. by vm_compute. Qed.

Example sorted_puts_unsupported_first :
  map Status
    (web.sorted (Mappings (analyzeIngressOver "traefik" examples.snippetRoute
                             examples.snippetAnnotations)))
  = ["unsupported"; "supported"].
Proof. by vm_compute. Qed.

Example phase_of_parallel_run :
  (server.migrationPhase true true).1 = "migrating"
  ∧ (server.migrationPhase false true).1 = "pre-migration"
  ∧ (server.migrationPhase true false).1 = "post-migration".
Proof. by vm_compute. Qed.

Example labelledRoute_manifest_texts :
  let manifest_ first second :=
    cat ["apiVersion: networking.k8s.io/v1"; nl;
         "kind: Ingress"; nl;
         "metadata:"; nl;
         "  name: checkout"; nl;
         "  namespace: shop"; nl;
         "  annotations:"; nl;
         first; nl;
         second; nl;
         "spec:"; nl;
         "  ingressClassName: nginx"; nl;
         "  rules:"; nl;
         "  - host: shop.example.com"; nl;
         "    http:"; nl;
         "      paths:"; nl;
         "      - path: /pay"; nl;
         "        pathType: Prefix"; nl;
         "        backend:"; nl;
         "          service:"; nl;
         "            name: pay"; nl;
         "            port:"; nl;
         "              number: 8080"; nl;
         nl] in
  let issuer := cat ["    cert-manager.io/cluster-issuer: "; dq; "letsencrypt"; dq] in
  let acme := cat ["    kubernetes.io/tls-acme: "; dq; "true"; dq] in
  traefik.generateUpdatedIngressOver quoteASCII examples.labelledRoute
    examples.keptAnnotations [("shop.example.com", [examples.payPath])]
  = manifest_ issuer acme
  ∧ traefik.generateUpdatedIngressOver quoteASCII examples.labelledRoute
      (reverse examples.keptAnnotations) [("shop.example.com", [examples.payPath])]
    = manifest_ acme issuer.
Proof. by vm_compute. Qed.

(** * Further properties of the code *)

(** ** The scanner *)

(** ** The scanner: [classifyComplexity], [parseIngress], [extractNamespaces] *)

Section Scanner.

Lemma rangeFinds_MapRange (set : gmap string bool) (m : gmap string string) order :
  MapRange m order →
  rangeFinds set order = true ↔ ∃ k, is_Some (m !! k) ∧ flag set k = true.
Proof.
  intros Hrange. transitivity (∃ kv, kv ∈ order ∧ flag set kv.1 = true).
  - clear Hrange. induction order as [|kv order IH]; simpl.
    + split; [done|]. intros (kv & Hin & _). by apply elem_of_nil in Hin.
    + destruct (flag set kv.1) eqn:Hflag.
      * split; [|done]. intros _. exists kv. split; [left|done].
      * rewrite IH. split.
        -- intros (kv' & Hin & H). exists kv'. split; [by right|done].
        -- intros (kv' & Hin & H). apply elem_of_cons in Hin as [->|Hin]; [congruence|].
           by exists kv'.
  - unfold MapRange in Hrange. split.
    + intros ([k v] & Hin & H). rewrite Hrange in Hin.
      apply elem_of_map_to_list in Hin. exists k. by rewrite Hin.
    + intros (k & [v Hv] & H). exists (k, v). split; [|done].
      rewrite Hrange. by apply elem_of_map_to_list.
Qed.

Lemma rangeFinds_none (set : gmap string bool) (m : gmap string string) order :
  MapRange m order → rangeFinds set order = false →
  ∀ k, is_Some (m !! k) → flag set k = false.
Proof.
  intros Hrange Hfalse k Hk. destruct (flag set k) eqn:Hflag; [|done].
  rewrite <- Hfalse. symmetry. apply (rangeFinds_MapRange set m order Hrange).
  by exists k.
Qed.

End Scanner.

(** X1: [classifyComplexity] gives one tier, whatever the order in which
    its two loops visit the map: unsupported when an annotation is one of
    [unsupportedInTraefik]; else complex when an annotation is one of
    [complexAnnotations]; else simple, as for a route with no annotation. *)
Theorem classifyComplexity_tiers (nginx : gmap string string) (c : string) :
  classifyComplexity nginx c →
  (c = "unsupported"
   ∧ ∃ k, is_Some (nginx !! k) ∧ flag unsupportedInTraefik k = true)
  ∨ (c = "complex"
     ∧ (∀ k, is_Some (nginx !! k) → flag unsupportedInTraefik k = false)
     ∧ ∃ k, is_Some (nginx !! k) ∧ flag complexAnnotations k = true)
  ∨ (c = "simple"
     ∧ ∀ k, is_Some (nginx !! k) →
            flag unsupportedInTraefik k = false ∧ flag complexAnnotations k = false).
Proof.
  intros [first second Hfirst Hsecond]. unfold classifyComplexityOver.
  destruct (size nginx =? 0)%nat eqn:Hsize.
  { right. right. split; [done|]. intros k [v Hk].
    apply Nat.eqb_eq, map_size_empty_iff in Hsize. by rewrite Hsize in Hk. }
  destruct (rangeFinds unsupportedInTraefik first) eqn:H1.
  { left. split; [done|]. by apply (rangeFinds_MapRange _ _ _ Hfirst). }
  destruct (rangeFinds complexAnnotations second) eqn:H2.
  { right. left. split; [done|]. split.
    - by apply (rangeFinds_none _ _ _ Hfirst).
    - by apply (rangeFinds_MapRange _ _ _ Hsecond). }
  right. right. split; [done|]. intros k Hk. split.
  - by apply (rangeFinds_none _ _ _ Hfirst).
  - by apply (rangeFinds_none _ _ _ Hsecond).
Qed.

Lemma classifyComplexity_tiers_witness :
  let nginx : gmap string string := list_to_map examples.redirectAnnotations in
  let c := classifyComplexityOver nginx examples.redirectAnnotations
             (reverse examples.redirectAnnotations) in
  (c = "unsupported"
   ∧ ∃ k, is_Some (nginx !! k) ∧ flag unsupportedInTraefik k = true)
  ∨ (c = "complex"
     ∧ (∀ k, is_Some (nginx !! k) → flag unsupportedInTraefik k = false)
     ∧ ∃ k, is_Some (nginx !! k) ∧ flag complexAnnotations k = true)
  ∨ (c = "simple"
     ∧ ∀ k, is_Some (nginx !! k) →
            flag unsupportedInTraefik k = false ∧ flag complexAnnotations k = false).
Proof.
  apply (classifyComplexity_tiers (list_to_map examples.redirectAnnotations)).
  constructor; apply MapRange_list_to_map;
    [compute_done|reflexivity|compute_done|apply reverse_Permutation].
Defined.

Section GoStrings.

Lemma prefix_app (p r : string) : String.prefix p (p +:+ r) = true.
Proof.
  induction p as [|c p IH]; simpl; [by destruct r|].
  destruct (ascii_dec c c); [done|congruence].
Qed.

Lemma prefix_inv (p s : string) : String.prefix p s = true → ∃ r, s = p +:+ r.
Proof.
  revert s. induction p as [|c p IH]; intros s H.
  - by exists s.
  - destruct s as [|d s]; [done|]. simpl in H.
    destruct (ascii_dec c d) as [->|]; [|done].
    destruct (IH s H) as [r ->]. by exists r.
Qed.

Lemma prefix_spec (p s : string) : String.prefix p s = true ↔ ∃ r, s = p +:+ r.
Proof. split; [apply prefix_inv|]. intros [r ->]. apply prefix_app. Qed.

Lemma dropBytes_app (p r : string) : dropBytes (String.length p) (p +:+ r) = r.
Proof. induction p as [|c p IH]; simpl; [done|exact IH]. Qed.

Lemma TrimPrefix_app (p r : string) : TrimPrefix (p +:+ r) p = r.
Proof. unfold TrimPrefix, HasPrefix. by rewrite prefix_app, dropBytes_app. Qed.

Lemma append_inj_l (p a b : string) : p +:+ a = p +:+ b → a = b.
Proof. induction p as [|c p IH]; simpl; [done|]. intros [= H]. by apply IH. Qed.

Lemma substring_app (p r : string) : String.substring 0 (String.length p) (p +:+ r) = p.
Proof.
  induction p as [|c p IH]; simpl; [by destruct r|]. by rewrite IH.
Qed.

Lemma substring_prefix (n : nat) (s : string) :
  ∃ r, s = String.substring 0 n s +:+ r.
Proof.
  revert s. induction n as [|n IH]; intros s.
  - exists s. by destruct s.
  - destruct s as [|c s]; [by exists EmptyString|].
    destruct (IH s) as [r Hr]. exists r.
    change (String c s = String c (String.substring 0 n s +:+ r)). by rewrite <- Hr.
Qed.

End GoStrings.

Section ExtractNginx.

Local Abbreviation extractStep :=
  (λ (nginx : gmap string string) (kv : string * string),
     if HasPrefix kv.1 nginxAnnotationPrefix
     then <[TrimPrefix kv.1 nginxAnnotationPrefix := kv.2]> nginx
     else nginx).

Lemma extractNginxOver_elem_of (order : list (string * string)) :
  NoDup order.*1 →
  ∀ k v, extractNginxOver order !! k = Some v
         ↔ (nginxAnnotationPrefix +:+ k, v) ∈ order.
Proof.
  unfold extractNginxOver.
  induction order as [|kv order IH] using rev_ind; intros Hnd k v.
  - simpl. rewrite lookup_empty. split; [done|]. intros H. by apply elem_of_nil in H.
  - rewrite foldl_app. simpl. rewrite fmap_app in Hnd.
    apply NoDup_app in Hnd as (Hnd & Hfresh & _).
    specialize (IH Hnd). rewrite elem_of_app, list_elem_of_singleton.
    destruct (HasPrefix kv.1 nginxAnnotationPrefix) eqn:Hpre.
    + apply prefix_inv in Hpre as [short Hshort]. destruct kv as [key val]. simpl in *.
      subst key. rewrite TrimPrefix_app.
      destruct (decide (short = k)) as [->|Hne].
      * rewrite lookup_insert_eq. split.
        -- intros [= ->]. by right.
        -- intros [Hin|[= ->]]; [|done]. exfalso. apply (Hfresh (nginxAnnotationPrefix +:+ k)).
           ++ apply list_elem_of_fmap. by exists (nginxAnnotationPrefix +:+ k, v).
           ++ left.
      * rewrite lookup_insert_ne by done. rewrite IH. split; [by left|].
        intros [Hin|[= Heq _]]; [done|]. apply append_inj_l in Heq. congruence.
    + rewrite IH. split; [by left|]. intros [Hin|Heq]; [done|]. subst kv. simpl in Hpre.
      unfold HasPrefix in Hpre. by rewrite prefix_app in Hpre.
Qed.

Lemma extractNginxOver_lookup (annotations : gmap string string) order :
  MapRange annotations order →
  ∀ k, extractNginxOver order !! k = annotations !! (nginxAnnotationPrefix +:+ k).
Proof.
  intros Hrange k. apply option_eq. intros v.
  rewrite extractNginxOver_elem_of.
  - unfold MapRange in Hrange. rewrite Hrange. apply elem_of_map_to_list.
  - unfold MapRange in Hrange. rewrite Hrange. apply NoDup_fst_map_to_list.
Qed.

End ExtractNginx.

(** X2: in every result of [parseIngress] the annotations are those of
    the Ingress, and the controller annotations are exactly its annotations
    under the prefix nginx.ingress.kubernetes.io/, filed under the rest of
    the key, whatever the order in which the annotation map is visited. *)
Theorem parseIngress_nginx_annotations (ing : networkingv1.Ingress) (info : IngressInfo) :
  parseIngress ing info →
  Annotations info = networkingv1.Annotations ing
  ∧ ∀ k, NginxAnnotations info !! k
         = networkingv1.Annotations ing !! (nginxAnnotationPrefix +:+ k).
Proof.
  intros [hostOrder serviceOrder annOrder complexity _ _ Hann _]. simpl.
  split; [done|]. by apply extractNginxOver_lookup.
Qed.

Section SortedKeys.

Lemma sortStrings_Sorted (l : list string) : Sorted String.le (sortStrings l).
Proof. apply (Sorted_merge_sort String.le). Qed.

Lemma sortStrings_Permutation (l : list string) : sortStrings l ≡ₚ l.
Proof. apply (merge_sort_Permutation String.le). Qed.

Lemma sortStrings_unique (l l' : list string) :
  l ≡ₚ l' → sortStrings l = sortStrings l'.
Proof.
  intros Hp. apply (Sorted_unique String.le); try apply sortStrings_Sorted.
  by rewrite !sortStrings_Permutation.
Qed.

(** The keys a range over a map visits, sorted. *)
Lemma sorted_keys {V} (m : gmap string V) (order : list (string * V)) :
  MapRange m order →
  Sorted String.le (sortStrings (map fst order))
  ∧ NoDup (sortStrings (map fst order))
  ∧ ∀ k, k ∈ sortStrings (map fst order) ↔ is_Some (m !! k).
Proof.
  intros Hrange. unfold MapRange in Hrange. split; [apply sortStrings_Sorted|].
  split.
  - rewrite sortStrings_Permutation, Hrange. apply NoDup_fst_map_to_list.
  - intros k. rewrite sortStrings_Permutation, Hrange.
    change (map fst (map_to_list m)) with ((map_to_list m).*1).
    rewrite list_elem_of_fmap. split.
    + intros ([k' v] & -> & Hin). apply elem_of_map_to_list in Hin. by exists v.
    + intros [v Hv]. exists (k, v). split; [done|]. by apply elem_of_map_to_list.
Qed.

Lemma sorted_keys_unique {V} (m : gmap string V) (order order' : list (string * V)) :
  MapRange m order → MapRange m order' →
  sortStrings (map fst order) = sortStrings (map fst order').
Proof.
  unfold MapRange. intros H H'. apply sortStrings_unique. by rewrite H, H'.
Qed.

End SortedKeys.

Section RuleHosts.

Lemma parsePath_hostSet ing rule st path :
  hostSet (parsePath ing rule st path) = hostSet st.
Proof. unfold parsePath. by destruct (networkingv1.Service _). Qed.

Lemma parsePaths_hostSet ing rule paths st :
  hostSet (foldl (parsePath ing rule) st paths) = hostSet st.
Proof.
  revert st. induction paths as [|p paths IH]; intros st; simpl; [done|].
  by rewrite IH, parsePath_hostSet.
Qed.

Lemma parseRule_hostSet ing st rule :
  hostSet (parseRule ing st rule)
  = if negb (String.eqb (networkingv1.Host rule) EmptyString)
    then <[networkingv1.Host rule := true]> (hostSet st)
    else hostSet st.
Proof.
  unfold parseRule. destruct (networkingv1.HTTP rule); [rewrite parsePaths_hostSet|];
    by destruct (negb _).
Qed.

Lemma parseRules_hostSet ing rules st h :
  is_Some (hostSet (foldl (parseRule ing) st rules) !! h)
  ↔ is_Some (hostSet st !! h)
    ∨ (h ≠ EmptyString ∧ ∃ rule, rule ∈ rules ∧ networkingv1.Host rule = h).
Proof.
  revert st. induction rules as [|rule rules IH]; intros st; simpl.
  - split; [by left|]. intros [H|(_ & rule & Hin & _)]; [done|].
    by apply elem_of_nil in Hin.
  - rewrite IH, parseRule_hostSet. clear IH.
    destruct (String.eqb_spec (networkingv1.Host rule) EmptyString) as [Hempty|Hhost]; simpl.
    + split.
      * intros [H|(Hne & rule' & Hin & Heq)]; [by left|].
        right. split; [done|]. exists rule'. split; [by right|done].
      * intros [H|(Hne & rule' & Hin & Heq)]; [by left|].
        apply elem_of_cons in Hin as [->|Hin]; [congruence|].
        right. split; [done|]. by exists rule'.
    + rewrite lookup_insert_is_Some. split.
      * intros [[Heq|[_ H]]|(Hne & rule' & Hin & Heq)].
        -- right. subst h. split; [done|]. exists rule. split; [left|done].
        -- by left.
        -- right. split; [done|]. exists rule'. split; [by right|done].
      * intros [H|(Hne & rule' & Hin & Heq)].
        -- destruct (decide (networkingv1.Host rule = h)); [left; by left|].
           left. right. done.
        -- apply elem_of_cons in Hin as [->|Hin]; [left; by left|].
           right. split; [done|]. by exists rule'.
Qed.

End RuleHosts.

(** X3: in every result of [parseIngress] the hosts are in increasing
    byte order, without duplicates, and are exactly the non-empty hosts of
    the rules of the Ingress. *)
Theorem parseIngress_hosts (ing : networkingv1.Ingress) (info : IngressInfo) :
  parseIngress ing info →
  Sorted String.le (Hosts info)
  ∧ NoDup (Hosts info)
  ∧ ∀ h, h ∈ Hosts info
         ↔ h ≠ EmptyString
           ∧ ∃ rule, rule ∈ networkingv1.Rules (networkingv1.Spec ing)
                     ∧ networkingv1.Host rule = h.
Proof.
  intros [hostOrder serviceOrder annOrder complexity Hhosts _ _ _]. simpl.
  destruct (sorted_keys _ _ Hhosts) as (Hsorted & Hnd & Hin).
  split; [done|]. split; [done|]. intros h. rewrite Hin.
  unfold parseRules. rewrite parseRules_hostSet. simpl. rewrite lookup_empty.
  split; [|by right]. intros [[? [=]]|H]. done.
Qed.

Section NamespaceSet.

Lemma namespaceSet_fold ingresses (st : gmap string bool) n :
  is_Some (foldl (λ nsSet ing, <[Namespace ing := true]> nsSet) st ingresses !! n)
  ↔ is_Some (st !! n) ∨ ∃ ing, ing ∈ ingresses ∧ Namespace ing = n.
Proof.
  revert st. induction ingresses as [|ing ingresses IH]; intros st; simpl.
  - split; [by left|]. intros [H|(ing & Hin & _)]; [done|]. by apply elem_of_nil in Hin.
  - rewrite IH, lookup_insert_is_Some. split.
    + intros [[Heq|[_ H]]|(ing' & Hin & Heq)].
      * right. exists ing. split; [left|done].
      * by left.
      * right. exists ing'. split; [by right|done].
    + intros [H|(ing' & Hin & Heq)].
      * destruct (decide (Namespace ing = n)); [left; by left|]. left. by right.
      * apply elem_of_cons in Hin as [->|Hin]; [left; by left|].
        right. by exists ing'.
Qed.

End NamespaceSet.

(** X4: [extractNamespaces] returns the namespaces of the ingresses in
    increasing byte order, each once, and returns the same list whatever the
    order in which the set is visited. *)
Theorem extractNamespaces_sorted_set (ingresses : list IngressInfo) (ns : list string) :
  extractNamespaces ingresses ns →
  Sorted String.le ns
  ∧ NoDup ns
  ∧ (∀ n, n ∈ ns ↔ ∃ ing, ing ∈ ingresses ∧ Namespace ing = n)
  ∧ ∀ ns', extractNamespaces ingresses ns' → ns' = ns.
Proof.
  intros [order Horder]. unfold extractNamespacesOver.
  destruct (sorted_keys _ _ Horder) as (Hsorted & Hnd & Hin).
  split; [done|]. split; [done|]. split.
  - intros n. rewrite Hin. unfold namespaceSet. rewrite namespaceSet_fold, lookup_empty.
    split; [|by right]. intros [[? [=]]|H]. done.
  - intros ns' [order' Horder']. unfold extractNamespacesOver.
    by apply (sorted_keys_unique (namespaceSet ingresses)).
Qed.

Lemma extractNamespaces_sorted_set_witness :
  let ingresses := [examples.checkout; examples.billing; examples.snippetRoute] in
  let ns := extractNamespacesOver [("shop", true); ("billing", true)] in
  Sorted String.le ns
  ∧ NoDup ns
  ∧ (∀ n, n ∈ ns ↔ ∃ ing, ing ∈ ingresses ∧ Namespace ing = n)
  ∧ ∀ ns', extractNamespaces ingresses ns' → ns' = ns.
Proof.
  apply (extractNamespaces_sorted_set
           [examples.checkout; examples.billing; examples.snippetRoute]).
  constructor.
  assert (Hset : namespaceSet [examples.checkout; examples.billing; examples.snippetRoute]
                 = list_to_map [("shop", true); ("billing", true)])
    by (vm_compute; reflexivity).
  rewrite Hset. apply MapRange_list_to_map; [compute_done|reflexivity].
Defined.

Section Deterministic.

Lemma rangeFinds_order (set : gmap string bool) (m : gmap string string) order order' :
  MapRange m order → MapRange m order' →
  rangeFinds set order = rangeFinds set order'.
Proof.
  intros H H'. apply eq_true_iff_eq.
  by rewrite (rangeFinds_MapRange set m order H), (rangeFinds_MapRange set m order' H').
Qed.

Lemma classifyComplexity_unique nginx c c' :
  classifyComplexity nginx c → classifyComplexity nginx c' → c = c'.
Proof.
  intros [f s Hf Hs] [f' s' Hf' Hs']. unfold classifyComplexityOver.
  by rewrite (rangeFinds_order _ nginx f f'), (rangeFinds_order _ nginx s s').
Qed.

Lemma extractNginxOver_order annotations order order' :
  MapRange annotations order → MapRange annotations order' →
  extractNginxOver order = extractNginxOver order'.
Proof.
  intros H H'. apply map_eq. intros k.
  by rewrite (extractNginxOver_lookup annotations order H),
             (extractNginxOver_lookup annotations order' H').
Qed.

End Deterministic.

Section LegacyIngress.

(** [parseIngress] on the Ingress [legacyIngress], for every order of its
    hosts and of its annotations. *)
Lemma legacy_parse (hostOrder : list (string * bool)) (annOrder : list (string * string)) :
  hostOrder ≡ₚ examples.legacyHosts → annOrder ≡ₚ examples.legacyAnnotations →
  parseIngress examples.legacyIngress (examples.legacyInfoOver hostOrder annOrder).
Proof.
  intros Hhosts Hann. unfold examples.legacyInfoOver.
  assert (Hrange : MapRange (networkingv1.Annotations examples.legacyIngress) annOrder).
  { apply MapRange_list_to_map; [compute_done|done]. }
  assert (Hc : classifyComplexity (extractNginxOver annOrder) "complex").
  { assert (Hnginx : extractNginxOver annOrder = list_to_map [("rewrite-target", "/")]).
    { rewrite (extractNginxOver_order _ annOrder examples.legacyAnnotations Hrange).
      - vm_compute. reflexivity.
      - apply MapRange_list_to_map; [compute_done|reflexivity]. }
    rewrite Hnginx.
    change "complex"
      with (classifyComplexityOver (list_to_map [("rewrite-target", "/")])
              [("rewrite-target", "/")] [("rewrite-target", "/")]).
    constructor; apply MapRange_list_to_map;
      [compute_done|reflexivity|compute_done|reflexivity]. }
  apply parseIngress_range; [| |exact Hrange|exact Hc].
  - assert (Hset : hostSet (parseRules examples.legacyIngress)
                   = list_to_map examples.legacyHosts) by (vm_compute; reflexivity).
    rewrite Hset. apply MapRange_list_to_map; [compute_done|done].
  - match goal with
    | |- MapRange _ ?l =>
        assert (Hset : serviceSet (parseRules examples.legacyIngress) = list_to_map l)
          by (vm_compute; reflexivity)
    end.
    rewrite Hset. apply MapRange_list_to_map; [compute_done|reflexivity].
Qed.

End LegacyIngress.

Lemma parseIngress_nginx_annotations_witness :
  let info := examples.legacyInfoOver examples.legacyHosts examples.legacyAnnotations in
  Annotations info = networkingv1.Annotations examples.legacyIngress
  ∧ ∀ k, NginxAnnotations info !! k
         = networkingv1.Annotations examples.legacyIngress !! (nginxAnnotationPrefix +:+ k).
Proof.
  apply (parseIngress_nginx_annotations examples.legacyIngress).
  by apply legacy_parse.
Defined.

Lemma parseIngress_hosts_witness :
  let info := examples.legacyInfoOver examples.legacyHosts examples.legacyAnnotations in
  Sorted String.le (Hosts info)
  ∧ NoDup (Hosts info)
  ∧ ∀ h, h ∈ Hosts info
         ↔ h ≠ EmptyString
           ∧ ∃ rule, rule ∈ networkingv1.Rules (networkingv1.Spec examples.legacyIngress)
                     ∧ networkingv1.Host rule = h.
Proof.
  apply (parseIngress_hosts examples.legacyIngress).
  by apply legacy_parse.
Defined.

(** X5: two results of [parseIngress] for one Ingress differ at most in
    the order of [Services], the one field filled from a map without a
    sort. *)
Theorem parseIngress_deterministic (ing : networkingv1.Ingress) (a b : IngressInfo) :
  parseIngress ing a → parseIngress ing b →
  Services b ≡ₚ Services a ∧ b = manifest.withServices a (Services b).
Proof.
  intros [ha sa aa ca Hha Hsa Haa Hca] [hb sb ab cb Hhb Hsb Hab Hcb].
  unfold parseIngressOver, manifest.withServices. simpl. split.
  - unfold MapRange in Hsa, Hsb. by rewrite Hsa, Hsb.
  - rewrite (sorted_keys_unique _ hb ha Hhb Hha).
    rewrite (extractNginxOver_order _ ab aa Hab Haa) in Hcb |- *.
    by rewrite (classifyComplexity_unique _ cb ca Hcb Hca).
Qed.

Lemma parseIngress_deterministic_witness :
  let a := examples.legacyInfoOver examples.legacyHosts examples.legacyAnnotations in
  let b := examples.legacyInfoOver (reverse examples.legacyHosts)
             (reverse examples.legacyAnnotations) in
  Services b ≡ₚ Services a ∧ b = manifest.withServices a (Services b).
Proof.
  apply (parseIngress_deterministic examples.legacyIngress).
  - by apply legacy_parse.
  - apply legacy_parse; apply reverse_Permutation.
Defined.

(** ** The scanner: ignored annotations and image tags *)

Section Prefixes.

Lemma length_append (a b : string) :
  String.length (a +:+ b) = (String.length a + String.length b)%nat.
Proof. induction a as [|c a IH]; simpl; [done|]. by rewrite IH. Qed.

Lemma startsWith_spec (key prefix : string) :
  startsWith key prefix = true ↔ ∃ rest, key = prefix +:+ rest.
Proof.
  unfold startsWith, sliceTo. rewrite andb_true_iff, Nat.leb_le, String.eqb_eq. split.
  - intros [_ Heq]. destruct (substring_prefix (String.length prefix) key) as [r Hr].
    exists r. by rewrite Heq in Hr.
  - intros [rest ->]. split; [rewrite length_append; lia|apply substring_app].
Qed.

End Prefixes.

(** X6: [shouldIgnoreAnnotation] holds exactly when the key starts with
    a built-in prefix or with a user prefix that is not empty; an empty user
    prefix ignores nothing. *)
Theorem shouldIgnoreAnnotation_prefixes (key : string) (userPrefixes : list string) :
  shouldIgnoreAnnotation key userPrefixes = true
  ↔ ∃ prefix, (prefix ∈ builtinIgnorePrefixes
               ∨ (prefix ∈ userPrefixes ∧ prefix ≠ EmptyString))
              ∧ ∃ rest, key = prefix +:+ rest.
Proof.
  unfold shouldIgnoreAnnotation.
  destruct (existsb (startsWith key) builtinIgnorePrefixes) eqn:Hbuiltin.
  - split; [intros _|done]. apply existsb_exists in Hbuiltin as (p & Hin & Hp).
    exists p. split; [left; by apply list_elem_of_In|by apply startsWith_spec].
  - rewrite existsb_exists. split.
    + intros (p & Hin & Hp). destruct (String.eqb_spec p EmptyString); [done|].
      exists p. split; [right; split; [by apply list_elem_of_In|done]|by apply startsWith_spec].
    + intros (p & [Hin|[Hin Hne]] & Hrest).
      * exfalso. assert (existsb (startsWith key) builtinIgnorePrefixes = true); [|congruence].
        apply existsb_exists. exists p. split; [by apply list_elem_of_In|by apply startsWith_spec].
      * exists p. split; [by apply list_elem_of_In|].
        destruct (String.eqb_spec p EmptyString); [done|by apply startsWith_spec].
Qed.

Section ImageTags.

Local Abbreviation colon := (":"%char).
Local Abbreviation nocolon s := (colon ∉ list_ascii_of_string s).

Lemma rev_app_append (s t u : string) :
  String.rev_app s t +:+ u = String.rev_app s (t +:+ u).
Proof. revert t. induction s as [|c s IH]; intros t; simpl; [done|]. by rewrite IH. Qed.

Lemma rev_cons (c : ascii) (s t : string) :
  String.rev (String c s) +:+ t = String.rev s +:+ String c t.
Proof. unfold String.rev. simpl. by rewrite !rev_app_append. Qed.

Lemma splitFrom_cons (c : ascii) (s cur : string) :
  splitFrom (String c s) ":" 0 cur
  = if decide (c = colon) then String.rev cur :: splitFrom s ":" 0 EmptyString
    else splitFrom s ":" 0 (String c cur).
Proof.
  cbn [splitFrom String.prefix]. destruct (ascii_dec colon c) as [<-|Hne].
  - rewrite decide_True by done. by destruct s.
  - by rewrite decide_False by done.
Qed.

Lemma splitFrom_nocolon (t cur : string) :
  nocolon t → splitFrom t ":" 0 cur = [String.rev cur +:+ t].
Proof.
  revert cur. induction t as [|c t IH]; intros cur Hno.
  - simpl. by rewrite append_nil_r.
  - simpl in Hno. apply not_elem_of_cons in Hno as [Hc Hno].
    rewrite splitFrom_cons, decide_False by done.
    rewrite IH by done. by rewrite rev_cons.
Qed.

Lemma splitFrom_tag (repo tag cur : string) :
  nocolon tag →
  last (splitFrom (repo +:+ ":" +:+ tag) ":" 0 cur) = Some tag
  ∧ (2 <= List.length (splitFrom (repo +:+ ":" +:+ tag) ":" 0 cur))%nat.
Proof.
  intros Hno. revert cur. induction repo as [|c repo IH]; intros cur.
  - change (EmptyString +:+ ":" +:+ tag) with (String colon tag).
    rewrite splitFrom_cons, decide_True by done.
    rewrite splitFrom_nocolon by done. simpl. split; [done|lia].
  - change (String c repo +:+ ":" +:+ tag) with (String c (repo +:+ ":" +:+ tag)).
    rewrite splitFrom_cons. destruct (decide (c = colon)) as [->|_].
    + destruct (IH EmptyString) as [Hlast Hlen]. split; [|simpl; lia].
      rewrite last_cons, Hlast. done.
    + apply IH.
Qed.

End ImageTags.

(** X7: [extractVersionFromImage] returns what follows the last colon of
    the image, and unknown for an image without a colon. *)
Theorem extractVersionFromImage_tag (repo tag : string) :
  ":"%char ∉ list_ascii_of_string tag →
  extractVersionFromImage (repo +:+ ":" +:+ tag) = tag
  ∧ extractVersionFromImage tag = "unknown".
Proof.
  intros Hno. unfold extractVersionFromImage, Split. split.
  - destruct (splitFrom_tag repo tag EmptyString Hno) as [Hlast Hlen].
    rewrite Hlast. apply Nat.ltb_ge in Hlen. by rewrite Hlen.
  - by rewrite splitFrom_nocolon.
Qed.

Lemma extractVersionFromImage_tag_witness :
  extractVersionFromImage ("registry.local:5000/traefik" +:+ ":" +:+ "v3.1") = "v3.1"
  ∧ extractVersionFromImage "v3.1" = "unknown".
Proof.
  apply (extractVersionFromImage_tag "registry.local:5000/traefik" "v3.1").
  compute_done.
Defined.

(** ** The analyzer: the reports of a scan *)

Section Alignment.

Lemma AnalyzeOver_reports target scan orders :
  IngressReports (AnalyzeOver target scan orders)
  = zip_with (analyzeIngressOver target) (Ingresses scan) orders
  ∧ Target (AnalyzeOver target scan orders) = target.
Proof.
  unfold AnalyzeOver.
  destruct (Analyze_loop (zip_with (analyzeIngressOver target) (Ingresses scan) orders)
              (emptyReport target)) as (Ht & Hr & _).
  by rewrite Ht, Hr.
Qed.

End Alignment.

(** X8: every report of [Analyze] carries the target it was built for
    and one route report for each ingress of the scan, in the order of the
    scan, each a report of [analyzeIngress] for that ingress under its
    namespace and name. *)
Theorem Analyze_reports_aligned (target : string) (scan : ScanResult)
    (report : AnalysisReport) :
  Analyze target scan report →
  Target report = target
  ∧ Forall2 (λ ing ir, analyzeIngress target ing ir
                       ∧ ReportNamespace ir = Namespace ing
                       ∧ ReportName ir = Name ing)
            (Ingresses scan) (IngressReports report).
Proof.
  intros [orders Horders]. destruct (AnalyzeOver_reports target scan orders) as [-> ->].
  split; [done|]. induction Horders as [|ing kvs ings orders Hkvs _ IH]; simpl.
  - constructor.
  - constructor; [|exact IH]. split; [by constructor|done].
Qed.

Lemma Analyze_reports_aligned_witness :
  let scan := examples.scanOf [examples.checkout; examples.snippetRoute] in
  let report := AnalyzeOver "traefik" scan
                  [examples.redirectAnnotations; examples.snippetAnnotations] in
  Target report = "traefik"
  ∧ Forall2 (λ ing ir, analyzeIngress "traefik" ing ir
                       ∧ ReportNamespace ir = Namespace ing
                       ∧ ReportName ir = Name ing)
            (Ingresses scan) (IngressReports report).
Proof.
  apply (Analyze_reports_aligned "traefik"
           (examples.scanOf [examples.checkout; examples.snippetRoute])).
  constructor.
  repeat (apply List.Forall2_cons;
          [apply MapRange_list_to_map; [compute_done|reflexivity]|]).
  apply List.Forall2_nil.
Defined.

Section Snippets.

Lemma snippet_unsupported (key value target : string) :
  key = "configuration-snippet" ∨ key = "server-snippet" →
  Status (MapAnnotation key value target) = StatusUnsupported.
Proof.
  intros Hkey. unfold MapAnnotation.
  destruct (String.eqb target "traefik").
  - destruct Hkey as [-> | ->]; vm_compute; reflexivity.
  - destruct (String.eqb target "gateway-api"); [|done].
    destruct Hkey as [-> | ->]; vm_compute; reflexivity.
Qed.

End Snippets.

(** X9: a route with a configuration-snippet or server-snippet
    annotation is breaking for every target, also one that is neither
    traefik nor gateway-api. *)
Theorem snippets_are_breaking (target : string) (ing : IngressInfo) (ir : IngressReport) :
  analyzeIngress target ing ir →
  is_Some (NginxAnnotations ing !! "configuration-snippet")
  ∨ is_Some (NginxAnnotations ing !! "server-snippet") →
  OverallStatus ir = "breaking".
Proof.
  intros [kvs Hrange] Hsnippet. rewrite analyzeIngressOver_status.
  rewrite decide_True; [done|]. apply Exists_exists.
  assert (∃ key value, (key, value) ∈ kvs
            ∧ (key = "configuration-snippet" ∨ key = "server-snippet"))
    as (key & value & Hin & Hkey).
  { unfold MapRange in Hrange.
    destruct Hsnippet as [[v Hv]|[v Hv]]; eexists _, v;
      (split; [rewrite Hrange; apply elem_of_map_to_list, Hv|auto]). }
  exists (mappingOf target (key, value)). split.
  - apply list_elem_of_fmap. by exists (key, value).
  - by apply snippet_unsupported.
Qed.

Lemma snippets_are_breaking_witness :
  OverallStatus (analyzeIngressOver "gateway-api" examples.snippetRoute
                   examples.snippetAnnotations) = "breaking".
Proof.
  apply (snippets_are_breaking "gateway-api" examples.snippetRoute).
  - constructor. apply MapRange_list_to_map; [compute_done|reflexivity].
  - left. compute_done.
Defined.

(** ** The Gateway API synthesizer: listeners and files *)

Section Listeners.

Import gatewayapi.

(** The state of [buildHostnameToSection] against the entries
    [generateGateway] has collected from the same ingresses. *)
Local Abbreviation aligned entries st :=
  (st.2 = Z.of_nat (List.length entries)
   ∧ ∀ h s, st.1 !! h = Some s →
       ∃ (i : nat) (tls : tlsEntry),
         s = "https-" +:+ fmt_d (Z.of_nat i)
         ∧ entries%list !! i = Some tls
         ∧ head (hosts tls) = Some h).

Local Abbreviation entryOf ing :=
  (λ secret, {| hosts := Hosts ing; secretName := secret; namespace := Namespace ing |}).

Lemma recordSecret_aligned ing (e : tlsEntry) (entries : list tlsEntry)
    (st : gmap string string * Z) :
  hosts e = Hosts ing →
  aligned entries st →
  aligned (entries ++ [e])%list (recordSecret ing st).
Proof.
  intros He [Hidx Hmap]. split.
  - unfold recordSecret. simpl. rewrite length_app. simpl. lia.
  - assert (Hold : ∀ h s, st.1 !! h = Some s →
       ∃ (i : nat) (tls : tlsEntry),
         s = "https-" +:+ fmt_d (Z.of_nat i)
         ∧ (entries ++ [e])%list !! i = Some tls
         ∧ head (hosts tls) = Some h).
    { intros h s Hs. destruct (Hmap h s Hs) as (i & tls & -> & Hi & Hh).
      exists i, tls. split; [done|]. split; [|done]. by apply lookup_app_l_Some. }
    intros h s. unfold recordSecret. simpl.
    destruct (Hosts ing) as [|h0 hs] eqn:Hhosts; [apply Hold|].
    destruct (decide (h0 = h)) as [->|Hne].
    + rewrite lookup_insert_eq. intros [= <-].
      exists (List.length entries), e. rewrite Hidx. split; [done|].
      split; [|by rewrite He].
      by rewrite lookup_app_r, Nat.sub_diag.
    + rewrite lookup_insert_ne by done. apply Hold.
Qed.

Lemma recordSecrets_aligned ing secrets (entries : list tlsEntry) st :
  aligned entries st →
  aligned (entries ++ map (entryOf ing) secrets)%list
          (foldl (λ st' _, recordSecret ing st') st secrets).
Proof.
  revert entries st. induction secrets as [|secret secrets IH]; intros entries st Hst.
  - simpl. by rewrite app_nil_r.
  - simpl. rewrite (cons_middle _ entries), app_assoc.
    by apply IH, recordSecret_aligned.
Qed.

Lemma recordIngresses_aligned ingresses (entries : list tlsEntry) st :
  aligned entries st →
  aligned (entries
           ++ flat_map (λ ing,
                          if TLSEnabled ing && (0 <? List.length (TLSSecrets ing))%nat
                          then map (entryOf ing) (TLSSecrets ing)
                          else [])
                       ingresses)%list
          (foldl recordIngress st ingresses).
Proof.
  revert entries st. induction ingresses as [|ing ingresses IH]; intros entries st Hst.
  - simpl. by rewrite app_nil_r.
  - simpl. rewrite app_assoc. apply IH. unfold recordIngress.
    destruct (TLSEnabled ing && _).
    + by apply recordSecrets_aligned.
    + by rewrite app_nil_r.
Qed.

End Listeners.

(** X10: the section name [buildHostnameToSection] records for a host
    is https-i for the index i of an entry of [generateGateway]'s TLS
    entries whose first host is that host: the backend route of the host is
    bound to a listener [generateGateway] writes with that hostname. *)
Theorem section_names_listener_of_host (scan : ScanResult) (h s : string) :
  gatewayapi.buildHostnameToSection scan !! h = Some s →
  ∃ (i : nat) (tls : gatewayapi.tlsEntry),
    s = "https-" +:+ fmt_d (Z.of_nat i)
    ∧ gatewayapi.tlsEntriesOf scan !! i = Some tls
    ∧ head (gatewayapi.hosts tls) = Some h.
Proof.
  unfold gatewayapi.buildHostnameToSection.
  destruct (recordIngresses_aligned (Ingresses scan) [] (∅, 0)) as [_ Hmap].
  { split; [done|]. intros h' s'. simpl. by rewrite lookup_empty. }
  intros Hs. destruct (Hmap h s Hs) as (i & tls & -> & Hi & Hh).
  exists i, tls. split; [done|]. split; [|done]. exact Hi.
Qed.

Lemma section_names_listener_of_host_witness :
  ∃ (i : nat) (tls : gatewayapi.tlsEntry),
    "https-1" = "https-" +:+ fmt_d (Z.of_nat i)
    ∧ gatewayapi.tlsEntriesOf (examples.scanOf [examples.checkout; examples.billing]) !! i
      = Some tls
    ∧ head (gatewayapi.hosts tls) = Some "billing.example.com".
Proof.
  apply (section_names_listener_of_host
           (examples.scanOf [examples.checkout; examples.billing])
           "billing.example.com" "https-1").
  vm_compute. reflexivity.
Defined.

Section Paths.

Local Abbreviation bytes := list_ascii_of_string.

Lemma bytes_app (a b : string) : bytes (a +:+ b) = (bytes a ++ bytes b)%list.
Proof. induction a as [|c a IH]; simpl; [done|]. by rewrite IH. Qed.

Lemma bytes_inj (a b : string) : bytes a = bytes b → a = b.
Proof.
  intros H. rewrite <- (string_of_list_ascii_of_string a),
    <- (string_of_list_ascii_of_string b). by rewrite H.
Qed.

Lemma append_inj_r (a b s : string) : a +:+ s = b +:+ s → a = b.
Proof.
  intros H. apply bytes_inj. apply (f_equal bytes) in H. rewrite !bytes_app in H.
  by apply app_inv_tail in H.
Qed.

Lemma last_byte_app (a b : string) :
  b ≠ EmptyString → last (bytes (a +:+ b)) = last (bytes b).
Proof.
  intros Hb. rewrite bytes_app, last_app.
  destruct b as [|c b]; [done|]. simpl bytes.
  destruct (last (c :: bytes b)) eqn:Hlast; [done|].
  by apply last_None in Hlast.
Qed.

(** Elements with the same image in a list without duplicate images. *)
Lemma NoDup_fmap_eq {A B} (f : A → B) (l : list A) (x y : A) :
  NoDup (f <$> l) → x ∈ l → y ∈ l → f x = f y → x = y.
Proof.
  induction l as [|z l IH]; intros Hnd Hx Hy Heq; [by apply elem_of_nil in Hx|].
  rewrite fmap_cons in Hnd. apply NoDup_cons in Hnd as [Hz Hnd].
  apply elem_of_cons in Hx as [->|Hx]; apply elem_of_cons in Hy as [->|Hy];
    [done| | |by apply IH].
  - exfalso. apply Hz. rewrite Heq. apply list_elem_of_fmap. by exists y.
  - exfalso. apply Hz. rewrite <- Heq. apply list_elem_of_fmap. by exists x.
Qed.

(** The first two bytes of a path: the ordinal of its directory. *)
Local Abbreviation ordinal p := (String.substring 0 2 p).

Lemma NoDup_app_ordinals (A B : list string) (da db : list string) :
  Forall (λ d, d ∉ db) da →
  NoDup A ∧ Forall (λ p, ordinal p ∈ da) A →
  NoDup B ∧ Forall (λ p, ordinal p ∈ db) B →
  NoDup (A ++ B)%list ∧ Forall (λ p, ordinal p ∈ (da ++ db)%list) (A ++ B)%list.
Proof.
  intros Hdisj [HA Hda] [HB Hdb]. rewrite Forall_forall in Hdisj. split.
  - apply NoDup_app. split; [done|]. split; [|done]. intros p Hp Hp'.
    rewrite Forall_forall in Hda, Hdb. by apply (Hdisj (ordinal p)); auto.
  - apply Forall_app. split; eapply Forall_impl; eauto; intros p Hp;
      apply elem_of_app; [by left|by right].
Qed.

End Paths.

Section GatewayFiles.

Import gatewayapi.

Local Abbreviation key := traefik.ingressKey.
Local Abbreviation ordinal p := (String.substring 0 2 p).
Local Abbreviation policySuffixes := ["-ratelimit"; "-extauth"; "-ipfilter"].

Lemma wrap_inj (pre suf a b : string) : pre +:+ a +:+ suf = pre +:+ b +:+ suf → a = b.
Proof. intros H. apply append_inj_l in H. by apply append_inj_r in H. Qed.

Lemma route_path (ing : IngressInfo) :
  cat ["04-httproutes/"; Namespace ing; "-"; Name ing; ".yaml"]
  = "04-httproutes/" +:+ key ing +:+ ".yaml".
Proof.
  unfold traefik.ingressKey. cbn [cat]. by rewrite append_nil_r, !append_assoc.
Qed.

Lemma policy_name (ing : IngressInfo) (suffix : string) :
  cat [Namespace ing; "-"; Name ing; suffix] = key ing +:+ suffix.
Proof.
  unfold traefik.ingressKey. cbn [cat]. by rewrite append_nil_r, !append_assoc.
Qed.

Lemma key_suffix_inj (k k' suffix suffix' : string) :
  suffix ∈ policySuffixes → suffix' ∈ policySuffixes →
  k +:+ suffix = k' +:+ suffix' → k = k' ∧ suffix = suffix'.
Proof.
  intros Hs Hs' H. rewrite !elem_of_cons, elem_of_nil in Hs, Hs'.
  assert (Hne : suffix ≠ EmptyString) by (by destruct Hs as [->|[->|[->|[]]]]).
  assert (Hne' : suffix' ≠ EmptyString) by (by destruct Hs' as [->|[->|[->|[]]]]).
  assert (Hlast : last (list_ascii_of_string suffix) = last (list_ascii_of_string suffix')).
  { by rewrite <- (last_byte_app k suffix), <- (last_byte_app k' suffix'), H. }
  assert (suffix = suffix') as <-.
  { destruct Hs as [->|[->|[->|[]]]], Hs' as [->|[->|[->|[]]]];
      try done; vm_compute in Hlast; discriminate. }
  split; [|done]. by apply append_inj_r in H.
Qed.

Lemma policy_names (ing : IngressInfo) :
  Forall (λ n, ∃ suffix, suffix ∈ policySuffixes ∧ n = key ing +:+ suffix)
         (map name (policiesOf ing)).
Proof.
  unfold policiesOf. rewrite !map_app, !Forall_app. split_and!.
  - destruct (has _ _); constructor; [|constructor].
    exists "-ratelimit". split; [compute_done|apply policy_name].
  - destruct (_ !! "auth-url") as [v|]; [destruct (negb _)|]; constructor; [|constructor].
    exists "-extauth". split; [compute_done|apply policy_name].
  - destruct (_ !! "denylist-source-range") as [v|]; [destruct (negb _)|];
      constructor; [|constructor].
    exists "-ipfilter". split; [compute_done|apply policy_name].
  - destruct (_ !! "whitelist-source-range") as [v|]; [destruct (negb _)|];
      constructor; [|constructor].
    exists "-ipfilter". split; [compute_done|apply policy_name].
Qed.

Local Ltac differ :=
  let H := fresh in
  intros H; do 3 apply append_inj_l in H; vm_compute in H; discriminate.

Lemma policy_names_NoDup (ing : IngressInfo) :
  index (NginxAnnotations ing) "denylist-source-range" = EmptyString
  ∨ index (NginxAnnotations ing) "whitelist-source-range" = EmptyString →
  NoDup (map name (policiesOf ing)).
Proof.
  unfold policiesOf, index. intros Hone.
  destruct (has _ _).
  all: destruct (_ !! "auth-url") as [u|]; [destruct (negb (String.eqb u _))|].
  all: destruct (_ !! "denylist-source-range") as [d|];
    [destruct (String.eqb_spec d EmptyString)|].
  all: destruct (_ !! "whitelist-source-range") as [a|];
    [destruct (String.eqb_spec a EmptyString)|].
  all: simpl in *; try (destruct Hone; congruence).
  all: repeat (apply NoDup_cons; split;
               [rewrite ?not_elem_of_cons; split_and?; try differ; apply not_elem_of_nil|]).
  all: apply NoDup_nil_2.
Qed.

Lemma policies_NoDup (ingresses : list IngressInfo) :
  NoDup (key <$> ingresses) →
  Forall (λ ing, index (NginxAnnotations ing) "denylist-source-range" = EmptyString
                 ∨ index (NginxAnnotations ing) "whitelist-source-range" = EmptyString)
         ingresses →
  NoDup (map name (flat_map policiesOf ingresses)).
Proof.
  induction ingresses as [|ing ingresses IH]; intros Hkeys Hone; [constructor|].
  rewrite fmap_cons in Hkeys. apply NoDup_cons in Hkeys as [Hfresh Hkeys].
  apply Forall_cons in Hone as [Hone Hrest].
  simpl. rewrite map_app. apply NoDup_app. split; [by apply policy_names_NoDup|].
  split; [|by apply IH]. intros n Hn Hn'.
  pose proof (policy_names ing) as Hnames. rewrite Forall_forall in Hnames.
  destruct (Hnames n Hn) as (suffix & Hsuffix & ->).
  apply list_elem_of_fmap in Hn' as (p & Hp & Hin).
  apply list_elem_of_In, in_flat_map in Hin as (ing' & Hing' & Hin).
  pose proof (policy_names ing') as Hnames'. rewrite Forall_forall in Hnames'.
  destruct (Hnames' (name p)) as (suffix' & Hsuffix' & Heq).
  { apply list_elem_of_fmap. exists p. split; [done|]. by apply list_elem_of_In. }
  rewrite Heq in Hp. apply key_suffix_inj in Hp as [Hk _]; [|done..].
  apply Hfresh. rewrite Hk. apply list_elem_of_fmap. exists ing'.
  split; [done|]. by apply list_elem_of_In.
Qed.

End GatewayFiles.

(** X11: the Gateway API [Migrate] writes no path twice when the keys
    namespace-name of the ingresses are pairwise distinct and no ingress
    has both a deny list and an allow list (the two IP policies of one
    ingress share one name). *)
Theorem gateway_paths_distinct (Quote : string → string) (scan : ScanResult) :
  NoDup (traefik.ingressKey <$> Ingresses scan) →
  Forall (λ ing, index (NginxAnnotations ing) "denylist-source-range" = EmptyString
                 ∨ index (NginxAnnotations ing) "whitelist-source-range" = EmptyString)
         (Ingresses scan) →
  NoDup (map RelPath (gatewayapi.Migrate Quote scan)).
Proof.
  intros Hkeys Hone. unfold gatewayapi.Migrate. rewrite !map_app.
  refine (proj1 (NoDup_app_ordinals _ _ ["01"; "02"; "03"] (["04"] ++ ["05"] ++ ["06"; "07"])
                   _ _ _)); [compute_done|split; compute_done|].
  apply NoDup_app_ordinals; [compute_done| |].
  { unfold gatewayapi.httpRouteFiles. rewrite map_map. split.
    - apply (NoDup_fmap_2_strong _ (Ingresses scan)); [|by eapply NoDup_fmap_1].
      intros x y Hx Hy Heq. cbn [RelPath] in Heq.
      rewrite !route_path in Heq. apply wrap_inj in Heq.
      by apply (NoDup_fmap_eq traefik.ingressKey (Ingresses scan)).
    - apply Forall_forall. intros p Hp. apply list_elem_of_fmap in Hp as (ing & -> & _).
      by apply list_elem_of_singleton. }
  apply NoDup_app_ordinals; [compute_done| |split; compute_done].
  rewrite map_map. cbn [RelPath]. split.
  - rewrite <- (map_map gatewayapi.name (λ n, cat ["05-policies/"; n; ".yaml"])).
    apply (NoDup_fmap_2_strong _ _); [|by apply policies_NoDup].
    intros x y _ _ Heq. cbn [cat] in Heq. apply append_inj_l in Heq.
    by apply append_inj_r in Heq.
  - apply Forall_forall. intros p Hp. apply list_elem_of_fmap in Hp as (ing & -> & _).
    by apply list_elem_of_singleton.
Qed.

Lemma gateway_paths_distinct_witness :
  NoDup (map RelPath (gatewayapi.Migrate quoteASCII
                        (examples.scanOf [examples.checkout; examples.billing]))).
Proof.
  apply gateway_paths_distinct; compute_done.
Defined.

(** ** The Traefik synthesizer: middlewares, annotations and files *)

Section Middlewares.

Import traefik.

Local Abbreviation middlewareSuffixes :=
  ["-ssl-redirect"; "-force-ssl-redirect"; "-cors"; "-auth"; "-basicauth"; "-ratelimit";
   "-inflightreq"; "-ipallowlist"; "-ipdenylist"; "-rewrite"; "-headers"].

Lemma sublist_one {A} (l : list A) (x : A) : l = [x] ∨ l = [] → l `sublist_of` [x].
Proof. intros [-> | ->]; [done|apply sublist_nil_l]. Qed.

Lemma generateMiddlewares_names (ing : IngressInfo) :
  map Name (generateMiddlewares ing)
  `sublist_of` map (λ suffix, scanner.Name ing +:+ suffix) middlewareSuffixes.
Proof.
  unfold generateMiddlewares. rewrite !map_app.
  change (map (λ suffix, scanner.Name ing +:+ suffix) middlewareSuffixes)
    with ([scanner.Name ing +:+ "-ssl-redirect"] ++ [scanner.Name ing +:+ "-force-ssl-redirect"]
          ++ [scanner.Name ing +:+ "-cors"] ++ [scanner.Name ing +:+ "-auth"]
          ++ [scanner.Name ing +:+ "-basicauth"] ++ [scanner.Name ing +:+ "-ratelimit"]
          ++ [scanner.Name ing +:+ "-inflightreq"] ++ [scanner.Name ing +:+ "-ipallowlist"]
          ++ [scanner.Name ing +:+ "-ipdenylist"] ++ [scanner.Name ing +:+ "-rewrite"]
          ++ [scanner.Name ing +:+ "-headers"])%list.
  repeat (apply sublist_app; [apply sublist_one|]); [..|apply sublist_one].
  - destruct (isTrue _ _); auto.
  - destruct (isTrue _ _); auto.
  - destruct (isTrue _ _); auto.
  - destruct (isSet _ _); auto.
  - destruct (_ !! "auth-type") as [v|]; [destruct (String.eqb v _)|]; auto.
  - destruct (has _ "limit-rps"); [auto|]. destruct (has _ "limit-rpm"); auto.
  - destruct (has _ _); auto.
  - destruct (_ !! "whitelist-source-range") as [v|]; [destruct (negb _)|]; auto.
  - destruct (_ !! "denylist-source-range") as [v|]; [destruct (negb _)|]; auto.
  - destruct (_ !! "rewrite-target") as [v|]; [destruct (negb _)|]; auto.
    left. unfold generateRewriteMiddleware. by destruct (has _ _).
  - destruct (has _ _); auto.
Qed.

Lemma generateMiddlewares_namespace (ing : IngressInfo) :
  Forall (λ mw, Namespace mw = scanner.Namespace ing) (generateMiddlewares ing).
Proof.
  unfold generateMiddlewares. rewrite !Forall_app. split_and!.
  - destruct (isTrue _ _); by repeat constructor.
  - destruct (isTrue _ _); by repeat constructor.
  - destruct (isTrue _ _); by repeat constructor.
  - destruct (isSet _ _); by repeat constructor.
  - destruct (_ !! "auth-type") as [v|]; [destruct (String.eqb v _)|]; by repeat constructor.
  - destruct (has _ "limit-rps"); [by repeat constructor|].
    destruct (has _ "limit-rpm"); by repeat constructor.
  - destruct (has _ _); by repeat constructor.
  - destruct (_ !! "whitelist-source-range") as [v|]; [destruct (negb _)|];
      by repeat constructor.
  - destruct (_ !! "denylist-source-range") as [v|]; [destruct (negb _)|];
      by repeat constructor.
  - destruct (_ !! "rewrite-target") as [v|]; [destruct (negb _)|]; repeat constructor.
    unfold generateRewriteMiddleware. by destruct (has _ _).
  - destruct (has _ _); by repeat constructor.
Qed.

End Middlewares.

(** X12: the middlewares [generateMiddlewares] returns for one ingress
    have pairwise distinct names and all live in the namespace of the
    ingress. *)
Theorem middleware_names_distinct (ing : IngressInfo) :
  NoDup (map traefik.Name (traefik.generateMiddlewares ing))
  ∧ Forall (λ mw, traefik.Namespace mw = Namespace ing) (traefik.generateMiddlewares ing).
Proof.
  split; [|apply generateMiddlewares_namespace].
  refine (sublist_NoDup _ _ _ (generateMiddlewares_names ing)).
  apply (NoDup_fmap_2_strong _ _); [|compute_done].
  intros x y _ _ Heq. by apply append_inj_l in Heq.
Qed.

Section MiddlewareNames.

Import traefik.

Lemma middlewareStep_other (st : gmap string (list string) * list GeneratedFile)
    (ing : IngressInfo) (k : string) :
  ingressKey ing ≠ k → (middlewareStep st ing).1 !! k = st.1 !! k.
Proof.
  intros Hne. unfold middlewareStep. destruct (0 <? _)%nat; [|done].
  simpl. by rewrite lookup_insert_ne.
Qed.

Lemma middlewareSteps_other ingresses (st : gmap string (list string) * list GeneratedFile)
    (k : string) :
  k ∉ ingressKey <$> ingresses →
  (foldl middlewareStep st ingresses).1 !! k = st.1 !! k.
Proof.
  revert st. induction ingresses as [|ing ingresses IH]; intros st Hk; [done|].
  rewrite fmap_cons in Hk. apply not_elem_of_cons in Hk as [Hne Hk].
  simpl. rewrite IH by done. by apply middlewareStep_other.
Qed.

Lemma middlewareStep_records (st : gmap string (list string) * list GeneratedFile)
    (ing : IngressInfo) :
  st.1 !! ingressKey ing = None →
  default [] ((middlewareStep st ing).1 !! ingressKey ing) = middlewareRefs ing.
Proof.
  intros Hnone. unfold middlewareStep, middlewareRefs.
  destruct (generateMiddlewares ing) as [|mw mws]; simpl.
  - by rewrite Hnone.
  - by rewrite lookup_insert_eq.
Qed.

Lemma middlewareSteps_records ingresses (st : gmap string (list string) * list GeneratedFile)
    (ing : IngressInfo) :
  NoDup (ingressKey <$> ingresses) →
  (∀ ing', ing' ∈ ingresses → st.1 !! ingressKey ing' = None) →
  ing ∈ ingresses →
  default [] ((foldl middlewareStep st ingresses).1 !! ingressKey ing) = middlewareRefs ing.
Proof.
  revert st. induction ingresses as [|ing' ingresses IH]; intros st Hkeys Hst Hin;
    [by apply elem_of_nil in Hin|].
  rewrite fmap_cons in Hkeys. apply NoDup_cons in Hkeys as [Hfresh Hkeys]. simpl.
  apply elem_of_cons in Hin as [->|Hin].
  - rewrite middlewareSteps_other by done. apply middlewareStep_records, Hst. left.
  - apply IH; [done| |done]. intros ing'' Hin''. rewrite middlewareStep_other.
    + apply Hst. by right.
    + intros Heq. apply Hfresh. rewrite Heq. apply list_elem_of_fmap. by exists ing''.
Qed.

End MiddlewareNames.

(** X13: when the keys namespace-name of the ingresses are pairwise
    distinct, the middleware names the Traefik [Migrate] hands to
    [generateUpdatedIngress] for an ingress are the references to the
    middlewares generated for that very ingress (none when it has none). *)
Theorem middleware_references_match (scan : ScanResult) (ing : IngressInfo) :
  NoDup (traefik.ingressKey <$> Ingresses scan) →
  ing ∈ Ingresses scan →
  traefik.middlewareNamesFor scan ing = traefik.middlewareRefs ing.
Proof.
  intros Hkeys Hin. unfold traefik.middlewareNamesFor, traefik.middlewareStepAll.
  by apply middlewareSteps_records.
Qed.

Lemma middleware_references_match_witness :
  traefik.middlewareNamesFor (examples.scanOf [examples.checkout; examples.billing])
    examples.billing
  = traefik.middlewareRefs examples.billing.
Proof.
  apply middleware_references_match; [compute_done|]. right. left.
Defined.

Section UpdatedAnnotations.

Import traefik.

Lemma delete_all_lookup (m : gmap string string) (keys : list string) (k : string) :
  foldl (λ m k, delete k m) m keys !! k = if decide (k ∈ keys) then None else m !! k.
Proof.
  revert m. induction keys as [|k' keys IH]; intros m.
  - destruct (decide (k ∈ [])) as [H|]; [by apply elem_of_nil in H|done].
  - cbn [foldl]. rewrite IH.
    destruct (decide (k ∈ keys)) as [Hin|Hnin], (decide (k ∈ k' :: keys)) as [Hin'|Hnin'];
      try done.
    + exfalso. apply Hnin'. by right.
    + apply elem_of_cons in Hin' as [->|?]; [|done]. apply lookup_delete_eq.
    + apply lookup_delete_ne. intros ->. apply Hnin'. left.
Qed.

End UpdatedAnnotations.

(** X14: the annotations of the updated Ingress: the middleware
    annotation holds the middleware names joined by commas when there are
    any; otherwise a key of [toRemove] is absent and every other key keeps
    the value it has on the ingress, whatever the order of the copy. *)
Theorem updated_annotations_lookup (ing : IngressInfo) (copyOrder : list (string * string))
    (middlewareNames : list string) (k : string) :
  MapRange (Annotations ing) copyOrder →
  traefik.updatedAnnotations (traefik.copyAnnotationsOver copyOrder) middlewareNames !! k
  = if decide (k = "traefik.ingress.kubernetes.io/router.middlewares"
               ∧ middlewareNames ≠ [])
    then Some (Join middlewareNames ",")
    else if decide (k ∈ traefik.toRemove) then None
    else Annotations ing !! k.
Proof.
  intros Hcopy. rewrite (copyAnnotationsOver_range _ _ Hcopy).
  unfold traefik.updatedAnnotations.
  destruct middlewareNames as [|n names]; cbn [List.length Nat.ltb Nat.leb].
  - case_decide as Hk; [by destruct Hk|]. apply delete_all_lookup.
  - case_decide as Hk.
    + destruct Hk as [-> _]. apply lookup_insert_eq.
    + rewrite lookup_insert_ne; [apply delete_all_lookup|].
      intros <-. by apply Hk.
Qed.

Lemma updated_annotations_lookup_witness :
  traefik.updatedAnnotations (traefik.copyAnnotationsOver examples.billingAll)
    (traefik.middlewareRefs examples.billing) !! "nginx.ingress.kubernetes.io/limit-rps"
  = if decide ("nginx.ingress.kubernetes.io/limit-rps"
               = "traefik.ingress.kubernetes.io/router.middlewares"
               ∧ traefik.middlewareRefs examples.billing ≠ [])
    then Some (Join (traefik.middlewareRefs examples.billing) ",")
    else if decide ("nginx.ingress.kubernetes.io/limit-rps" ∈ traefik.toRemove) then None
    else Annotations examples.billing !! "nginx.ingress.kubernetes.io/limit-rps".
Proof.
  apply (updated_annotations_lookup examples.billing examples.billingAll).
  apply MapRange_list_to_map; [compute_done|reflexivity].
Defined.

Section TraefikFiles.

Import traefik.

Local Abbreviation ordinal p := (String.substring 0 2 p).

Local Abbreviation middlewarePath :=
  (λ ing : IngressInfo,
     cat ["02-middlewares/"; scanner.Namespace ing; "-"; scanner.Name ing;
          "-middlewares.yaml"]).

Local Abbreviation ingressPath :=
  (λ ing : IngressInfo,
     cat ["03-ingresses/"; scanner.Namespace ing; "-"; scanner.Name ing; ".yaml"]).

Lemma sublist_Forall {A} (P : A → Prop) (l k : list A) :
  l `sublist_of` k → Forall P k → Forall P l.
Proof.
  intros Hsub Hk. rewrite Forall_forall in Hk |- *. intros x Hx.
  apply Hk. by eapply elem_of_sublist.
Qed.

Lemma middleware_path (ing : IngressInfo) :
  middlewarePath ing = "02-middlewares/" +:+ ingressKey ing +:+ "-middlewares.yaml".
Proof. unfold ingressKey. cbn [cat]. by rewrite append_nil_r, !append_assoc. Qed.

Lemma ingress_path (ing : IngressInfo) :
  ingressPath ing = "03-ingresses/" +:+ ingressKey ing +:+ ".yaml".
Proof. unfold ingressKey. cbn [cat]. by rewrite append_nil_r, !append_assoc. Qed.

Lemma middleware_files ingresses (st : gmap string (list string) * list GeneratedFile) :
  ∃ paths, map RelPath (foldl middlewareStep st ingresses).2
           = (map RelPath st.2 ++ paths)%list
           ∧ paths `sublist_of` map middlewarePath ingresses.
Proof.
  revert st. induction ingresses as [|ing ingresses IH]; intros st.
  - exists []. simpl. by rewrite app_nil_r.
  - cbn [foldl]. destruct (IH (middlewareStep st ing)) as (paths & -> & Hsub).
    unfold middlewareStep. destruct (0 <? _)%nat.
    + exists (middlewarePath ing :: paths). cbn [snd]. rewrite map_app, <- app_assoc.
      split; [done|]. by apply sublist_skip.
    + exists paths. split; [done|]. by apply sublist_cons.
Qed.

Lemma ingress_files ingresses manifests :
  map RelPath (zip_with updatedIngressFile ingresses manifests)
  `sublist_of` map ingressPath ingresses.
Proof.
  revert manifests. induction ingresses as [|ing ingresses IH]; intros [|m manifests];
    simpl; try apply sublist_nil_l.
  apply sublist_skip, IH.
Qed.

Lemma keyed_paths (pre suf : string) (path : IngressInfo → string) (d : string) ingresses :
  (∀ ing, path ing = pre +:+ ingressKey ing +:+ suf) →
  (∀ rest, ordinal (pre +:+ rest) = d) →
  NoDup (ingressKey <$> ingresses) →
  NoDup (map path ingresses) ∧ Forall (λ p, ordinal p ∈ [d]) (map path ingresses).
Proof.
  intros Hpath Hd Hkeys. split.
  - apply (NoDup_fmap_2_strong _ _); [|by eapply NoDup_fmap_1].
    intros x y Hx Hy Heq. rewrite !Hpath in Heq. apply wrap_inj in Heq.
    by apply (NoDup_fmap_eq ingressKey ingresses).
  - apply Forall_forall. intros p Hp. apply list_elem_of_fmap in Hp as (ing & -> & _).
    apply list_elem_of_singleton. by rewrite Hpath, Hd.
Qed.

End TraefikFiles.

Section CanonicalOrder.

(** The manifest [generateUpdatedIngress] returns when the runtime visits
    each map in the order of [map_to_list]. *)
Lemma updated_ingress_in_map_order (Quote : string → string) (ing : IngressInfo)
    (middlewareNames : list string) :
  traefik.generateUpdatedIngress Quote ing middlewareNames
    (traefik.generateUpdatedIngressOver Quote ing
       (map_to_list
          (traefik.updatedAnnotations
             (traefik.copyAnnotationsOver (map_to_list (Annotations ing)))
             middlewareNames))
       (map_to_list (traefik.hostPathsOf ing))).
Proof.
  apply (traefik.generateUpdatedIngress_range Quote ing middlewareNames
           (map_to_list (Annotations ing))); unfold MapRange; reflexivity.
Qed.

End CanonicalOrder.

(** X15: the Traefik [Migrate] writes no path twice when the keys
    namespace-name of the ingresses are pairwise distinct. *)
Theorem traefik_paths_distinct (Quote : string → string) (scan : ScanResult)
    (files : list GeneratedFile) :
  traefik.Migrate Quote scan files →
  NoDup (traefik.ingressKey <$> Ingresses scan) →
  NoDup (map RelPath files).
Proof.
  intros [manifests _] Hkeys. unfold traefik.MigrateOver, traefik.middlewareStepAll.
  rewrite !map_app.
  destruct (middleware_files (Ingresses scan) (∅, [])) as (paths & Hfiles & Hpaths).
  change (map RelPath (∅, []).2 ++ paths)%list with paths in Hfiles. rewrite Hfiles.
  destruct (keyed_paths "02-middlewares/" "-middlewares.yaml" _ "02" (Ingresses scan)
              middleware_path (λ _, eq_refl) Hkeys) as [Hnd2 Hord2].
  destruct (keyed_paths "03-ingresses/" ".yaml" _ "03" (Ingresses scan)
              ingress_path (λ _, eq_refl) Hkeys) as [Hnd3 Hord3].
  refine (proj1 (NoDup_app_ordinals _ _ ["01"] (["02"] ++ ["03"] ++ ["04"; "05"; "06"])
                   _ _ _)); [compute_done|split; compute_done|].
  apply NoDup_app_ordinals; [compute_done| |].
  { split; [exact (sublist_NoDup _ _ Hnd2 Hpaths)|exact (sublist_Forall _ _ _ Hpaths Hord2)]. }
  apply NoDup_app_ordinals; [compute_done| |split; compute_done].
  split.
  - exact (sublist_NoDup _ _ Hnd3 (ingress_files _ _)).
  - exact (sublist_Forall _ _ _ (ingress_files _ _) Hord3).
Qed.

Lemma traefik_paths_distinct_witness :
  let scan := examples.scanOf [examples.checkout; examples.billing] in
  let manifestOf (ing : IngressInfo) :=
    traefik.generateUpdatedIngressOver quoteASCII ing
      (map_to_list
         (traefik.updatedAnnotations
            (traefik.copyAnnotationsOver (map_to_list (Annotations ing)))
            (traefik.middlewareNamesFor scan ing)))
      (map_to_list (traefik.hostPathsOf ing)) in
  let files := traefik.MigrateOver scan [manifestOf examples.checkout;
                                         manifestOf examples.billing] in
  NoDup (map RelPath files)
  ∧ map RelPath files =
      ["01-install-traefik/helm-install.sh";
       "01-install-traefik/values.yaml";
       "02-middlewares/shop-checkout-middlewares.yaml";
       "02-middlewares/billing-invoices-middlewares.yaml";
       "03-ingresses/shop-checkout.yaml";
       "03-ingresses/billing-invoices.yaml";
       "04-verify.sh";
       "05-dns-migration.md";
       "06-cleanup/01-preserve-ingressclass.yaml";
       "06-cleanup/02-remove-nginx.sh"].
Proof.
  split; [|vm_compute; reflexivity].
  apply (traefik_paths_distinct quoteASCII
           (examples.scanOf [examples.checkout; examples.billing]));
    [|compute_done].
  constructor.
  repeat (apply List.Forall2_cons; [by apply updated_ingress_in_map_order|]).
  apply List.Forall2_nil.
Defined.

Section RateLimit.

Import traefik.

Variables a1 a2 : gmap string string.
Hypothesis Hsame : ∀ k, k ≠ "limit-rpm" → a1 !! k = a2 !! k.
Variable rps : string.
Hypothesis Hrps : a2 !! "limit-rps" = Some rps.
Hypothesis Hne : rps ≠ EmptyString.

Lemma getAnnotation_but_rpm k d :
  k ≠ "limit-rpm" → getAnnotation a1 k d = getAnnotation a2 k d.
Proof. intros Hk. unfold getAnnotation. by rewrite Hsame. Qed.

Lemma isTrue_but_rpm k : k ≠ "limit-rpm" → isTrue a1 k = isTrue a2 k.
Proof. intros Hk. unfold isTrue. by rewrite Hsame. Qed.

Lemma isSet_but_rpm k : k ≠ "limit-rpm" → isSet a1 k = isSet a2 k.
Proof. intros Hk. unfold isSet. by rewrite Hsame. Qed.

Lemma has_but_rpm k : k ≠ "limit-rpm" → has a1 k = has a2 k.
Proof. intros Hk. unfold has. by rewrite Hsame. Qed.

Lemma generateCORSMiddleware_but_rpm n ns :
  generateCORSMiddleware n ns a1 = generateCORSMiddleware n ns a2.
Proof. unfold generateCORSMiddleware. by rewrite !getAnnotation_but_rpm. Qed.

Lemma generateForwardAuth_but_rpm n ns :
  generateForwardAuth n ns a1 = generateForwardAuth n ns a2.
Proof. unfold generateForwardAuth, index. by rewrite !Hsame. Qed.

Lemma generateBasicAuth_but_rpm n ns :
  generateBasicAuth n ns a1 = generateBasicAuth n ns a2.
Proof. unfold generateBasicAuth. by rewrite !getAnnotation_but_rpm. Qed.

Lemma generateRateLimit_with_rps n ns :
  generateRateLimit n ns a1 = generateRateLimit n ns a2.
Proof.
  unfold generateRateLimit.
  rewrite (Hsame "limit-rps"), (Hsame "limit-burst-multiplier"), Hrps by discriminate.
  by destruct (String.eqb_spec rps EmptyString).
Qed.

Lemma generateInFlightReq_but_rpm n ns :
  generateInFlightReq n ns a1 = generateInFlightReq n ns a2.
Proof. unfold generateInFlightReq. by rewrite !getAnnotation_but_rpm. Qed.

Lemma generateRewriteMiddleware_but_rpm n ns t :
  generateRewriteMiddleware n ns t a1 = generateRewriteMiddleware n ns t a2.
Proof. unfold generateRewriteMiddleware. by rewrite has_but_rpm. Qed.

Lemma generateHeadersMiddleware_but_rpm n ns :
  generateHeadersMiddleware n ns a1 = generateHeadersMiddleware n ns a2.
Proof. unfold generateHeadersMiddleware. by rewrite !getAnnotation_but_rpm. Qed.

End RateLimit.

(** X16: beside a non-empty limit-rps, the value and the presence of
    limit-rpm change nothing in the middlewares of the ingress. *)
Theorem limit_rpm_ignored_beside_rps (ing : IngressInfo) (annotations : gmap string string)
    (rps : string) :
  NginxAnnotations ing !! "limit-rps" = Some rps → rps ≠ EmptyString →
  (∀ k, k ≠ "limit-rpm" → annotations !! k = NginxAnnotations ing !! k) →
  traefik.generateMiddlewares (manifest.withNginxAnnotations ing annotations)
  = traefik.generateMiddlewares ing.
Proof.
  intros Hrps Hne Hsame. unfold traefik.generateMiddlewares.
  cbn [NginxAnnotations Name Namespace manifest.withNginxAnnotations].
  rewrite !(isTrue_but_rpm _ _ Hsame), !(isSet_but_rpm _ _ Hsame) by discriminate.
  rewrite (has_but_rpm _ _ Hsame "limit-rps"), (has_but_rpm _ _ Hsame "limit-connections"),
    (has_but_rpm _ _ Hsame "custom-headers") by discriminate.
  rewrite (generateCORSMiddleware_but_rpm _ _ Hsame),
    (generateForwardAuth_but_rpm _ _ Hsame), (generateBasicAuth_but_rpm _ _ Hsame),
    (generateRateLimit_with_rps _ _ Hsame rps Hrps Hne),
    (generateInFlightReq_but_rpm _ _ Hsame), (generateHeadersMiddleware_but_rpm _ _ Hsame).
  rewrite (Hsame "auth-type"), (Hsame "whitelist-source-range"),
    (Hsame "denylist-source-range"), (Hsame "rewrite-target") by discriminate.
  assert (Hhas : has (NginxAnnotations ing) "limit-rps" = true).
  { unfold has. rewrite Hrps. by apply bool_decide_eq_true. }
  rewrite Hhas.
  destruct (NginxAnnotations ing !! "rewrite-target") as [t|]; [|done].
  by rewrite (generateRewriteMiddleware_but_rpm _ _ Hsame).
Qed.

Lemma limit_rpm_ignored_beside_rps_witness :
  traefik.generateMiddlewares
    (manifest.withNginxAnnotations examples.billing
       (delete "limit-rpm" (NginxAnnotations examples.billing)))
  = traefik.generateMiddlewares examples.billing.
Proof.
  apply (limit_rpm_ignored_beside_rps examples.billing _ "20").
  - vm_compute. reflexivity.
  - discriminate.
  - intros k Hk. apply lookup_delete_ne. congruence.
Defined.

(** ** The validation of a migration *)

Section Overall.

Import server.

Lemma overallLoop_precedence (overall : string) (checks : list ValidationCheck) :
  overall ≠ "fail" →
  overallLoop overall checks
  = if decide (Exists (λ c, Status c = "fail") checks) then "fail"
    else if decide (Exists (λ c, Status c = "warn") checks) then "warn"
    else overall.
Proof.
  revert overall. induction checks as [|c checks IH]; intros overall Hoverall.
  - cbn [overallLoop]. rewrite !decide_False; [done|by intros H; inversion H..].
  - cbn [overallLoop].
    destruct (String.eqb_spec (Status c) "fail") as [Hfail|Hfail].
    { rewrite decide_True; [done|by left]. }
    destruct (String.eqb_spec overall "fail") as [?|_]; [done|].
    destruct (String.eqb_spec (Status c) "warn") as [Hwarn|Hwarn]; cbn [andb negb];
      rewrite IH by done; repeat case_decide; try done;
      repeat match goal with
             | H : Exists _ (_ :: _) |- _ => apply Exists_cons in H
             | H : ¬ Exists _ (_ :: _) |- _ => rewrite Exists_cons in H
             end; tauto.
Qed.

End Overall.

(** X17: the loop that sets [result.Overall] computes: fail when a
    check failed, else warn when a check warned, else pass. *)
Theorem overall_precedence (checks : list server.ValidationCheck) :
  server.overallOf checks
  = if decide (Exists (λ c, server.Status c = "fail") checks) then "fail"
    else if decide (Exists (λ c, server.Status c = "warn") checks) then "warn"
    else "pass".
Proof. by apply overallLoop_precedence. Qed.

Section Validation.

Import server.

Lemma overallOf_values (checks : list ValidationCheck) :
  overallOf checks = "pass" →
  ¬ Exists (λ c, Status c = "fail") checks ∧ ¬ Exists (λ c, Status c = "warn") checks.
Proof.
  unfold overallOf. rewrite overallLoop_precedence by done.
  by repeat case_decide.
Qed.

Lemma overallOf_fail (checks : list ValidationCheck) :
  Exists (λ c, Status c = "fail") checks → overallOf checks = "fail".
Proof.
  intros H. unfold overallOf. rewrite overallLoop_precedence by done.
  by rewrite decide_True.
Qed.

Lemma commonChecks_never_fail ingressCount nginx ns :
  ¬ Exists (λ c, Status c = "fail") (commonChecks ingressCount nginx ns).
Proof.
  unfold commonChecks. rewrite !Exists_cons, Exists_nil.
  destruct (0 <? ingressCount), nginx; simpl; intuition discriminate.
Qed.

Lemma nginx_warns ingressCount ns :
  Exists (λ c, Status c = "warn") (commonChecks ingressCount true ns).
Proof. unfold commonChecks. right. by left. Qed.

Lemma traefik_down_fails checks ns ver crd m u t :
  Exists (λ c, Status c = "fail") (appendTraefikChecks checks false ns ver crd m u t).
Proof. unfold appendTraefikChecks. rewrite !Exists_app. right. left. by left. Qed.

Lemma gateway_down_fails checks ns ver crd h t :
  Exists (λ c, Status c = "fail") (appendGatewayAPIChecks checks false ns ver crd h t).
Proof. unfold appendGatewayAPIChecks. rewrite !Exists_app. right. left. by left. Qed.

Lemma traefik_keeps_checks (P : ValidationCheck → Prop) checks running ns ver crd m u t :
  Exists P checks → Exists P (appendTraefikChecks checks running ns ver crd m u t).
Proof. intros H. unfold appendTraefikChecks. rewrite !Exists_app. by left. Qed.

Lemma gateway_keeps_checks (P : ValidationCheck → Prop) checks running ns ver crd h t :
  Exists P checks → Exists P (appendGatewayAPIChecks checks running ns ver crd h t).
Proof. intros H. unfold appendGatewayAPIChecks. rewrite !Exists_app. by left. Qed.

End Validation.

(** X18: for the two known targets, a validation in phase
    pre-migration has overall status fail, and one with overall status pass
    is in phase post-migration (while NGINX still runs the status is warn
    or fail). *)
Theorem overall_follows_phase (target : string) (sr1 sr2 : option ScanResult)
    (pods : server.PodLister) (apiGroups : option (list string))
    (middlewareLists httprouteLists : list (option Z)) :
  target = "traefik" ∨ target = "gateway-api" →
  let result := server.runRichValidationOver target sr1 sr2 pods apiGroups
                  middlewareLists httprouteLists in
  (server.Phase result = "pre-migration" → server.Overall result = "fail")
  ∧ (server.Overall result = "pass" → server.Phase result = "post-migration").
Proof.
  intros Htarget. unfold server.runRichValidationOver.
  destruct (server.detectTargetController pods target) as [[running ns] version].
  cbn [server.Phase server.Overall].
  set (nginx := match sr1 with Some sr => server.nginxPresent sr | None => false end).
  split.
  - intros Hphase. assert (running = false) as ->.
    { by destruct running, nginx. }
    apply overallOf_fail.
    destruct Htarget as [-> | ->]; cbn [String.eqb Ascii.eqb Bool.eqb].
    + apply traefik_down_fails.
    + apply gateway_down_fails.
  - intros Hpass. apply overallOf_values in Hpass as [Hfail Hwarn].
    destruct running.
    + destruct nginx; [|done]. exfalso. apply Hwarn.
      destruct Htarget as [-> | ->]; cbn [String.eqb Ascii.eqb Bool.eqb].
      * apply traefik_keeps_checks, nginx_warns.
      * apply gateway_keeps_checks, nginx_warns.
    + exfalso. apply Hfail.
      destruct Htarget as [-> | ->]; cbn [String.eqb Ascii.eqb Bool.eqb].
      * apply traefik_down_fails.
      * apply gateway_down_fails.
Qed.

Lemma overall_follows_phase_witness :
  let before := server.runRichValidationOver "traefik"
                  (Some (examples.scanOf [examples.checkout]))
                  (Some (examples.scanOf [examples.checkout]))
                  examples.noPods (Some []) [] [] in
  let after := server.runRichValidationOver "traefik"
                 (Some (examples.scanOf [examples.migratedRoute]))
                 (Some (examples.scanOf [examples.migratedRoute]))
                 examples.traefikPods (Some ["traefik.io"]) [Some 2] [] in
  (server.Phase before = "pre-migration" ∧ server.Overall before = "fail")
  ∧ (server.Overall after = "pass" ∧ server.Phase after = "post-migration").
Proof.
  split; split.
  - vm_compute. reflexivity.
  - apply (overall_follows_phase "traefik"
             (Some (examples.scanOf [examples.checkout]))
             (Some (examples.scanOf [examples.checkout]))
             examples.noPods (Some []) [] []); [by left|].
    vm_compute. reflexivity.
  - vm_compute. reflexivity.
  - apply (overall_follows_phase "traefik"
             (Some (examples.scanOf [examples.migratedRoute]))
             (Some (examples.scanOf [examples.migratedRoute]))
             examples.traefikPods (Some ["traefik.io"]) [Some 2] []); [by left|].
    vm_compute. reflexivity.
Defined.

Section UnknownValidation.

Import server.

Lemma detect_unknown (pods : PodLister) (target : string) :
  target ≠ "traefik" → target ≠ "gateway-api" →
  detectTargetController pods target = (false, EmptyString, EmptyString).
Proof.
  intros Ht Hg. unfold detectTargetController.
  destruct (String.eqb_spec target "traefik"); [done|].
  by destruct (String.eqb_spec target "gateway-api").
Qed.

End UnknownValidation.

(** X19: for a target that is neither traefik nor gateway-api,
    [runRichValidation] reports phase pre-migration with the two common
    checks only, never the overall status fail, and the next steps of the
    Gateway API. *)
Theorem unknown_target_validation (target : string) (sr1 sr2 : option ScanResult)
    (pods : server.PodLister) (apiGroups : option (list string))
    (middlewareLists httprouteLists : list (option Z)) :
  target ≠ "traefik" → target ≠ "gateway-api" →
  let result := server.runRichValidationOver target sr1 sr2 pods apiGroups
                  middlewareLists httprouteLists in
  server.Phase result = "pre-migration"
  ∧ List.length (server.Checks result) = 2%nat
  ∧ server.Overall result ≠ "fail"
  ∧ server.NextSteps result
    = ["Generate migration files on the Migrate tab";
       "Review 00-migration-report.md for a full migration overview";
       "Install Gateway API CRDs (standard-install.yaml)";
       "Install Envoy Gateway alongside NGINX (safe — won't affect production traffic)"].
Proof.
  intros Ht Hg. unfold server.runRichValidationOver.
  rewrite detect_unknown by done.
  cbn [server.Phase server.Overall server.Checks server.NextSteps].
  destruct (String.eqb_spec target "traefik"); [done|].
  destruct (String.eqb_spec target "gateway-api"); [done|].
  split_and!; try done.
  - unfold server.overallOf. rewrite overallLoop_precedence by done.
    rewrite decide_False by apply commonChecks_never_fail.
    by case_decide.
  - unfold server.buildNextSteps. cbn [server.migrationPhase andb fst].
    change (String.eqb "pre-migration" "pre-migration") with true. cbn iota.
    by destruct (String.eqb_spec target "traefik").
Qed.

Lemma unknown_target_validation_witness :
  let result := server.runRichValidationOver "nginx"
                  (Some (examples.scanOf [examples.checkout])) None
                  examples.traefikPods None [] [] in
  server.Phase result = "pre-migration"
  ∧ List.length (server.Checks result) = 2%nat
  ∧ server.Overall result ≠ "fail"
  ∧ server.NextSteps result
    = ["Generate migration files on the Migrate tab";
       "Review 00-migration-report.md for a full migration overview";
       "Install Gateway API CRDs (standard-install.yaml)";
       "Install Envoy Gateway alongside NGINX (safe — won't affect production traffic)"].
Proof.
  apply (unknown_target_validation "nginx"); discriminate.
Defined.

Section Coverage.

Lemma wrap64_small (z : Z) : 0 ≤ z < 2 ^ 63 → wrap64 z = z.
Proof.
  intros Hz. unfold wrap64. rewrite Z.mod_small; lia.
Qed.

Lemma coverage_below (count total : Z) :
  0 < total → 0 ≤ count →
  (Z.quot (count * 100) total <? 80) = bool_decide (5 * count < 4 * total).
Proof.
  intros Htotal Hcount. rewrite Z.quot_div_nonneg by lia.
  apply eq_true_iff_eq. rewrite Z.ltb_lt, bool_decide_eq_true. split.
  - intros Hlt. destruct (decide (5 * count < 4 * total)) as [|Hge]; [done|].
    assert (80 ≤ count * 100 / total); [|lia].
    apply Z.div_le_lower_bound; lia.
  - intros Hlt. apply Z.div_lt_upper_bound; lia.
Qed.

End Coverage.

(** X20: with ingresses and HTTPRoutes in the cluster, the last check
    of [appendGatewayAPIChecks] is the coverage check; it warns exactly when
    the HTTPRoutes are fewer than four fifths of the ingresses (the
    percentage is below 80), and passes otherwise, also above 100 percent. *)
Theorem coverage_check (checks : list server.ValidationCheck) (targetRunning : bool)
    (namespace version : string) (crdInstalled : bool) (httprouteCount ingressTotal : Z) :
  0 < ingressTotal → 0 < httprouteCount → httprouteCount * 100 < 2 ^ 63 →
  ∃ c, last (server.appendGatewayAPIChecks checks targetRunning namespace version
               crdInstalled httprouteCount ingressTotal) = Some c
       ∧ server.Name c = "HTTPRoute coverage"
       ∧ server.Status c
         = if decide (5 * httprouteCount < 4 * ingressTotal) then "warn" else "pass".
Proof.
  intros Htotal Hcount Hsmall. unfold server.appendGatewayAPIChecks.
  assert (Hpos : (0 <? ingressTotal) && (0 <? httprouteCount) = true).
  { apply andb_true_iff. split; by apply Z.ltb_lt. }
  rewrite Hpos. cbv zeta. rewrite wrap64_small by lia. rewrite coverage_below by lia.
  eexists. rewrite !app_assoc, last_snoc. split; [done|]. split; [done|].
  cbn [server.Status]. by case_bool_decide; case_decide.
Qed.

Lemma coverage_check_witness :
  ∃ c, last (server.appendGatewayAPIChecks [] true "envoy-gateway-system" "v1.2.0"
               true 3 4) = Some c
       ∧ server.Name c = "HTTPRoute coverage"
       ∧ server.Status c = if decide (5 * 3 < 4 * 4) then "warn" else "pass".
Proof.
  apply coverage_check; compute_done.
Defined.

(** ** The printed report *)

Section Heading.

Lemma repeatChar_length (c : string) (n : Z) :
  String.length (cmd.repeatChar c n) = (Z.to_nat n * String.length c)%nat.
Proof.
  unfold cmd.repeatChar. induction (Z.to_nat n) as [|k IH]; [done|].
  rewrite Nat.iter_succ, length_append, IH. lia.
Qed.

End Heading.

(** X21: the rule [printAnalysisReport] prints under the heading of a
    route is as long as the heading. *)
Theorem heading_rule_length (ir : IngressReport) :
  String.length (cmd.reportHeading ir).2 = String.length (cmd.reportHeading ir).1.
Proof.
  unfold cmd.reportHeading. cbn [fst snd cat].
  rewrite !length_append, repeatChar_length. simpl String.length. lia.
Qed.
